(** * SkArenaAlloc: a shallow embedding of src/core/SkArenaAlloc.cpp

    The arena is modelled on an LP64 target: pointers, [size_t], [ptrdiff_t]
    and [uintptr_t] are 64 bits wide, [uint32_t] is 32 bits wide.  Addresses
    are integers, the null pointer is address 0, and memory is a total map
    from addresses to byte values.  Every unsigned computation of the source
    has its wrap-around written out. *)

From Stdlib Require Import ZArith List Lia Bool.
Import ListNotations.
Local Open Scope Z_scope.

(** ** Machine integers *)

Module Mach.

Definition maxSize : Z := 4294967295.          (* numeric_limits<uint32_t>::max() *)
Definition wrap32 (z : Z) : Z := z mod 4294967296.
Definition wrap64 (z : Z) : Z := z mod 18446744073709551616.

(** [~x] on a [uint32_t] and on a [uintptr_t]. *)
Definition not32 (x : Z) : Z := Z.land (Z.lnot x) (Z.ones 32).
Definition not64 (x : Z) : Z := Z.land (Z.lnot x) (Z.ones 64).

(** Reinterpreting the bits of a [uint32_t] as an [int32_t]. *)
Definition to_int32 (z : Z) : Z :=
  if z <? 2147483648 then z else z - 4294967296.

Definition sizeof_ptr : Z := 8.                 (* sizeof(char* ), sizeof(ptrdiff_t) *)
Definition sizeof_u32 : Z := 4.                 (* sizeof(uint32_t), sizeof(int32_t) *)

End Mach.
Import Mach.

(** ** Byte-addressed memory *)

Module Mem.

Definition mem := Z -> Z.

Definition store1 (m : mem) (a v : Z) : mem :=
  fun x => if x =? a then v mod 256 else m x.

(** [memcpy] of the [n] low bytes of [v], least significant byte first. *)
Fixpoint store_le (n : nat) (m : mem) (a v : Z) : mem :=
  match n with
  | O => m
  | S k => store_le k (store1 m a v) (a + 1) (v / 256)
  end.

Fixpoint load_le (n : nat) (m : mem) (a : Z) : Z :=
  match n with
  | O => 0
  | S k => m a mod 256 + 256 * load_le k m (a + 1)
  end.

Definition agree_on (lo hi : Z) (m m' : mem) : Prop :=
  forall x, lo <= x < hi -> m x = m' x.

End Mem.
Import Mem.

(** ** Results of operations that may abort *)

Inductive error : Type :=
| AssertFail        (* AssertRelease(false): the process aborts *)
| BadAlloc          (* operator new[] failed *)
| OutOfFuel.        (* the model's loop bound was reached *)

Inductive result (A : Type) : Type :=
| Ok (a : A)
| Err (e : error).
Arguments Ok {A} a.
Arguments Err {A} e.

Definition bind {A B : Type} (r : result A) (k : A -> result B) : result B :=
  match r with
  | Ok a => k a
  | Err e => Err e
  end.

Notation "x <- r ;; k" := (bind r (fun x => k))
  (at level 61, r at next level, right associativity).

Definition is_ok {A : Type} (r : result A) : bool :=
  match r with
  | Ok _ => true
  | Err _ => false
  end.

Definition AssertRelease (cond : bool) : result unit :=
  if cond then Ok tt else Err AssertFail.

(** ** The system heap

    [operator new[]] and [operator delete[]] are outside the arena.  The
    heap is modelled by its history; an allocator is any function of the
    history and the requested size. *)

Module Heap.

Inductive hevent : Type :=
| HNew (p n : Z)
| HDelete (p : Z).

Definition history := list hevent.           (* newest event first *)

Fixpoint remove_block (p : Z) (l : list (Z * Z)) : list (Z * Z) :=
  match l with
  | [] => []
  | (q, n) :: l' => if q =? p then l' else (q, n) :: remove_block p l'
  end.

Fixpoint live (h : history) : list (Z * Z) :=
  match h with
  | [] => []
  | HNew p n :: h' => (p, n) :: live h'
  | HDelete p :: h' => remove_block p (live h')
  end.

Definition addr_limit : Z := 9223372036854775808.    (* 2^63 *)

Definition disjoint (p n q k : Z) : Prop := p + n <= q \/ q + k <= p.

(** What the arena relies on: a block returned by [new char[n]] is not
    null, lies below [addr_limit] and overlaps no live block. *)
Definition allocator_ok (sys_new : history -> Z -> option Z) : Prop :=
  forall h n p, 0 < n -> sys_new h n = Some p ->
    0 < p /\ p + n <= addr_limit /\
    Forall (fun b => disjoint p n (fst b) (snd b)) (live h).

(** A bump allocator that never reuses an address. *)
Fixpoint high_water (h : history) : Z :=
  match h with
  | [] => 4096
  | HNew p n :: h' => Z.max (p + n) (high_water h')
  | HDelete _ :: h' => high_water h'
  end.

Definition bump_new (h : history) (n : Z) : option Z :=
  let p := (high_water h + 15) / 16 * 16 in
  if p + n <=? addr_limit then Some p else None.

End Heap.
Import Heap.

(** ** The arena *)

Module Arena.

(** Modelled from the spec: the [Footer] record is declared in
    SkArenaAlloc.h, which is not part of the sources at hand.  The spec
    describes it as an action reference followed by a one-byte padding
    count; [RunDtorsOnBlock] reads it exactly so. *)
Definition sizeof_Footer : Z := sizeof_ptr + 1.

(** Footer actions are function pointers.  The model gives each function
    of the program a code address; the releaser of an object type (the
    Destruct action of the spec, a lambda of SkArenaAlloc.h) is identified
    by the size of the type. *)
Definition fn_end_chain : Z := 1.
Definition fn_SkipPod : Z := 2.
Definition fn_NextBlock : Z := 3.
Definition fn_releaser (size : Z) : Z := 4 + size.

Record SkArenaAlloc : Type := mkArena {
  fDtorCursor : Z;
  fCursor : Z;
  fEnd : Z;
  fNextHeapAlloc : Z;
  fYetNextHeapAlloc : Z
}.

Record world : Type := mkWorld {
  wmem : mem;
  wheap : history;
  arena : SkArenaAlloc
}.

Definition set_cursor (c : Z) (w : world) : world :=
  let a := arena w in
  mkWorld (wmem w) (wheap w)
          (mkArena (fDtorCursor a) c (fEnd a) (fNextHeapAlloc a) (fYetNextHeapAlloc a)).

Definition set_dtor (d : Z) (w : world) : world :=
  let a := arena w in
  mkWorld (wmem w) (wheap w)
          (mkArena d (fCursor a) (fEnd a) (fNextHeapAlloc a) (fYetNextHeapAlloc a)).

Definition ToU32 (v : Z) : Z := wrap32 v.

(** Modelled from the spec: [installRaw] is a template of SkArenaAlloc.h;
    it copies the bytes of a value to the cursor and advances the cursor
    by the size of the value. *)
Definition installRaw (n : nat) (val : Z) (w : world) : world :=
  let a := arena w in
  mkWorld (store_le n (wmem w) (fCursor a) val) (wheap w)
          (mkArena (fDtorCursor a) (fCursor a + Z.of_nat n) (fEnd a)
                   (fNextHeapAlloc a) (fYetNextHeapAlloc a)).

Definition installFooter (action padding : Z) (w : world) : world :=
  let w1 := installRaw 8 action w in
  let w2 := installRaw 1 padding w1 in
  set_dtor (fCursor (arena w2)) w2.

Definition first_allocated_block (blockSize firstHeapAllocation : Z) : Z :=
  if firstHeapAllocation >? 0 then firstHeapAllocation
  else if blockSize >? 0 then blockSize else 1024.

(** The constructor [SkArenaAlloc::SkArenaAlloc(block, size, firstHeapAllocation)],
    run in memory [m] with heap history [h]. *)
Definition construct (m : mem) (h : history) (block size firstHeapAllocation : Z) : world :=
  let next := first_allocated_block (ToU32 size) (ToU32 firstHeapAllocation) in
  let a0 := mkArena block block (block + ToU32 size) next next in
  let a1 := if size <? sizeof_Footer then mkArena 0 0 0 next next else a0 in
  let w := mkWorld m h a1 in
  if fCursor a1 =? 0 then w else installFooter fn_end_chain 0 w.

Section WithAllocator.

Variable sys_new : history -> Z -> option Z.

Definition new_block (n : Z) (w : world) : result (Z * world) :=
  match sys_new (wheap w) n with
  | Some p => Ok (p, mkWorld (wmem w) (HNew p n :: wheap w) (arena w))
  | None => Err BadAlloc
  end.

Definition headerSize : Z := sizeof_Footer + sizeof_ptr.
Definition overhead : Z := headerSize + sizeof_Footer.

(** The Fibonacci step of [ensureSpace]. *)
Definition advance (a : SkArenaAlloc) : SkArenaAlloc :=
  if fYetNextHeapAlloc a <=? maxSize - fNextHeapAlloc a then
    mkArena (fDtorCursor a) (fCursor a) (fEnd a)
            (fYetNextHeapAlloc a) (wrap32 (fNextHeapAlloc a + fYetNextHeapAlloc a))
  else
    mkArena (fDtorCursor a) (fCursor a) (fEnd a) maxSize (fYetNextHeapAlloc a).

Definition round_mask (allocationSize : Z) : Z :=
  if allocationSize >? 32768 then 4096 - 1 else 16 - 1.

Definition ensureSpace (size alignment : Z) (w : world) : result world :=
  _ <- AssertRelease (size <=? maxSize - overhead) ;;
  let objSizeAndOverhead := wrap32 (size + overhead) in
  let alignmentOverhead := wrap32 (alignment - 1) in
  _ <- AssertRelease (objSizeAndOverhead <=? maxSize - alignmentOverhead) ;;
  let objSizeAndOverhead := wrap32 (objSizeAndOverhead + alignmentOverhead) in
  let minAllocationSize := fNextHeapAlloc (arena w) in
  let w := mkWorld (wmem w) (wheap w) (advance (arena w)) in
  let allocationSize := Z.max objSizeAndOverhead minAllocationSize in
  let mask := round_mask allocationSize in
  _ <- AssertRelease (allocationSize <=? maxSize - mask) ;;
  let allocationSize := Z.land (wrap32 (allocationSize + mask)) (not32 mask) in
  r <- new_block allocationSize w ;;
  let '(newBlock, w) := r in
  let previousDtor := fDtorCursor (arena w) in
  let a := arena w in
  let w := mkWorld (wmem w) (wheap w)
                   (mkArena newBlock newBlock (newBlock + allocationSize)
                            (fNextHeapAlloc a) (fYetNextHeapAlloc a)) in
  let w := installRaw 8 previousDtor w in
  Ok (installFooter fn_NextBlock 0 w).

(** [allocObjectWithFooter]; the [goto restart] loop is bounded by [fuel]. *)
Fixpoint allocObjectWithFooter (fuel : nat) (sizeIncludingFooter alignment : Z)
                               (w : world) : result (Z * world) :=
  match fuel with
  | O => Err OutOfFuel
  | S fuel' =>
    let mask := wrap32 (alignment - 1) in
    let a := arena w in
    let needsSkipFooter := negb (fCursor a =? fDtorCursor a) in
    let skipOverhead := if needsSkipFooter then sizeof_Footer + sizeof_u32 else 0 in
    let totalSize := wrap32 (sizeIncludingFooter + skipOverhead) in
    if fCursor a =? 0 then
      w' <- ensureSpace totalSize alignment w ;;
      allocObjectWithFooter fuel' sizeIncludingFooter alignment w'
    else
      let objStart := Z.land (wrap64 (fCursor a + skipOverhead + mask)) (not64 mask) in
      if totalSize >? fEnd a - objStart then
        w' <- ensureSpace totalSize alignment w ;;
        allocObjectWithFooter fuel' sizeIncludingFooter alignment w'
      else
        _ <- AssertRelease (totalSize <=? fEnd a - objStart) ;;
        let w :=
          if needsSkipFooter then
            installFooter fn_SkipPod 0
              (installRaw 4 (ToU32 (fCursor a - fDtorCursor a)) w)
          else w in
        Ok (objStart, w)
  end.

(** Calls of [ensureSpace] in a row, one for each pair of a size and an
    alignment. *)
Fixpoint ensureSpace_all (rqs : list (Z * Z)) (w : world) : result world :=
  match rqs with
  | [] => Ok w
  | (size, alignment) :: rqs' =>
    w' <- ensureSpace size alignment w ;;
    ensureSpace_all rqs' w'
  end.

(** *** Teardown *)

(** What a teardown does that can be observed: destructor calls,
    [delete[]] calls, and the call of [end_chain]. *)
Inductive event : Type :=
| EvDtor (objStart size : Z)
| EvDelete (p : Z)
| EvEndChain (footerEnd : Z).

Definition end_chain (footerEnd : Z) : Z * list event :=
  (0, [EvEndChain footerEnd]).

Definition SkipPod (m : mem) (footerEnd : Z) : Z :=
  let objEnd := footerEnd - (sizeof_Footer + sizeof_u32) in
  let skip := to_int32 (load_le 4 m objEnd) in
  objEnd - skip.

(** [NextBlock] calls back into [RunDtorsOnBlock], passed here as [run]. *)
Definition NextBlock (run : Z -> option (list event)) (m : mem) (footerEnd : Z)
  : option (Z * list event) :=
  let objEnd := footerEnd - (sizeof_ptr + sizeof_Footer) in
  let next := load_le 8 m objEnd in
  match run next with
  | Some tr => Some (0, tr ++ [EvDelete objEnd])
  | None => None
  end.

(** Modelled from the spec: the Destruct action is a lambda of [make] in
    SkArenaAlloc.h.  Given the end of its footer it computes the address of
    the object, runs the destructor there and returns that address.  The
    call of the destructor is an event; what a destructor does to memory is
    outside the arena and not modelled. *)
Definition releaser (size : Z) (objEnd : Z) : Z * list event :=
  let objStart := objEnd - (size + sizeof_Footer) in
  (objStart, [EvDtor objStart size]).

(** The indirect call [action(footerEnd)]; a pointer that is no function
    of the program has no defined behaviour. *)
Definition call (run : Z -> option (list event)) (m : mem) (action footerEnd : Z)
  : option (Z * list event) :=
  if action =? fn_end_chain then Some (end_chain footerEnd)
  else if action =? fn_SkipPod then Some (SkipPod m footerEnd, [])
  else if action =? fn_NextBlock then NextBlock run m footerEnd
  else if 4 <=? action then Some (releaser (action - 4) footerEnd)
  else None.

(** [RunDtorsOnBlock]: [fuel] bounds the number of footers visited. *)
Fixpoint RunDtorsOnBlock (fuel : nat) (m : mem) (footerEnd : Z) : option (list event) :=
  match fuel with
  | O => None
  | S fuel' =>
    if footerEnd =? 0 then Some []
    else
      let action := load_le 8 m (footerEnd - sizeof_Footer) in
      let padding := load_le 1 m (footerEnd - 1) in
      match call (RunDtorsOnBlock fuel' m) m action footerEnd with
      | None => None
      | Some (ret, tr) =>
        match RunDtorsOnBlock fuel' m (ret - padding) with
        | Some tr' => Some (tr ++ tr')
        | None => None
        end
      end
  end.

Definition apply_deletes (tr : list event) (h : history) : history :=
  fold_left (fun h e => match e with EvDelete p => HDelete p :: h | _ => h end) tr h.

(** [~SkArenaAlloc()]: the trace of the teardown and the heap after it. *)
Definition destroy (fuel : nat) (w : world) : option (list event * history) :=
  match RunDtorsOnBlock fuel (wmem w) (fDtorCursor (arena w)) with
  | Some tr => Some (tr, apply_deletes tr (wheap w))
  | None => None
  end.

(** *** SkArenaAllocWithReset *)

Record SkArenaAllocWithReset : Type := mkReset {
  base : world;
  fFirstBlock : Z;
  fFirstSize : Z;
  fFirstHeapAllocationSize : Z
}.

Definition to_uint32_t (v : Z) : Z := wrap32 v.

Definition construct_with_reset (m : mem) (h : history)
           (block size firstHeapAllocation : Z) : SkArenaAllocWithReset :=
  mkReset (construct m h block size firstHeapAllocation)
          block (to_uint32_t size) (to_uint32_t firstHeapAllocation).

Definition reset (fuel : nat) (r : SkArenaAllocWithReset)
  : option (list event * SkArenaAllocWithReset) :=
  match destroy fuel (base r) with
  | Some (tr, h) =>
    Some (tr, construct_with_reset (wmem (base r)) h (fFirstBlock r) (fFirstSize r)
                                   (fFirstHeapAllocationSize r))
  | None => None
  end.

(** *** The allocation interface

    [make], [makeBytesAlignedTo] and [allocObject] are templates and inline
    members of SkArenaAlloc.h, which is not among the sources.  The spec
    (4.3) gives them as one operation
    [allocate(size, alignment, hasDestructor)]. *)

(** Modelled from the spec: [allocObject], the path of a trivially
    destructible allocation (4.3, steps 2 and 4): align the cursor, call
    [ensureSpace] and restart on shortfall, install nothing. *)
Fixpoint allocObject (fuel : nat) (size alignment : Z) (w : world) : result (Z * world) :=
  match fuel with
  | O => Err OutOfFuel
  | S fuel' =>
    let mask := wrap32 (alignment - 1) in
    let a := arena w in
    if fCursor a =? 0 then
      w' <- ensureSpace size alignment w ;;
      allocObject fuel' size alignment w'
    else
      let objStart := Z.land (wrap64 (fCursor a + mask)) (not64 mask) in
      if size >? fEnd a - objStart then
        w' <- ensureSpace size alignment w ;;
        allocObject fuel' size alignment w'
      else Ok (objStart, w)
  end.

(** Modelled from the spec: the caller "constructs the object in place"
    (4.3, step 4); [init] gives the bytes the constructor writes. *)
Definition write_object (objStart size : Z) (init : Z -> Z) (w : world) : world :=
  mkWorld (fun x => if (objStart <=? x) && (x <? objStart + size)
                    then init (x - objStart) mod 256 else wmem w x)
          (wheap w) (arena w).

(** Modelled from the spec: the arguments of
    [allocate(size, alignment, hasDestructor)], with the bytes of the object. *)
Record request : Type := mkRequest {
  rsize : Z;
  ralign : Z;
  rdtor : bool;              (* not trivially destructible *)
  rinit : Z -> Z
}.

(** Modelled from the spec: [allocate] (4.3).  An allocation with a
    destructor goes through [allocObjectWithFooter]; the caller constructs
    the object, then installs the Destruct footer, whose padding is the gap
    in front of the object, which advances [fDtorCursor] to the cursor.
    A trivially destructible allocation only advances the cursor. *)
Definition allocate (fuel : nat) (rq : request) (w : world) : result (Z * world) :=
  if rdtor rq then
    r <- allocObjectWithFooter fuel (wrap32 (rsize rq + sizeof_Footer)) (ralign rq) w ;;
    let '(objStart, w) := r in
    let padding := ToU32 (objStart - fCursor (arena w)) in
    let w := set_cursor (objStart + rsize rq) w in
    let w := write_object objStart (rsize rq) (rinit rq) w in
    Ok (objStart, installFooter (fn_releaser (rsize rq)) padding w)
  else
    r <- allocObject fuel (rsize rq) (ralign rq) w ;;
    let '(objStart, w) := r in
    let w := set_cursor (objStart + rsize rq) w in
    Ok (objStart, write_object objStart (rsize rq) (rinit rq) w).

(** A sequence of allocations; the addresses are returned in order. *)
Fixpoint allocate_all (fuel : nat) (rqs : list request) (w : world)
  : result (list Z * world) :=
  match rqs with
  | [] => Ok ([], w)
  | rq :: rqs' =>
    r <- allocate fuel rq w ;;
    let '(p, w1) := r in
    r' <- allocate_all fuel rqs' w1 ;;
    let '(ps, w2) := r' in
    Ok (p :: ps, w2)
  end.

End WithAllocator.

End Arena.

(** ** Growth policy, in unbounded arithmetic *)

Module Growth.
Import Arena.

Definition round_up (x k : Z) : Z := (x + (k - 1)) / k * k.

Definition uint32 (z : Z) : Prop := 0 <= z <= maxSize.

(** The sizes [ensureSpace] computes, without wrap-around. *)
Definition objSizeAndOverhead (size alignment : Z) : Z :=
  size + overhead + wrap32 (alignment - 1).

Definition allocationSize (size alignment : Z) (a : SkArenaAlloc) : Z :=
  Z.max (objSizeAndOverhead size alignment) (fNextHeapAlloc a).

Definition block_size (size alignment : Z) (a : SkArenaAlloc) : Z :=
  let s := allocationSize size alignment a in
  round_up s (if s >? 32768 then 4096 else 16).

(** The world [ensureSpace] leaves once [new char[n]] has returned [p]. *)
Definition grown (p n : Z) (w : world) : world :=
  let a := advance (arena w) in
  installFooter fn_NextBlock 0
    (installRaw 8 (fDtorCursor (arena w))
       (mkWorld (wmem w) (HNew p n :: wheap w)
                (mkArena p p (p + n) (fNextHeapAlloc a) (fYetNextHeapAlloc a)))).

(** [ensureSpace] in closed form: it aborts exactly when a size leaves
    the 32-bit range, and otherwise asks the system for [block_size]. *)
Definition sizes_fit (size alignment : Z) (a : SkArenaAlloc) : bool :=
  let s := allocationSize size alignment a in
  (size + overhead <=? maxSize) && (objSizeAndOverhead size alignment <=? maxSize)
  && (s + round_mask s <=? maxSize).

(** The minimum sizes of the first [k] blocks an arena with counters as in
    [a] will create: the values [fNextHeapAlloc] takes. *)
Fixpoint min_sizes (k : nat) (a : SkArenaAlloc) : list Z :=
  match k with
  | O => []
  | S k' => fNextHeapAlloc a :: min_sizes k' (advance a)
  end.

Fixpoint nondecreasing (l : list Z) : Prop :=
  match l with
  | a :: (b :: _) as t => a <= b /\ nondecreasing t
  | _ => True
  end.

(** A property of the heap history and the two counters, on a world. *)
Definition holds_on (Q : history -> Z -> Z -> Prop) (w : world) : Prop :=
  Q (wheap w) (fNextHeapAlloc (arena w)) (fYetNextHeapAlloc (arena w)).

(** What the constructor establishes for the two counters. *)
Definition counters_ok (a : SkArenaAlloc) : Prop :=
  1 <= fNextHeapAlloc a <= maxSize /\ 1 <= fYetNextHeapAlloc a <= maxSize /\
  (fNextHeapAlloc a <= fYetNextHeapAlloc a \/ fNextHeapAlloc a = maxSize).

(** The heap blocks created since [h0] respect the minimum sizes that
    start at [a0]. *)
Definition growth_inv (a0 : SkArenaAlloc) (h0 : history) (w : world) : Prop :=
  exists blks,
    wheap w = rev (map (fun b => HNew (fst b) (snd b)) blks) ++ h0 /\
    Forall2 (fun b mn => mn <= snd b <= maxSize) blks (min_sizes (length blks) a0) /\
    fNextHeapAlloc (arena w) = fNextHeapAlloc (Nat.iter (length blks) advance a0) /\
    fYetNextHeapAlloc (arena w) = fYetNextHeapAlloc (Nat.iter (length blks) advance a0).

(** Fibonacci numbers: [fib 0 = 0], [fib 1 = 1], [fib 2 = 1]. *)
Fixpoint fib_pair (n : nat) : Z * Z :=
  match n with
  | O => (0, 1)
  | S k => let '(a, b) := fib_pair k in (b, a + b)
  end.

Definition fib (n : nat) : Z := fst (fib_pair n).

(** The counters after [k] growths are bounded from below by Fibonacci
    numbers, unless the first has reached the greatest size. *)
Definition counters_above (k : nat) (a : SkArenaAlloc) : Prop :=
  uint32 (fNextHeapAlloc a) /\ uint32 (fYetNextHeapAlloc a) /\
  (fNextHeapAlloc a = maxSize \/
   fib (S k) <= fNextHeapAlloc a /\ fib (S (S k)) <= fYetNextHeapAlloc a).

(** [grows_to sys_new k w w']: [k] calls of [ensureSpace] that returned
    lead from [w] to [w'].  Between two calls the arena may do anything
    that leaves the two counters alone; in the source only the constructor
    and [ensureSpace] assign them. *)
Inductive grows_to (sys_new : history -> Z -> option Z) : nat -> world -> world -> Prop :=
| grows_to_O w : grows_to sys_new O w w
| grows_to_S k w w1 w2 w3 size alignment :
    grows_to sys_new k w w1 ->
    fNextHeapAlloc (arena w2) = fNextHeapAlloc (arena w1) ->
    fYetNextHeapAlloc (arena w2) = fYetNextHeapAlloc (arena w1) ->
    ensureSpace sys_new size alignment w2 = Ok w3 ->
    grows_to sys_new (S k) w w3.

(** The three cursors are null, or point into one block in order, below
    the top of the address space. *)
Definition cursors_ok (a : SkArenaAlloc) : Prop :=
  0 <= fDtorCursor a <= fCursor a /\ fCursor a <= fEnd a <= addr_limit.

End Growth.

(** ** The footer chain, as a relation

    [walks m p fp tr]: the chain that starts at footer end [p] in memory
    [m] is made of the footers whose byte ranges are listed in [fp], and
    running it produces [tr]. *)

Module Chain.
Import Arena.

Inductive walks (m : mem) : Z -> list (Z * Z) -> list event -> Prop :=
| walks_null : walks m 0 [] []
| walks_end_chain p :
    p <> 0 ->
    load_le 8 m (p - 9) = fn_end_chain ->
    load_le 1 m (p - 1) = 0 ->
    walks m p [(p - 9, p)] [EvEndChain p]
| walks_SkipPod p fp tr :
    p <> 0 ->
    load_le 8 m (p - 9) = fn_SkipPod ->
    walks m (SkipPod m p - load_le 1 m (p - 1)) fp tr ->
    walks m p ((p - 13, p) :: fp) tr
| walks_NextBlock p fp tr :
    p <> 0 ->
    load_le 8 m (p - 9) = fn_NextBlock ->
    load_le 1 m (p - 1) = 0 ->
    walks m (load_le 8 m (p - 17)) fp tr ->
    walks m p ((p - 17, p) :: fp) (tr ++ [EvDelete (p - 17)])
| walks_releaser p size fp tr :
    p <> 0 ->
    0 <= size ->
    load_le 8 m (p - 9) = fn_releaser size ->
    walks m (p - (size + 9) - load_le 1 m (p - 1)) fp tr ->
    walks m p ((p - 9, p) :: fp) (EvDtor (p - (size + 9)) size :: tr).

Definition agree_ranges (fp : list (Z * Z)) (m m' : mem) : Prop :=
  Forall (fun r => agree_on (fst r) (snd r) m m') fp.

Definition dtor_events (objs : list (Z * Z)) : list event :=
  map (fun o => EvDtor (fst o) (snd o)) objs.

Definition delete_events (blks : list (Z * Z)) : list event :=
  map (fun b => EvDelete (fst b)) blks.


Definition is_delete (e : event) : bool :=
  match e with EvDelete _ => true | _ => false end.


End Chain.

(** ** The arena invariant

    The ghost state records what the arena has handed out: the caller's
    first block when the arena uses it, the objects with a destructor
    (newest first) and the heap blocks created by growth (oldest first). *)

Module Inv.
Import Arena Chain Growth.

Record ghost : Type := mkGhost {
  g_first : option (Z * Z);
  g_objs : list (Z * Z);
  g_blks : list (Z * Z)
}.

Definition sentinel (g : ghost) : list event :=
  match g_first g with
  | Some r => [EvEndChain (fst r + 9)]
  | None => []
  end.

(** The trace a teardown is expected to produce. *)
Definition expected (g : ghost) : list event :=
  dtor_events (g_objs g) ++ sentinel g ++ delete_events (g_blks g).

Definition owned (g : ghost) : list (Z * Z) :=
  match g_first g with
  | Some r => [r]
  | None => []
  end ++ g_blks g.

Definition add_obj (o : Z * Z) (g : ghost) : ghost :=
  mkGhost (g_first g) (o :: g_objs g) (g_blks g).

Definition add_blk (b : Z * Z) (g : ghost) : ghost :=
  mkGhost (g_first g) (g_objs g) (g_blks g ++ [b]).

(** A byte range [r = (lo, hi)] lies inside the block [b = (start, size)]. *)
Definition inside (r b : Z * Z) : Prop :=
  fst b <= fst r /\ snd r <= fst b + snd b.

Definition outside (lo hi : Z) (r : Z * Z) : Prop :=
  snd r <= lo \/ hi <= fst r.

(** A footer is protected when it lies in a block of the arena and not in
    the part of the active block that is still to be written. *)
Definition protected (g : ghost) (a : SkArenaAlloc) (r : Z * Z) : Prop :=
  Exists (inside r) (owned g) /\ outside (fDtorCursor a) (fEnd a) r.

Definition news (blks : list (Z * Z)) : history :=
  rev (map (fun b => HNew (fst b) (snd b)) blks).

Definition good_block (b : Z * Z) : Prop :=
  0 < fst b /\ 0 < snd b /\ fst b + snd b <= addr_limit.

Definition shape (g : ghost) (a : SkArenaAlloc) : Prop :=
  (fCursor a = 0 /\ fDtorCursor a = 0 /\ fEnd a = 0) \/
  (exists b, In b (owned g) /\
             fst b <= fDtorCursor a <= fCursor a /\
             fCursor a <= fEnd a <= fst b + snd b).

Definition first_ok (h0 : history) (w : world) (g : ghost) : Prop :=
  match g_first g with
  | Some r =>
    In r (live h0) /\
    load_le 8 (wmem w) (fst r) = fn_end_chain /\
    load_le 1 (wmem w) (fst r + 8) = 0 /\
    protected g (arena w) (fst r, fst r + 9)
  | None => True
  end.

Definition fresh_blocks (h0 : history) (blks : list (Z * Z)) : Prop :=
  Forall (fun b => Forall (fun r => disjoint (fst b) (snd b) (fst r) (snd r)) (live h0)) blks.

Record inv (h0 : history) (w : world) (g : ghost) : Prop := mkInv {
  inv_heap : wheap w = news (g_blks g) ++ h0;
  inv_next : uint32 (fNextHeapAlloc (arena w));
  inv_yet : uint32 (fYetNextHeapAlloc (arena w));
  inv_shape : shape g (arena w);
  inv_owned : Forall good_block (owned g);
  inv_first : first_ok h0 w g;
  inv_fresh : fresh_blocks h0 (g_blks g);
  inv_nodup : NoDup (map fst (g_blks g));
  inv_chain : exists fp,
      walks (wmem w) (fDtorCursor (arena w)) fp (expected g) /\
      Forall (protected g (arena w)) fp
}.

(** The ghost state of a freshly constructed arena. *)
Definition ghost0 (block size : Z) : ghost :=
  mkGhost (if size <? sizeof_Footer then None else Some (block, size)) [] [].

(** What the constructor expects of the caller's block: its size fits the
    32-bit size type (the assertion of [ToU32]) and, when the arena is going
    to use it, it is a real block that the system heap knows as live, so
    that no block from [new char[n]] overlaps it. *)
Definition caller_block_ok (h0 : history) (block size : Z) : Prop :=
  uint32 size /\
  (sizeof_Footer <= size ->
   0 < block /\ block + size <= addr_limit /\ In (block, size) (live h0)).

(** [g'] extends [g] by heap blocks only. *)
Definition grows (g g' : ghost) : Prop :=
  g_first g' = g_first g /\ g_objs g' = g_objs g /\
  exists l, g_blks g' = g_blks g ++ l.

(** Requests the allocation interface is meant for: the padding in front
    of an object must fit the footer's byte, and the size with its
    footers must fit the 32-bit size type. *)
Definition wf_request (rq : request) : Prop :=
  1 <= ralign rq <= 256 /\ 0 <= rsize rq <= maxSize - 22.

(** The ghost state after [rq] was served at address [p]. *)
Definition note (rq : request) (p : Z) (g : ghost) : ghost :=
  if rdtor rq then add_obj (p, rsize rq) g else g.

Definition skip_overhead (a : SkArenaAlloc) : Z :=
  if negb (fCursor a =? fDtorCursor a) then sizeof_Footer + sizeof_u32 else 0.

(** The objects with a destructor among the allocations [ps] of [rqs]. *)
Fixpoint dtor_objs (ps : list Z) (rqs : list request) : list (Z * Z) :=
  match ps, rqs with
  | p :: ps', rq :: rqs' =>
    (if rdtor rq then [(p, rsize rq)] else []) ++ dtor_objs ps' rqs'
  | _, _ => []
  end.

(** Every run of trivially destructible allocations that is followed by
    an allocation with a destructor takes less than 2 GiB, alignment
    included; [acc] bounds what the current run has taken so far. *)
Fixpoint short_runs (acc : Z) (rqs : list request) : Prop :=
  match rqs with
  | [] => True
  | rq :: rqs' =>
    if rdtor rq then acc < 2147483648 /\ short_runs 0 rqs'
    else short_runs (acc + rsize rq + ralign rq) rqs'
  end.

(** The aligned address in a block that [ensureSpace] has just created. *)
Definition first_fit (p al : Z) : Z :=
  Z.land (wrap64 (p + 17 + (al - 1))) (not64 (al - 1)).

(** Memory is only ever written inside the blocks of the arena. *)
Definition writes_inside (g : ghost) (m m' : mem) : Prop :=
  forall x, (forall b, In b (owned g) -> ~ (fst b <= x < fst b + snd b)) -> m' x = m x.

End Inv.

(** ** Sample arenas *)

Module Examples.
Import Arena.

Definition m0 : mem := fun _ => 0.

(** A caller-supplied block of 64 bytes at address 4096. *)
Definition h64 : history := [HNew 4096 64].

Definition obj (size align : Z) : request := mkRequest size align true (fun _ => 255).
Definition pod (size align : Z) : request := mkRequest size align false (fun _ => 170).

(** Four objects with destructors; the last three do not fit the block
    that is active when they are requested. *)
Definition rqs4 : list request := [obj 24 8; obj 40 16; obj 100 4; obj 2000 8].

Definition ps4 : list Z :=
  match allocate_all bump_new 2 rqs4 (construct m0 h64 4096 64 0) with
  | Ok (ps, _) => ps
  | Err _ => []
  end.

Definition w4 : world :=
  match allocate_all bump_new 2 rqs4 (construct m0 h64 4096 64 0) with
  | Ok (_, w) => w
  | Err _ => construct m0 h64 4096 64 0
  end.

(** An arena without a first block, and the same after one growth. *)
Definition w_null : world := construct m0 [] 0 0 0.

Definition w_grown : world :=
  match ensureSpace bump_new 100 8 w_null with
  | Ok w => w
  | Err _ => w_null
  end.


(** The address an allocation returned. *)
Definition addr_of (r : result (Z * world)) : option Z :=
  match r with
  | Ok (p, _) => Some p
  | Err _ => None
  end.

(** A reset-capable arena without a first block: allocate, reset,
    allocate again. *)
Definition r_null : SkArenaAllocWithReset := construct_with_reset m0 [] 0 0 0.

Definition first_address : option Z :=
  addr_of (allocate bump_new 2 (obj 24 8) (base r_null)).

Definition address_after_reset : option Z :=
  match allocate bump_new 2 (obj 24 8) (base r_null) with
  | Ok (_, w1) =>
    match reset 3 (mkReset w1 (fFirstBlock r_null) (fFirstSize r_null)
                           (fFirstHeapAllocationSize r_null)) with
    | Some (_, r1) => addr_of (allocate bump_new 2 (obj 24 8) (base r1))
    | None => None
    end
  | Err _ => None
  end.

(** A run of 2 GiB of trivially destructible data, then one object, both
    in the first heap block. *)
Definition rqs_big : list request := [pod 2147483648 1; obj 8 1].

Definition ps_big : list Z :=
  match allocate_all bump_new 2 rqs_big w_null with
  | Ok (ps, _) => ps
  | Err _ => []
  end.

Definition w_big : world :=
  match allocate_all bump_new 2 rqs_big w_null with
  | Ok (_, w) => w
  | Err _ => w_null
  end.

(** A large object, then a smaller one that the first heap block cannot
    hold: the heap blocks the arena has created, newest first. *)
Definition rqs_shrink : list request := [obj 100000 1; obj 5000 1].

Definition heap_shrink : history :=
  match allocate_all bump_new 2 rqs_shrink w_null with
  | Ok (_, w) => wheap w
  | Err _ => []
  end.

(** The arena on the caller's block of 64 bytes, and an arena whose
    growth hint is the greatest 32-bit size. *)
Definition w_first : world := construct m0 h64 4096 64 0.

Definition w_sat : world := construct m0 [] 0 0 4294967295.

(** The arena on the caller's block after one growth. *)
Definition w_first_grown : world :=
  match ensureSpace bump_new 100 8 w_first with
  | Ok w => w
  | Err _ => w_first
  end.

(** An object of 100 bytes with its footer, aligned to 8, requested from
    the arena on the caller's block: the address and the arena after. *)
Definition o_served : Z :=
  match allocObjectWithFooter bump_new 2 109 8 w_first with
  | Ok (o, _) => o
  | Err _ => 0
  end.

Definition w_served : world :=
  match allocObjectWithFooter bump_new 2 109 8 w_first with
  | Ok (_, w) => w
  | Err _ => w_first
  end.

(** [k] growths in a row, each for an empty request, of an arena whose
    first heap block is to hold one byte. *)
Fixpoint grow_times (k : nat) (w : world) : result world :=
  match k with
  | O => Ok w
  | S k' => w' <- grow_times k' w ;; ensureSpace bump_new 0 1 w'
  end.

Definition w_tiny : world := construct m0 [] 0 0 1.

(** The arena on the caller's block after two growths. *)
Definition w_first_twice : world :=
  match ensureSpace_all bump_new [(100, 8); (5000, 16)] w_first with
  | Ok w => w
  | Err _ => w_first
  end.




(** Objects and trivially destructible data, mixed. *)
Definition rqs_mixed : list request :=
  [obj 24 8; pod 3 1; pod 5 1; obj 24 8; obj 40 16; pod 3 1; obj 100 4; obj 2000 8].

Definition ps_mixed : list Z :=
  match allocate_all bump_new 2 rqs_mixed (construct m0 h64 4096 64 0) with
  | Ok (ps, _) => ps
  | Err _ => []
  end.

Definition w_mixed : world :=
  match allocate_all bump_new 2 rqs_mixed (construct m0 h64 4096 64 0) with
  | Ok (_, w) => w
  | Err _ => construct m0 h64 4096 64 0
  end.

End Examples.

(** * Properties *)

(** ** Bit masks *)

Module BitFacts.

Lemma ldiff_land_split (a b : Z) : Z.ldiff a b + Z.land a b = a.
Proof.
  rewrite <- (Z.add_lor_land (Z.ldiff a b) (Z.land a b)).
  rewrite Z.lor_ldiff_and.
  replace (Z.land (Z.ldiff a b) (Z.land a b)) with 0; [lia|].
  symmetry. apply Z.bits_inj'. intros n Hn.
  rewrite !Z.land_spec, Z.ldiff_spec, Z.bits_0.
  destruct (Z.testbit a n), (Z.testbit b n); reflexivity.
Qed.

Lemma land_bound (a b : Z) : 0 <= a -> 0 <= b -> 0 <= Z.land a b <= b.
Proof.
  intros Ha Hb. split.
  - apply Z.land_nonneg. now left.
  - pose proof (ldiff_land_split b a) as H.
    assert (0 <= Z.ldiff b a) by (apply Z.ldiff_nonneg; now left).
    rewrite (Z.land_comm a b). lia.
Qed.

Lemma ldiff_bound (a b : Z) :
  0 <= a -> 0 <= b -> 0 <= Z.ldiff a b /\ a - b <= Z.ldiff a b <= a.
Proof.
  intros Ha Hb. pose proof (ldiff_land_split a b). pose proof (land_bound a b Ha Hb).
  assert (0 <= Z.ldiff a b) by (apply Z.ldiff_nonneg; now left). lia.
Qed.

Lemma land_not_ones (w y mask : Z) :
  0 <= w -> 0 <= y < 2 ^ w -> 0 <= mask ->
  Z.land y (Z.land (Z.lnot mask) (Z.ones w)) = Z.ldiff y mask.
Proof.
  intros Hw Hy Hm.
  rewrite Z.land_assoc, <- Z.ldiff_land, Z.land_ones by assumption.
  pose proof (ldiff_bound y mask (proj1 Hy) Hm). apply Z.mod_small. lia.
Qed.

(** Clearing the low [k] bits rounds down to a multiple of [2^k]. *)
Lemma land_not32_ones (y k : Z) :
  0 <= k -> 0 <= y <= maxSize ->
  Z.land y (not32 (Z.ones k)) = y / 2 ^ k * 2 ^ k.
Proof.
  intros Hk Hy. unfold not32.
  rewrite land_not_ones; try lia.
  - rewrite Z.ldiff_ones_r, Z.shiftl_mul_pow2, Z.shiftr_div_pow2 by assumption.
    reflexivity.
  - unfold maxSize in Hy. change (2 ^ 32) with 4294967296. lia.
  - rewrite Z.ones_equiv. pose proof (Z.pow_pos_nonneg 2 k). lia.
Qed.

(** The aligned address computed by the allocation paths. *)
Lemma align_up_bound (c mask : Z) :
  0 <= c -> 0 <= mask -> c + mask < 2 ^ 64 ->
  c <= Z.land (wrap64 (c + mask)) (not64 mask) <= c + mask.
Proof.
  intros Hc Hm Hlt. unfold wrap64, not64.
  change 18446744073709551616 with (2 ^ 64).
  rewrite Z.mod_small by lia.
  rewrite land_not_ones by lia.
  pose proof (ldiff_bound (c + mask) mask). lia.
Qed.

End BitFacts.

(** ** Loads and stores *)

Module MemFacts.

Lemma store_le_other (n : nat) (m : mem) (a v x : Z) :
  x < a \/ a + Z.of_nat n <= x -> store_le n m a v x = m x.
Proof.
  revert m a v. induction n as [|k IH]; intros m a v Hx; simpl; [reflexivity|].
  rewrite IH by lia. unfold store1.
  destruct (Z.eqb_spec x a); [lia | reflexivity].
Qed.

Lemma load_le_agree (n : nat) (m m' : mem) (a : Z) :
  agree_on a (a + Z.of_nat n) m m' -> load_le n m a = load_le n m' a.
Proof.
  revert a. induction n as [|k IH]; intros a H; simpl; [reflexivity|].
  rewrite (H a) by lia. rewrite (IH (a + 1)); [reflexivity|].
  intros x Hx. apply H. lia.
Qed.

Lemma load_store_le (n : nat) (m : mem) (a v : Z) :
  load_le n (store_le n m a v) a = v mod 256 ^ Z.of_nat n.
Proof.
  revert m a v. induction n as [|k IH]; intros m a v.
  - simpl. now rewrite Z.mod_1_r.
  - cbn [load_le store_le]. rewrite IH.
    rewrite store_le_other by lia. unfold store1. rewrite Z.eqb_refl.
    rewrite Z.mod_mod by lia.
    rewrite Nat2Z.inj_succ, Z.pow_succ_r by lia.
    rewrite Z.rem_mul_r by (try apply Z.pow_nonzero; lia). reflexivity.
Qed.

Lemma load_store_le_small (n : nat) (m : mem) (a v : Z) :
  0 <= v < 256 ^ Z.of_nat n -> load_le n (store_le n m a v) a = v.
Proof. intros H. rewrite load_store_le. now apply Z.mod_small. Qed.

Lemma load_store_le_other (n k : nat) (m : mem) (a b v : Z) :
  b + Z.of_nat k <= a \/ a + Z.of_nat n <= b ->
  load_le k (store_le n m a v) b = load_le k m b.
Proof.
  intros H. apply load_le_agree. intros x Hx. apply store_le_other. lia.
Qed.

End MemFacts.

(** ** Growth policy *)

Module GrowthFacts.
Import Arena BitFacts Growth.

Ltac consts :=
  unfold overhead, headerSize, sizeof_Footer, sizeof_ptr, sizeof_u32, maxSize in *.

Lemma advance_dtor (a : SkArenaAlloc) : fDtorCursor (advance a) = fDtorCursor a.
Proof. unfold advance. now destruct (_ <=? _). Qed.

Lemma round_mask_cases (s : Z) :
  (round_mask s = 4095 /\ 32768 < s) \/ (round_mask s = 15 /\ s <= 32768).
Proof. unfold round_mask. destruct (Z.gtb_spec s 32768); [left | right]; lia. Qed.

Lemma rounded_size (s : Z) :
  0 <= s -> s + round_mask s <= maxSize ->
  Z.land (wrap32 (s + round_mask s)) (not32 (round_mask s))
  = round_up s (if s >? 32768 then 4096 else 16).
Proof.
  intros Hs Hle. unfold wrap32, round_up.
  rewrite Z.mod_small by (unfold maxSize in Hle; destruct (round_mask_cases s); lia).
  unfold round_mask in *. destruct (s >? 32768).
  - change (4096 - 1) with (Z.ones 12).
    rewrite land_not32_ones; [reflexivity | lia | change (Z.ones 12) with 4095; lia].
  - change (16 - 1) with (Z.ones 4).
    rewrite land_not32_ones; [reflexivity | lia | change (Z.ones 4) with 15; lia].
Qed.

Lemma wrap32_small (z : Z) : uint32 z -> wrap32 z = z.
Proof. unfold uint32, wrap32, maxSize. intros H. apply Z.mod_small. lia. Qed.

Lemma wrap32_range (z : Z) : uint32 (wrap32 z).
Proof.
  unfold uint32, wrap32, maxSize.
  pose proof (Z.mod_pos_bound z 4294967296). lia.
Qed.

Lemma grown_heap (p n : Z) (w : world) : wheap (grown p n w) = HNew p n :: wheap w.
Proof. reflexivity. Qed.

Lemma grown_arena (p n : Z) (w : world) :
  arena (grown p n w) =
  mkArena (p + 17) (p + 17) (p + n)
          (fNextHeapAlloc (advance (arena w))) (fYetNextHeapAlloc (advance (arena w))).
Proof. unfold grown, installFooter, installRaw, set_dtor. cbn. f_equal; lia. Qed.

Lemma advance_counters (a : SkArenaAlloc) :
  uint32 (fNextHeapAlloc a) -> uint32 (fYetNextHeapAlloc a) ->
  (fYetNextHeapAlloc a <= maxSize - fNextHeapAlloc a ->
     fNextHeapAlloc (advance a) = fYetNextHeapAlloc a /\
     fYetNextHeapAlloc (advance a) = fNextHeapAlloc a + fYetNextHeapAlloc a) /\
  (maxSize - fNextHeapAlloc a < fYetNextHeapAlloc a ->
     fNextHeapAlloc (advance a) = maxSize /\
     fYetNextHeapAlloc (advance a) = fYetNextHeapAlloc a).
Proof.
  intros Hn Hy. unfold advance.
  destruct (Z.leb_spec (fYetNextHeapAlloc a) (maxSize - fNextHeapAlloc a)) as [H|H];
    cbn [fNextHeapAlloc fYetNextHeapAlloc]; split; intros H'; try lia.
  split; [reflexivity|]. apply wrap32_small. unfold uint32 in *. lia.
Qed.

Lemma round_up_fits (s : Z) :
  0 <= s ->
  (s + round_mask s <= maxSize <->
   round_up s (if s >? 32768 then 4096 else 16) <= maxSize).
Proof.
  intros Hs. unfold round_up, round_mask, maxSize.
  destruct (s >? 32768); Z.to_euclidean_division_equations; lia.
Qed.

Lemma round_up_ge (s : Z) : s <= round_up s (if s >? 32768 then 4096 else 16).
Proof.
  unfold round_up. destruct (s >? 32768); Z.to_euclidean_division_equations; lia.
Qed.

Lemma sizes_fit_true (size alignment : Z) (a : SkArenaAlloc) :
  uint32 size -> uint32 (fNextHeapAlloc a) ->
  sizes_fit size alignment a = true <->
  size + overhead <= maxSize /\ objSizeAndOverhead size alignment <= maxSize /\
  block_size size alignment a <= maxSize.
Proof.
  intros Hs Hn. unfold sizes_fit, block_size.
  rewrite !andb_true_iff, !Z.leb_le.
  rewrite round_up_fits; [tauto|].
  unfold allocationSize, uint32 in *. lia.
Qed.

Section WithAllocator.

Variable sys_new : history -> Z -> option Z.

Lemma ensureSpace_eq (size alignment : Z) (w : world) :
  uint32 size -> uint32 (fNextHeapAlloc (arena w)) ->
  ensureSpace sys_new size alignment w =
  if sizes_fit size alignment (arena w) then
    match sys_new (wheap w) (block_size size alignment (arena w)) with
    | Some p => Ok (grown p (block_size size alignment (arena w)) w)
    | None => Err BadAlloc
    end
  else Err AssertFail.
Proof.
  intros Hsz Hnext. unfold ensureSpace, sizes_fit.
  pose proof (wrap32_range (alignment - 1)) as Ha.
  destruct (Z.leb_spec size (maxSize - overhead)) as [H1|H1]; cbn [AssertRelease bind].
  2:{ destruct (Z.leb_spec (size + overhead) maxSize); [lia | reflexivity]. }
  assert (E1 : wrap32 (size + overhead) = size + overhead).
  { apply wrap32_small. unfold uint32 in *. consts. lia. }
  rewrite E1.
  destruct (Z.leb_spec (size + overhead) maxSize) as [H1'|H1']; [|lia].
  unfold objSizeAndOverhead at 1.
  destruct (Z.leb_spec (size + overhead) (maxSize - wrap32 (alignment - 1))) as [H2|H2];
    cbn [AssertRelease bind andb].
  2:{ destruct (Z.leb_spec (size + overhead + wrap32 (alignment - 1)) maxSize);
      [lia | reflexivity]. }
  destruct (Z.leb_spec (size + overhead + wrap32 (alignment - 1)) maxSize) as [H2'|H2'];
    [|lia].
  assert (E2 : wrap32 (size + overhead + wrap32 (alignment - 1))
               = objSizeAndOverhead size alignment).
  { apply wrap32_small. unfold objSizeAndOverhead, uint32 in *. consts. lia. }
  rewrite E2. cbn [andb].
  change (Z.max (objSizeAndOverhead size alignment) (fNextHeapAlloc (arena w)))
    with (allocationSize size alignment (arena w)).
  set (s := allocationSize size alignment (arena w)).
  destruct (Z.leb_spec s (maxSize - round_mask s)) as [H3|H3]; cbn [AssertRelease bind].
  2:{ destruct (Z.leb_spec (s + round_mask s) maxSize); [lia | reflexivity]. }
  destruct (Z.leb_spec (s + round_mask s) maxSize) as [H3'|H3']; [|lia].
  assert (Hs0 : 0 <= s).
  { unfold s, allocationSize, uint32 in *. lia. }
  rewrite rounded_size by lia.
  change (round_up s (if s >? 32768 then 4096 else 16))
    with (block_size size alignment (arena w)).
  unfold new_block. cbn [wheap].
  destruct (sys_new (wheap w) (block_size size alignment (arena w))) as [p|];
    [|reflexivity].
  cbn [bind wmem wheap arena]. unfold grown. now rewrite advance_dtor.
Qed.

Lemma ensureSpace_Ok (size alignment : Z) (w w' : world) :
  uint32 size -> uint32 (fNextHeapAlloc (arena w)) ->
  ensureSpace sys_new size alignment w = Ok w' ->
  sizes_fit size alignment (arena w) = true /\
  exists p, sys_new (wheap w) (block_size size alignment (arena w)) = Some p /\
            w' = grown p (block_size size alignment (arena w)) w.
Proof.
  intros Hsz Hnext. rewrite ensureSpace_eq by assumption.
  destruct (sizes_fit size alignment (arena w)); [|discriminate].
  destruct (sys_new _ _) as [p|]; [|discriminate].
  intros H. injection H as <-. split; [reflexivity|]. now exists p.
Qed.

(** C3: in [ensureSpace], a size computation whose result does not fit the
    32-bit size type (object size plus footer overhead, that plus the
    alignment overhead, or the rounded block size) aborts the process, and
    it is the only way the assertion fails; a call that returns has
    requested exactly the block size of unbounded arithmetic, which fits. *)
Theorem ensureSpace_overflow_is_fatal (size alignment : Z) (w : world) :
  uint32 size -> uint32 (fNextHeapAlloc (arena w)) ->
  ((maxSize < size + overhead \/
    maxSize < objSizeAndOverhead size alignment \/
    maxSize < block_size size alignment (arena w))
   <-> ensureSpace sys_new size alignment w = Err AssertFail) /\
  (forall w', ensureSpace sys_new size alignment w = Ok w' ->
     block_size size alignment (arena w) <= maxSize /\
     exists p, wheap w' = HNew p (block_size size alignment (arena w)) :: wheap w).
Proof.
  intros Hs Hn. rewrite ensureSpace_eq by assumption.
  pose proof (sizes_fit_true size alignment (arena w) Hs Hn) as Hfit.
  destruct (sizes_fit size alignment (arena w)).
  - assert (Hall : size + overhead <= maxSize /\
                   objSizeAndOverhead size alignment <= maxSize /\
                   block_size size alignment (arena w) <= maxSize) by now apply Hfit.
    split.
    + split; [lia|]. destruct (sys_new _ _); discriminate.
    + intros w' H. split; [lia|].
      destruct (sys_new _ _) as [p|]; [|discriminate].
      injection H as <-. now exists p.
  - split; [|discriminate]. split; [reflexivity|]. intros _.
    destruct (Z.le_gt_cases (size + overhead) maxSize); [|lia].
    destruct (Z.le_gt_cases (objSizeAndOverhead size alignment) maxSize); [|lia].
    destruct (Z.le_gt_cases (block_size size alignment (arena w)) maxSize); [|lia].
    assert (false = true) by (apply Hfit; tauto). discriminate.
Qed.

(** C4: a call of [ensureSpace] that returns has taken the old
    [fNextHeapAlloc] as the least size of the new block, and has advanced
    the pair of counters to [(yet, next + yet)] when the sum fits the
    32-bit size type, and has set [fNextHeapAlloc] to the maximum, leaving
    the other counter, when it does not. *)
Theorem ensureSpace_fibonacci (size alignment : Z) (w w' : world) :
  uint32 size -> uint32 (fNextHeapAlloc (arena w)) ->
  uint32 (fYetNextHeapAlloc (arena w)) ->
  ensureSpace sys_new size alignment w = Ok w' ->
  let next := fNextHeapAlloc (arena w) in
  let yet := fYetNextHeapAlloc (arena w) in
  (exists p n, wheap w' = HNew p n :: wheap w /\
     n = round_up (Z.max (objSizeAndOverhead size alignment) next)
                  (if Z.max (objSizeAndOverhead size alignment) next >? 32768
                   then 4096 else 16) /\
     next <= n) /\
  (next + yet <= maxSize ->
     fNextHeapAlloc (arena w') = yet /\ fYetNextHeapAlloc (arena w') = next + yet) /\
  (maxSize < next + yet ->
     fNextHeapAlloc (arena w') = maxSize /\ fYetNextHeapAlloc (arena w') = yet).
Proof.
  intros Hs Hn Hy H. destruct (ensureSpace_Ok _ _ _ _ Hs Hn H) as (_ & p & _ & ->).
  cbv zeta. rewrite grown_heap, grown_arena. cbn [fNextHeapAlloc fYetNextHeapAlloc].
  destruct (advance_counters (arena w) Hn Hy) as [A B].
  split; [|split].
  - exists p, (block_size size alignment (arena w)). split; [reflexivity|].
    split; [reflexivity|]. unfold block_size, allocationSize.
    pose proof (round_up_ge
      (Z.max (objSizeAndOverhead size alignment) (fNextHeapAlloc (arena w)))). lia.
  - intros Hle. apply A. lia.
  - intros Hgt. apply B. lia.
Qed.

(** C5: a call of [ensureSpace] that returns has created a block whose
    size is the greater of the overhead-inclusive object size and the
    minimum allocation size, rounded up to a multiple of 4096 when that
    exceeds 32768 and to a multiple of 16 otherwise. *)
Theorem ensureSpace_block_size (size alignment : Z) (w w' : world) :
  uint32 size -> uint32 alignment -> uint32 (fNextHeapAlloc (arena w)) ->
  ensureSpace sys_new size alignment w = Ok w' ->
  let objSizeAndOverhead := size + overhead + (alignment - 1) in
  let minAllocationSize := fNextHeapAlloc (arena w) in
  let s := Z.max objSizeAndOverhead minAllocationSize in
  exists newBlock,
    wheap w' = HNew newBlock (round_up s (if s >? 32768 then 4096 else 16)) :: wheap w /\
    fEnd (arena w') - newBlock = round_up s (if s >? 32768 then 4096 else 16).
Proof.
  intros Hs Ha Hn H. destruct (ensureSpace_Ok _ _ _ _ Hs Hn H) as (Hfit & p & _ & ->).
  apply sizes_fit_true in Hfit; [|assumption|assumption].
  destruct Hfit as (_ & Hobj & _). unfold Growth.objSizeAndOverhead in Hobj.
  assert (E : wrap32 (alignment - 1) = alignment - 1).
  { destruct (Z.eq_dec alignment 0) as [->|Hnz].
    - exfalso. change (wrap32 (0 - 1)) with maxSize in Hobj.
      unfold uint32 in *. consts. lia.
    - apply wrap32_small. unfold uint32 in *. lia. }
  cbv zeta. exists p. rewrite grown_heap, grown_arena. cbn [fEnd].
  unfold block_size, allocationSize, Growth.objSizeAndOverhead. rewrite E.
  split; [reflexivity | lia].
Qed.

End WithAllocator.

End GrowthFacts.

(** ** The footer chain *)

Module ChainFacts.
Import Arena Chain MemFacts.

Lemma RunDtorsOnBlock_null (fuel : nat) (m : mem) :
  (0 < fuel)%nat -> RunDtorsOnBlock fuel m 0 = Some [].
Proof. destruct fuel; [lia | reflexivity]. Qed.

(** A chain described by [walks] is what [RunDtorsOnBlock] runs, with
    fuel for one step more than it has footers. *)
Lemma walks_run (m : mem) (p : Z) (fp : list (Z * Z)) (tr : list event) :
  walks m p fp tr ->
  forall fuel, (length fp < fuel)%nat -> RunDtorsOnBlock fuel m p = Some tr.
Proof.
  induction 1 as [ | p Hp Ha Hpad | p fp tr Hp Ha Hw IH | p fp tr Hp Ha Hpad Hw IH
                   | p size fp tr Hp Hsz Ha Hw IH ];
    intros fuel Hfuel; cbn [length] in Hfuel.
  - apply RunDtorsOnBlock_null. lia.
  - destruct fuel as [|fuel]; [lia|]. cbn [RunDtorsOnBlock].
    destruct (Z.eqb_spec p 0); [contradiction|].
    change sizeof_Footer with 9. rewrite Ha, Hpad. cbn [call Z.eqb fn_end_chain].
    unfold call. rewrite Z.eqb_refl. cbn [end_chain].
    change (0 - 0) with 0. rewrite RunDtorsOnBlock_null by lia. reflexivity.
  - destruct fuel as [|fuel]; [lia|]. cbn [RunDtorsOnBlock].
    destruct (Z.eqb_spec p 0); [contradiction|].
    change sizeof_Footer with 9. rewrite Ha. unfold call.
    change (fn_SkipPod =? fn_end_chain) with false.
    rewrite Z.eqb_refl. cbv iota. rewrite IH by lia. reflexivity.
  - destruct fuel as [|fuel]; [lia|]. cbn [RunDtorsOnBlock].
    destruct (Z.eqb_spec p 0); [contradiction|].
    change sizeof_Footer with 9. rewrite Ha, Hpad. unfold call.
    change (fn_NextBlock =? fn_end_chain) with false.
    change (fn_NextBlock =? fn_SkipPod) with false.
    rewrite Z.eqb_refl. cbv iota. unfold NextBlock.
    change (sizeof_ptr + sizeof_Footer) with 17.
    rewrite IH by lia. change (0 - 0) with 0.
    rewrite RunDtorsOnBlock_null by lia. now rewrite app_nil_r.
  - destruct fuel as [|fuel]; [lia|]. cbn [RunDtorsOnBlock].
    destruct (Z.eqb_spec p 0); [contradiction|].
    change sizeof_Footer with 9. rewrite Ha. unfold call, fn_releaser.
    destruct (Z.eqb_spec (4 + size) fn_end_chain) as [E|_]; [unfold fn_end_chain in E; lia|].
    destruct (Z.eqb_spec (4 + size) fn_SkipPod) as [E|_]; [unfold fn_SkipPod in E; lia|].
    destruct (Z.eqb_spec (4 + size) fn_NextBlock) as [E|_]; [unfold fn_NextBlock in E; lia|].
    destruct (Z.leb_spec 4 (4 + size)); [|lia].
    unfold releaser. change sizeof_Footer with 9.
    replace (4 + size - 4) with size by lia.
    rewrite IH by lia. reflexivity.
Qed.

Lemma SkipPod_agree (m m' : mem) (p : Z) :
  agree_on (p - 13) p m m' -> SkipPod m p = SkipPod m' p.
Proof.
  intros H. unfold SkipPod. change (sizeof_Footer + sizeof_u32) with 13.
  rewrite (load_le_agree 4 m m'); [reflexivity|].
  intros x Hx. apply H. lia.
Qed.

(** The chain only depends on the bytes of its footers. *)
Lemma walks_frame (m m' : mem) (p : Z) (fp : list (Z * Z)) (tr : list event) :
  walks m p fp tr -> agree_ranges fp m m' -> walks m' p fp tr.
Proof.
  unfold agree_ranges.
  induction 1 as [ | p Hp Ha Hpad | p fp tr Hp Ha Hw IH | p fp tr Hp Ha Hpad Hw IH
                   | p size fp tr Hp Hsz Ha Hw IH ];
    intros Hag.
  - constructor.
  - inversion Hag as [|r l Hr _]; subst. cbn [fst snd] in Hr.
    constructor; [assumption| |].
    + rewrite <- (load_le_agree 8 m m'); [assumption|]. intros x Hx. apply Hr. lia.
    + rewrite <- (load_le_agree 1 m m'); [assumption|]. intros x Hx. apply Hr. lia.
  - inversion Hag as [|r l Hr Hl]; subst. cbn [fst snd] in Hr.
    constructor; [assumption| |].
    + rewrite <- (load_le_agree 8 m m'); [assumption|]. intros x Hx. apply Hr. lia.
    + rewrite <- (SkipPod_agree m m') by assumption.
      rewrite <- (load_le_agree 1 m m'); [now apply IH|]. intros x Hx. apply Hr. lia.
  - inversion Hag as [|r l Hr Hl]; subst. cbn [fst snd] in Hr.
    constructor; [assumption| | |].
    + rewrite <- (load_le_agree 8 m m'); [assumption|]. intros x Hx. apply Hr. lia.
    + rewrite <- (load_le_agree 1 m m'); [assumption|]. intros x Hx. apply Hr. lia.
    + rewrite <- (load_le_agree 8 m m'); [now apply IH|]. intros x Hx. apply Hr. lia.
  - inversion Hag as [|r l Hr Hl]; subst. cbn [fst snd] in Hr.
    constructor; [assumption|assumption| |].
    + rewrite <- (load_le_agree 8 m m'); [assumption|]. intros x Hx. apply Hr. lia.
    + rewrite <- (load_le_agree 1 m m'); [now apply IH|]. intros x Hx. apply Hr. lia.
Qed.

End ChainFacts.

(** ** Writing footers *)

Module FooterFacts.
Import Arena MemFacts.

Ltac proj := cbn [wmem wheap arena fDtorCursor fCursor fEnd fNextHeapAlloc fYetNextHeapAlloc].

Lemma installRaw_mem (n : nat) (v : Z) (w : world) :
  wmem (installRaw n v w) = store_le n (wmem w) (fCursor (arena w)) v.
Proof. reflexivity. Qed.

Lemma installFooter_mem (action padding : Z) (w : world) :
  wmem (installFooter action padding w) =
  store_le 1 (store_le 8 (wmem w) (fCursor (arena w)) action)
           (fCursor (arena w) + 8) padding.
Proof. reflexivity. Qed.

Lemma installFooter_heap (action padding : Z) (w : world) :
  wheap (installFooter action padding w) = wheap w.
Proof. reflexivity. Qed.

Lemma installFooter_arena (action padding : Z) (w : world) :
  arena (installFooter action padding w) =
  mkArena (fCursor (arena w) + 9) (fCursor (arena w) + 9) (fEnd (arena w))
          (fNextHeapAlloc (arena w)) (fYetNextHeapAlloc (arena w)).
Proof.
  unfold installFooter, installRaw, set_dtor. proj.
  change (Z.of_nat 8) with 8. change (Z.of_nat 1) with 1. f_equal; lia.
Qed.

Lemma installFooter_other (action padding : Z) (w : world) (x : Z) :
  x < fCursor (arena w) \/ fCursor (arena w) + 9 <= x ->
  wmem (installFooter action padding w) x = wmem w x.
Proof.
  intros H. rewrite installFooter_mem.
  rewrite store_le_other by (change (Z.of_nat 1) with 1; lia).
  apply store_le_other. change (Z.of_nat 8) with 8. lia.
Qed.

Lemma installFooter_action (action padding : Z) (w : world) :
  0 <= action < 2 ^ 64 ->
  load_le 8 (wmem (installFooter action padding w)) (fCursor (arena w)) = action.
Proof.
  intros H. rewrite installFooter_mem.
  rewrite load_store_le_other by (change (Z.of_nat 8) with 8; lia).
  apply load_store_le_small. exact H.
Qed.

Lemma installFooter_padding (action padding : Z) (w : world) :
  0 <= padding < 256 ->
  load_le 1 (wmem (installFooter action padding w)) (fCursor (arena w) + 8) = padding.
Proof.
  intros H. rewrite installFooter_mem.
  apply load_store_le_small. exact H.
Qed.

End FooterFacts.

(** ** The invariant holds after construction and is kept by growth *)

Module InvFacts.
Import Arena Chain Growth Inv MemFacts FooterFacts GrowthFacts.

Lemma live_news (blks : list (Z * Z)) (h0 : history) :
  live (news blks ++ h0) = rev blks ++ live h0.
Proof.
  unfold news. induction blks as [|b blks IH] using rev_ind; [reflexivity|].
  rewrite map_app, !rev_app_distr. cbn [map rev app live]. rewrite IH.
  now destruct b.
Qed.

Lemma news_snoc (blks : list (Z * Z)) (b : Z * Z) :
  news (blks ++ [b]) = HNew (fst b) (snd b) :: news blks.
Proof. unfold news. now rewrite map_app, rev_app_distr. Qed.

Lemma owned_add_obj (o : Z * Z) (g : ghost) : owned (add_obj o g) = owned g.
Proof. reflexivity. Qed.

Lemma owned_add_blk (b : Z * Z) (g : ghost) : owned (add_blk b g) = owned g ++ [b].
Proof. unfold owned, add_blk. cbn [g_first g_blks]. now rewrite app_assoc. Qed.

Lemma owned_live (h0 : history) (w : world) (g : ghost) :
  inv h0 w g -> Forall (fun b => In b (live (wheap w))) (owned g).
Proof.
  intros I. rewrite (inv_heap _ _ _ I), live_news. unfold owned.
  apply Forall_app. split.
  - pose proof (inv_first _ _ _ I) as F. unfold first_ok in F.
    destruct (g_first g) as [r|]; [|constructor].
    constructor; [|constructor]. apply in_or_app. right. tauto.
  - apply Forall_forall. intros b Hb. apply in_or_app. left. now apply in_rev in Hb.
Qed.

Lemma first_allocated_block_uint32 (size hint : Z) :
  uint32 (first_allocated_block (ToU32 size) (ToU32 hint)).
Proof.
  unfold first_allocated_block, ToU32.
  pose proof (wrap32_range size). pose proof (wrap32_range hint).
  destruct (_ >? 0); [assumption|]. destruct (_ >? 0); [assumption|].
  unfold uint32, maxSize. lia.
Qed.

Lemma expected_add_blk (b : Z * Z) (g : ghost) :
  expected (add_blk b g) = expected g ++ [EvDelete (fst b)].
Proof.
  unfold expected, add_blk, sentinel, delete_events. cbn [g_first g_objs g_blks].
  rewrite map_app. cbn [map]. now rewrite !app_assoc.
Qed.

Lemma expected_add_obj (o : Z * Z) (g : ghost) :
  expected (add_obj o g) = EvDtor (fst o) (snd o) :: expected g.
Proof. reflexivity. Qed.

Lemma protected_mono (g g' : ghost) (a a' : SkArenaAlloc) (r : Z * Z) :
  (forall b, In b (owned g) -> In b (owned g')) ->
  (outside (fDtorCursor a) (fEnd a) r -> Exists (inside r) (owned g) ->
   outside (fDtorCursor a') (fEnd a') r) ->
  protected g a r -> protected g' a' r.
Proof.
  intros Hsub Hout [Hin Ho]. split; [|now apply Hout].
  apply Exists_exists in Hin. destruct Hin as (b & Hb & Hi).
  apply Exists_exists. exists b. split; [now apply Hsub | assumption].
Qed.

(** Ranges outside a window are not touched by writes into the window. *)
Lemma agree_outside (lo hi : Z) (fp : list (Z * Z)) (m m' : mem) :
  Forall (outside lo hi) fp ->
  (forall x, x < lo \/ hi <= x -> m' x = m x) ->
  agree_ranges fp m m'.
Proof.
  intros Hfp Hm. unfold agree_ranges. eapply Forall_impl; [|exact Hfp].
  intros r [H|H] x Hx; symmetry; apply Hm; lia.
Qed.

Lemma installFooter_spec (action padding : Z) (w : world) (c : Z) :
  fCursor (arena w) = c -> 0 <= action < 2 ^ 64 -> 0 <= padding < 256 ->
  let w' := installFooter action padding w in
  arena w' = mkArena (c + 9) (c + 9) (fEnd (arena w))
                     (fNextHeapAlloc (arena w)) (fYetNextHeapAlloc (arena w)) /\
  wheap w' = wheap w /\
  load_le 8 (wmem w') c = action /\
  load_le 1 (wmem w') (c + 8) = padding /\
  (forall x, x < c \/ c + 9 <= x -> wmem w' x = wmem w x).
Proof.
  intros <- Ha Hp. cbv zeta.
  split; [apply installFooter_arena|]. split; [reflexivity|].
  split; [now apply installFooter_action|].
  split; [now apply installFooter_padding|].
  intros x Hx. now apply installFooter_other.
Qed.

Lemma construct_inv (m : mem) (h0 : history) (block size hint : Z) :
  caller_block_ok h0 block size ->
  inv h0 (construct m h0 block size hint) (ghost0 block size) /\
  writes_inside (ghost0 block size) m (wmem (construct m h0 block size hint)).
Proof.
  intros [Hsz Hblk]. unfold construct, ghost0.
  pose proof (first_allocated_block_uint32 size hint) as Hc.
  set (next := first_allocated_block (ToU32 size) (ToU32 hint)) in *.
  destruct (Z.ltb_spec size sizeof_Footer) as [Hlt|Hge].
  - cbn [fCursor Z.eqb]. split.
    + constructor; proj; cbn [g_first g_objs g_blks].
      * reflexivity.
      * assumption.
      * assumption.
      * left. auto.
      * constructor.
      * exact I.
      * constructor.
      * constructor.
      * exists []. split; constructor.
    + intros x _. reflexivity.
  - destruct (Hblk Hge) as (Hpos & Hlim & Hin). cbn [fCursor].
    destruct (Z.eqb_spec block 0) as [E|_]; [lia|].
    assert (Esz : ToU32 size = size) by (apply wrap32_small; assumption).
    rewrite Esz.
    unfold sizeof_Footer, sizeof_ptr in Hge.
    set (w0 := mkWorld m h0 (mkArena block block (block + size) next next)).
    destruct (installFooter_spec fn_end_chain 0 w0 block eq_refl)
      as (Ha & Hh & Hact & Hpad & Hoth); [unfold fn_end_chain; lia | lia |].
    set (w' := installFooter fn_end_chain 0 w0) in *.
    unfold w0 in Ha, Hh, Hoth. cbn [wmem wheap arena fEnd fNextHeapAlloc fYetNextHeapAlloc] in Ha, Hh, Hoth.
    assert (Hprot : protected (mkGhost (Some (block, size)) [] []) (arena w')
                              (block, block + 9)).
    { rewrite Ha. split.
      - unfold owned. cbn [g_first g_blks app]. constructor.
        unfold inside. cbn [fst snd]. lia.
      - left. cbn [fst snd fDtorCursor]. lia. }
    split.
    + constructor; rewrite ?Ha, ?Hh; proj; cbn [g_first g_objs g_blks].
      * reflexivity.
      * assumption.
      * assumption.
      * right. exists (block, size). unfold owned. cbn [g_first g_blks app fst snd].
        split; [now left|]. proj. lia.
      * unfold owned. cbn [g_first g_blks app]. constructor; [|constructor].
        unfold good_block. cbn [fst snd]. lia.
      * unfold first_ok. cbn [g_first fst snd]. rewrite <- ?Ha. tauto.
      * constructor.
      * constructor.
      * exists [(block + 9 - 9, block + 9)]. split.
        -- change (expected _) with [EvEndChain (block + 9)].
           constructor; [lia| |].
           ++ replace (block + 9 - 9) with block by lia. assumption.
           ++ replace (block + 9 - 1) with (block + 8) by lia. assumption.
        -- constructor; [|constructor].
           replace (block + 9 - 9) with block by lia. rewrite <- ?Ha. assumption.
    + intros x Hx. rewrite Hoth; [reflexivity|].
      specialize (Hx (block, size)). unfold owned in Hx.
      cbn [g_first g_blks app fst snd] in Hx.
      assert (~ (block <= x < block + size)) by (apply Hx; now left). lia.
Qed.

End InvFacts.

(** ** Growth keeps the invariant *)

Module GrowInv.
Import Arena Chain Growth Inv MemFacts FooterFacts GrowthFacts InvFacts ChainFacts.

Lemma advance_uint32 (a : SkArenaAlloc) :
  uint32 (fNextHeapAlloc a) -> uint32 (fYetNextHeapAlloc a) ->
  uint32 (fNextHeapAlloc (advance a)) /\ uint32 (fYetNextHeapAlloc (advance a)).
Proof.
  intros Hn Hy. destruct (advance_counters a Hn Hy) as [A B].
  destruct (Z.le_gt_cases (fYetNextHeapAlloc a) (maxSize - fNextHeapAlloc a)) as [H|H].
  - destruct (A H) as [-> ->]. unfold uint32 in *. lia.
  - destruct B as [-> ->]; [lia|]. unfold uint32 in *. lia.
Qed.

(** The destructor cursor is a valid 64-bit pointer value. *)
Lemma shape_dtor_range (g : ghost) (a : SkArenaAlloc) :
  shape g a -> Forall good_block (owned g) ->
  0 <= fDtorCursor a <= fCursor a /\ fCursor a <= fEnd a <= addr_limit /\
  (fCursor a = 0 \/ 0 < fDtorCursor a).
Proof.
  intros [(-> & -> & ->) | (b & Hb & H1 & H2)] Hg.
  - unfold addr_limit. lia.
  - rewrite Forall_forall in Hg. destruct (Hg b Hb) as (? & ? & ?). lia.
Qed.

Lemma inside_disjoint_outside (r b : Z * Z) (p n d : Z) :
  inside r b -> disjoint p n (fst b) (snd b) ->
  p <= d -> outside d (p + n) r.
Proof. unfold inside, disjoint, outside. intros [? ?] [?|?] ?; lia. Qed.

Section WithAllocator.

Variable sys_new : history -> Z -> option Z.
Hypothesis sys_new_ok : allocator_ok sys_new.

Lemma block_size_lower (size alignment : Z) (a : SkArenaAlloc) :
  objSizeAndOverhead size alignment <= block_size size alignment a /\
  fNextHeapAlloc a <= block_size size alignment a.
Proof.
  unfold block_size.
  pose proof (round_up_ge (allocationSize size alignment a)).
  unfold allocationSize in *. lia.
Qed.

(** The world after [ensureSpace], field by field. *)
Lemma grown_spec (p n : Z) (w : world) :
  0 <= fDtorCursor (arena w) < 2 ^ 64 ->
  let w' := grown p n w in
  arena w' = mkArena (p + 17) (p + 17) (p + n)
                     (fNextHeapAlloc (advance (arena w)))
                     (fYetNextHeapAlloc (advance (arena w))) /\
  wheap w' = HNew p n :: wheap w /\
  load_le 8 (wmem w') p = fDtorCursor (arena w) /\
  load_le 8 (wmem w') (p + 8) = fn_NextBlock /\
  load_le 1 (wmem w') (p + 16) = 0 /\
  (forall x, x < p \/ p + 17 <= x -> wmem w' x = wmem w x).
Proof.
  intros Hd. cbv zeta.
  split; [apply grown_arena|]. split; [reflexivity|].
  unfold grown.
  set (w1 := installRaw 8 _ _).
  assert (Hc : fCursor (arena w1) = p + 8) by reflexivity.
  destruct (installFooter_spec fn_NextBlock 0 w1 (p + 8) Hc)
    as (_ & _ & Hact & Hpad & Hoth); [unfold fn_NextBlock; lia | lia |].
  assert (Hm1 : wmem w1 = store_le 8 (wmem w) p (fDtorCursor (arena w))) by reflexivity.
  split; [|split; [exact Hact|split]].
  - rewrite (load_le_agree 8 _ (wmem w1)).
    + rewrite Hm1. now apply load_store_le_small.
    + intros x Hx. apply Hoth. change (Z.of_nat 8) with 8 in Hx. lia.
  - replace (p + 16) with (p + 8 + 8) by lia. exact Hpad.
  - intros x Hx. rewrite Hoth by lia. rewrite Hm1.
    apply store_le_other. change (Z.of_nat 8) with 8. lia.
Qed.

Lemma ensureSpace_inv (h0 : history) (w w' : world) (g : ghost) (size alignment : Z) :
  inv h0 w g -> uint32 size ->
  ensureSpace sys_new size alignment w = Ok w' ->
  exists p n,
    inv h0 w' (add_blk (p, n) g) /\
    writes_inside (add_blk (p, n) g) (wmem w) (wmem w') /\
    arena w' = mkArena (p + 17) (p + 17) (p + n)
                       (fNextHeapAlloc (arena w')) (fYetNextHeapAlloc (arena w')) /\
    0 < p /\ p + n <= addr_limit /\
    size + overhead + wrap32 (alignment - 1) <= n <= maxSize.
Proof.
  intros I Hsz H.
  destruct (ensureSpace_Ok sys_new _ _ _ _ Hsz (inv_next _ _ _ I) H) as (Hfit & p & Hp & ->).
  apply sizes_fit_true in Hfit; [|assumption|exact (inv_next _ _ _ I)].
  destruct Hfit as (_ & _ & Hmax).
  set (n := block_size size alignment (arena w)) in *.
  destruct (block_size_lower size alignment (arena w)) as [Hlow _].
  fold n in Hlow. unfold objSizeAndOverhead in Hlow.
  pose proof (wrap32_range (alignment - 1)) as Hal. unfold uint32 in Hal, Hsz.
  assert (Hn : 26 <= n) by (consts; lia).
  assert (Hn0 : 0 < n) by lia.
  destruct (sys_new_ok _ _ _ Hn0 Hp) as (Hpos & Hlim & Hdisj).
  destruct (shape_dtor_range _ _ (inv_shape _ _ _ I) (inv_owned _ _ _ I)) as (Hd1 & Hd2 & _).
  destruct (grown_spec p n w) as (Ha & Hh & Hnext & Hact & Hpad & Hoth).
  { unfold addr_limit in Hd2. lia. }
  set (w' := grown p n w) in *.
  destruct (advance_uint32 _ (inv_next _ _ _ I) (inv_yet _ _ _ I)) as [Hu1 Hu2].
  pose proof (owned_live _ _ _ I) as Hlive.
  assert (Hsub : forall b, In b (owned g) -> In b (owned (add_blk (p, n) g))).
  { intros b Hb. rewrite owned_add_blk. apply in_or_app. now left. }
  assert (Hout : forall r, Exists (inside r) (owned g) ->
                           outside (p + 17) (p + n) r).
  { intros r Hex. apply Exists_exists in Hex. destruct Hex as (b & Hb & Hin).
    rewrite Forall_forall in Hlive, Hdisj.
    apply (inside_disjoint_outside r b p n (p + 17) Hin); [|lia].
    apply (Hdisj b). now apply Hlive. }
  exists p, n. split; [|split; [|split; [|repeat split; try lia]]].
  - constructor.
    + rewrite Hh, (inv_heap _ _ _ I). cbn [add_blk g_blks]. now rewrite news_snoc.
    + rewrite Ha. exact Hu1.
    + rewrite Ha. exact Hu2.
    + right. exists (p, n). rewrite owned_add_blk, Ha. proj. cbn [fst snd].
      split; [apply in_or_app; right; now left | lia].
    + rewrite owned_add_blk. apply Forall_app. split; [exact (inv_owned _ _ _ I)|].
      constructor; [|constructor]. unfold good_block. cbn [fst snd]. lia.
    + pose proof (inv_first _ _ _ I) as F. unfold first_ok in *.
      cbn [add_blk g_first]. destruct (g_first g) as [r|]; [|exact Logic.I].
      destruct F as (F1 & F2 & F3 & F4).
      assert (Ho : outside (p + 17) (p + n) (fst r, fst r + 9)).
      { apply Hout. apply F4. }
      assert (Ho' : outside p (p + 17) (fst r, fst r + 9)).
      { destruct F4 as [Hex _]. apply Exists_exists in Hex.
        destruct Hex as (b & Hb & Hin). rewrite Forall_forall in Hlive, Hdisj.
        pose proof (Hdisj b (Hlive b Hb)) as D.
        unfold inside, disjoint, outside in *. cbn [fst snd] in *. lia. }
      unfold outside in Ho'. cbn [fst snd] in Ho'.
      split; [exact F1|]. split; [|split].
      * rewrite <- F2. apply load_le_agree. intros x Hx. apply Hoth.
        change (Z.of_nat 8) with 8 in Hx. lia.
      * rewrite <- F3. apply load_le_agree. intros x Hx. apply Hoth.
        change (Z.of_nat 1) with 1 in Hx. lia.
      * split.
        -- destruct F4 as [Hex _]. apply Exists_exists in Hex.
           destruct Hex as (b & Hb & Hin). apply Exists_exists. exists b.
           split; [now apply Hsub | assumption].
        -- rewrite Ha. exact Ho.
    + cbn [add_blk g_blks]. unfold fresh_blocks. apply Forall_app.
      split; [exact (inv_fresh _ _ _ I)|]. constructor; [|constructor].
      cbn [fst snd]. rewrite (inv_heap _ _ _ I), live_news in Hdisj.
      apply Forall_app in Hdisj. tauto.
    + cbn [add_blk g_blks]. rewrite map_app. apply NoDup_app.
      * exact (inv_nodup _ _ _ I).
      * cbn [map fst]. constructor; [intros []|constructor].
      * intros a Ha' [E|[]]. cbn [fst] in E. subst a.
        apply in_map_iff in Ha'. destruct Ha' as (b & Eb & Hb).
        assert (Hbo : In b (owned g)) by (unfold owned; apply in_or_app; now right).
        rewrite Forall_forall in Hlive, Hdisj.
        pose proof (Hdisj b (Hlive b Hbo)) as D.
        pose proof (inv_owned _ _ _ I) as G. rewrite Forall_forall in G.
        destruct (G b Hbo) as (? & ? & ?). unfold disjoint in D. lia.
    + destruct (inv_chain _ _ _ I) as (fp & Hw & Hprot).
      exists ((p + 17 - 17, p + 17) :: fp). rewrite Ha. proj. split.
      * rewrite expected_add_blk. cbn [fst].
        replace (EvDelete p) with (EvDelete (p + 17 - 17)) by (f_equal; lia).
        apply walks_NextBlock; [lia| | |].
        -- replace (p + 17 - 9) with (p + 8) by lia. exact Hact.
        -- replace (p + 17 - 1) with (p + 16) by lia. exact Hpad.
        -- replace (p + 17 - 17) with p by lia. rewrite Hnext.
           apply (walks_frame (wmem w)); [exact Hw|].
           apply (agree_outside p (p + 17)).
           ++ eapply Forall_impl; [|exact Hprot]. intros r [Hex _].
              apply Exists_exists in Hex. destruct Hex as (b & Hb & Hin).
              rewrite Forall_forall in Hlive, Hdisj.
              pose proof (Hdisj b (Hlive b Hb)) as D.
              unfold inside, disjoint, outside in *. lia.
           ++ exact Hoth.
      * constructor.
        -- split.
           ++ rewrite owned_add_blk. apply Exists_app. right. constructor.
              unfold inside. cbn [fst snd]. lia.
           ++ left. cbn [fst snd fDtorCursor]. lia.
        -- eapply Forall_impl; [|exact Hprot]. intros r Hr.
           apply (protected_mono g _ (arena w)); [exact Hsub| |exact Hr].
           intros _ Hex. proj. now apply Hout.
  - intros x Hx. apply Hoth. specialize (Hx (p, n)). rewrite owned_add_blk in Hx.
    cbn [fst snd] in Hx.
    assert (~ (p <= x < p + n)) by (apply Hx; apply in_or_app; right; now left). lia.
  - rewrite Ha. reflexivity.
Qed.

End WithAllocator.

End GrowInv.

(** ** Writing into the active block keeps the invariant *)

Module BlockInv.
Import Arena Chain Growth Inv MemFacts FooterFacts GrowthFacts InvFacts ChainFacts GrowInv.

(** The general step inside the active block: memory changes only from
    the cursor on, the cursors move forward, and the chain from the new
    destructor cursor extends the chain from the old one. *)
Lemma inv_inblock (h0 : history) (w w' : world) (g g' : ghost) :
  inv h0 w g ->
  fCursor (arena w) <> 0 ->
  wheap w' = wheap w ->
  fNextHeapAlloc (arena w') = fNextHeapAlloc (arena w) ->
  fYetNextHeapAlloc (arena w') = fYetNextHeapAlloc (arena w) ->
  fEnd (arena w') = fEnd (arena w) ->
  g_first g' = g_first g ->
  g_blks g' = g_blks g ->
  fDtorCursor (arena w) <= fDtorCursor (arena w') <= fCursor (arena w') ->
  fCursor (arena w') <= fEnd (arena w) ->
  (forall x, x < fCursor (arena w) \/ fEnd (arena w) <= x -> wmem w' x = wmem w x) ->
  (forall fp, walks (wmem w') (fDtorCursor (arena w)) fp (expected g) ->
     exists fpn, walks (wmem w') (fDtorCursor (arena w')) (fpn ++ fp) (expected g') /\
                 Forall (protected g' (arena w')) fpn) ->
  inv h0 w' g' /\ writes_inside g' (wmem w) (wmem w').
Proof.
  intros I Hc Hh Hn Hy He Hgf Hgb Hd Hce Hm Hext.
  assert (Hown : owned g' = owned g) by (unfold owned; now rewrite Hgf, Hgb).
  pose proof (inv_shape _ _ _ I) as Hsh.
  destruct Hsh as [(Hz & _) | (b & Hb & Hb1 & Hb2)]; [contradiction|].
  assert (Hprot : forall r, protected g (arena w) r -> protected g' (arena w') r).
  { intros r [Hex Ho]. split; [now rewrite Hown|].
    rewrite He. unfold outside in *. lia. }
  assert (Hagree : forall r, protected g (arena w) r ->
                             agree_on (fst r) (snd r) (wmem w) (wmem w')).
  { intros r [_ Ho] x Hx. symmetry. apply Hm. unfold outside in Ho. lia. }
  split.
  - constructor.
    + now rewrite Hh, Hgb, (inv_heap _ _ _ I).
    + rewrite Hn. exact (inv_next _ _ _ I).
    + rewrite Hy. exact (inv_yet _ _ _ I).
    + right. exists b. rewrite Hown, He. split; [exact Hb | lia].
    + rewrite Hown. exact (inv_owned _ _ _ I).
    + pose proof (inv_first _ _ _ I) as F. unfold first_ok in *. rewrite Hgf.
      destruct (g_first g) as [r|]; [|exact Logic.I].
      destruct F as (F1 & F2 & F3 & F4). pose proof (Hagree _ F4) as Ag.
      cbn [fst snd] in Ag.
      split; [exact F1|]. split; [|split; [|now apply Hprot]].
      * rewrite <- F2. symmetry. apply load_le_agree. intros x Hx. apply Ag.
        change (Z.of_nat 8) with 8 in Hx. lia.
      * rewrite <- F3. symmetry. apply load_le_agree. intros x Hx. apply Ag.
        change (Z.of_nat 1) with 1 in Hx. lia.
    + rewrite Hgb. exact (inv_fresh _ _ _ I).
    + rewrite Hgb. exact (inv_nodup _ _ _ I).
    + destruct (inv_chain _ _ _ I) as (fp & Hw & Hp).
      destruct (Hext fp) as (fpn & Hw' & Hpn).
      { apply (walks_frame (wmem w)); [exact Hw|].
        unfold agree_ranges. eapply Forall_impl; [|exact Hp]. exact Hagree. }
      exists (fpn ++ fp). split; [exact Hw'|]. apply Forall_app. split; [exact Hpn|].
      eapply Forall_impl; [|exact Hp]. exact Hprot.
  - intros x Hx. apply Hm. rewrite Hown in Hx. specialize (Hx b Hb). lia.
Qed.

Lemma to_int32_small (z : Z) : 0 <= z < 2147483648 -> to_int32 z = z.
Proof. intros H. unfold to_int32. destruct (Z.ltb_spec z 2147483648); [reflexivity | lia]. Qed.

(** The skip record that ends a run of trivially destructible data. *)
Lemma skip_footer_inv (h0 : history) (w : world) (g : ghost) :
  inv h0 w g ->
  let c := fCursor (arena w) in
  let d := fDtorCursor (arena w) in
  c <> 0 -> c + 13 <= fEnd (arena w) -> c - d < 2147483648 ->
  let w' := installFooter fn_SkipPod 0 (installRaw 4 (ToU32 (c - d)) w) in
  (inv h0 w' g /\ writes_inside g (wmem w) (wmem w')) /\
  arena w' = mkArena (c + 13) (c + 13) (fEnd (arena w))
                     (fNextHeapAlloc (arena w)) (fYetNextHeapAlloc (arena w)) /\
  SkipPod (wmem w') (c + 13) = d /\
  load_le 8 (wmem w') (c + 4) = fn_SkipPod /\
  load_le 4 (wmem w') c = c - d.
Proof.
  intros I c d Hc Hfit Hgap. cbv zeta.
  destruct (shape_dtor_range _ _ (inv_shape _ _ _ I) (inv_owned _ _ _ I)) as (Hd1 & Hd2 & _).
  fold c d in Hd1, Hd2.
  set (w1 := installRaw 4 (ToU32 (c - d)) w).
  assert (Hc1 : fCursor (arena w1) = c + 4) by reflexivity.
  destruct (installFooter_spec fn_SkipPod 0 w1 (c + 4) Hc1)
    as (Ha & Hh & Hact & Hpad & Hoth); [unfold fn_SkipPod; lia | lia |].
  set (w' := installFooter fn_SkipPod 0 w1) in *.
  assert (Hv : ToU32 (c - d) = c - d).
  { apply wrap32_small. unfold uint32, maxSize. lia. }
  assert (Hm1 : wmem w1 = store_le 4 (wmem w) c (c - d)).
  { unfold w1. rewrite installRaw_mem. fold c. now rewrite Hv. }
  assert (Hskip : load_le 4 (wmem w') c = c - d).
  { rewrite (load_le_agree 4 _ (wmem w1)).
    - rewrite Hm1. apply load_store_le_small. change (256 ^ Z.of_nat 4) with 4294967296. lia.
    - intros x Hx. apply Hoth. change (Z.of_nat 4) with 4 in Hx. lia. }
  assert (Hsp : SkipPod (wmem w') (c + 13) = d).
  { unfold SkipPod. change (sizeof_Footer + sizeof_u32) with 13.
    replace (c + 13 - 13) with c by lia. rewrite Hskip, to_int32_small by lia. lia. }
  assert (Ha' : arena w' = mkArena (c + 13) (c + 13) (fEnd (arena w))
                     (fNextHeapAlloc (arena w)) (fYetNextHeapAlloc (arena w))).
  { rewrite Ha. unfold w1, installRaw. proj. f_equal; lia. }
  split; [|split; [exact Ha'|split; [exact Hsp|split; [exact Hact|exact Hskip]]]].
  destruct (inv_shape _ _ _ I) as [(Hz & _) | (b & Hb & Hb1 & Hb2)]; [contradiction|].
  fold c d in Hb1, Hb2.
  apply (inv_inblock h0 w w' g g I Hc); rewrite ?Ha'; proj; try reflexivity; try lia.
  - fold c. intros x Hx. rewrite Hoth by lia. rewrite Hm1.
    apply store_le_other. change (Z.of_nat 4) with 4. lia.
  - intros fp Hw. exists [(c + 13 - 13, c + 13)]. split.
    + cbn [app]. apply walks_SkipPod; [lia| |].
      * replace (c + 13 - 9) with (c + 4) by lia. exact Hact.
      * replace (c + 13 - 1) with (c + 4 + 8) by lia. rewrite Hsp, Hpad.
        replace (d - 0) with d by lia. exact Hw.
    + constructor; [|constructor]. split.
      * apply Exists_exists. exists b. split; [exact Hb|].
        unfold inside. cbn [fst snd]. lia.
      * left. cbn [fst snd fDtorCursor]. lia.
Qed.

(** The object and its Destruct footer. *)
Lemma object_footer_inv (h0 : history) (w : world) (g : ghost)
      (objStart size : Z) (init : Z -> Z) :
  inv h0 w g ->
  let c := fCursor (arena w) in
  c <> 0 -> fDtorCursor (arena w) = c ->
  c <= objStart < c + 256 -> 0 <= size <= maxSize ->
  objStart + size + 9 <= fEnd (arena w) ->
  let w' := installFooter (fn_releaser size) (ToU32 (objStart - c))
              (write_object objStart size init (set_cursor (objStart + size) w)) in
  (inv h0 w' (add_obj (objStart, size) g) /\
   writes_inside (add_obj (objStart, size) g) (wmem w) (wmem w')) /\
  arena w' = mkArena (objStart + size + 9) (objStart + size + 9) (fEnd (arena w))
                     (fNextHeapAlloc (arena w)) (fYetNextHeapAlloc (arena w)).
Proof.
  intros I c Hc Hdc Hobj Hsz Hfit. cbv zeta.
  destruct (shape_dtor_range _ _ (inv_shape _ _ _ I) (inv_owned _ _ _ I)) as (Hd1 & Hd2 & _).
  fold c in Hd1, Hd2.
  set (w1 := write_object objStart size init (set_cursor (objStart + size) w)).
  assert (Hc1 : fCursor (arena w1) = objStart + size) by reflexivity.
  assert (Hpadv : ToU32 (objStart - c) = objStart - c).
  { apply wrap32_small. unfold uint32, maxSize. lia. }
  rewrite Hpadv.
  destruct (installFooter_spec (fn_releaser size) (objStart - c) w1 (objStart + size) Hc1)
    as (Ha & Hh & Hact & Hpad & Hoth).
  { unfold fn_releaser, maxSize in *. lia. }
  { lia. }
  set (w' := installFooter (fn_releaser size) (objStart - c) w1) in *.
  assert (Ha' : arena w' = mkArena (objStart + size + 9) (objStart + size + 9)
                     (fEnd (arena w)) (fNextHeapAlloc (arena w)) (fYetNextHeapAlloc (arena w))).
  { rewrite Ha. reflexivity. }
  split; [|exact Ha'].
  destruct (inv_shape _ _ _ I) as [(Hz & _) | (b & Hb & Hb1 & Hb2)]; [contradiction|].
  fold c in Hb1, Hb2.
  apply (inv_inblock h0 w w' g _ I Hc); rewrite ?Ha'; proj; try reflexivity; try lia.
  - fold c. intros x Hx. rewrite Hoth by lia. unfold w1, write_object. proj.
    destruct (Z.leb_spec objStart x); [|reflexivity].
    destruct (Z.ltb_spec x (objStart + size)); [lia | reflexivity].
  - intros fp Hw. exists [(objStart + size + 9 - 9, objStart + size + 9)]. split.
    + cbn [app]. rewrite expected_add_obj. cbn [fst snd].
      replace (EvDtor objStart size)
        with (EvDtor (objStart + size + 9 - (size + 9)) size) by (f_equal; lia).
      apply walks_releaser; [lia | lia | |].
      * replace (objStart + size + 9 - 9) with (objStart + size) by lia. exact Hact.
      * replace (objStart + size + 9 - 1) with (objStart + size + 8) by lia.
        rewrite Hpad.
        replace (objStart + size + 9 - (size + 9) - (objStart - c)) with c by lia.
        rewrite <- Hdc. exact Hw.
    + constructor; [|constructor]. split.
      * rewrite owned_add_obj. apply Exists_exists. exists b. split; [exact Hb|].
        unfold inside. cbn [fst snd]. lia.
      * left. cbn [fst snd fDtorCursor]. lia.
Qed.

(** A trivially destructible object: the cursor moves, nothing else. *)
Lemma pod_inv (h0 : history) (w : world) (g : ghost)
      (objStart size : Z) (init : Z -> Z) :
  inv h0 w g ->
  fCursor (arena w) <> 0 ->
  fCursor (arena w) <= objStart -> 0 <= size ->
  objStart + size <= fEnd (arena w) ->
  let w' := write_object objStart size init (set_cursor (objStart + size) w) in
  inv h0 w' g /\ writes_inside g (wmem w) (wmem w').
Proof.
  intros I Hc Hobj Hsz Hfit. cbv zeta.
  destruct (inv_shape _ _ _ I) as [(Hz & _) | (b & Hb & Hb1 & Hb2)]; [contradiction|].
  apply (inv_inblock h0 w _ g g I Hc); unfold write_object, set_cursor; proj;
    try reflexivity; try lia.
  - intros x Hx.
    destruct (Z.leb_spec objStart x); [|reflexivity].
    destruct (Z.ltb_spec x (objStart + size)); [lia | reflexivity].
  - intros fp Hw. exists []. split; [exact Hw | constructor].
Qed.

End BlockInv.

(** ** Allocation keeps the invariant *)

Module AllocInv.
Import Arena Chain Growth Inv BitFacts MemFacts FooterFacts GrowthFacts InvFacts ChainFacts.
Import GrowInv BlockInv.

Lemma grows_refl (g : ghost) : grows g g.
Proof. repeat split. exists []. now rewrite app_nil_r. Qed.

Lemma grows_add_blk (b : Z * Z) (g : ghost) : grows g (add_blk b g).
Proof. repeat split. now exists [b]. Qed.

Lemma grows_trans (g1 g2 g3 : ghost) : grows g1 g2 -> grows g2 g3 -> grows g1 g3.
Proof.
  intros (A1 & A2 & l1 & A3) (B1 & B2 & l2 & B3). repeat split; try congruence.
  exists (l1 ++ l2). now rewrite B3, A3, app_assoc.
Qed.

Lemma grows_owned (g g' : ghost) (b : Z * Z) :
  grows g g' -> In b (owned g) -> In b (owned g').
Proof.
  intros (A1 & _ & l & A3). unfold owned. rewrite A1, A3, !in_app_iff. tauto.
Qed.

Lemma writes_inside_refl (g : ghost) (m : mem) : writes_inside g m m.
Proof. intros x _. reflexivity. Qed.

Lemma writes_inside_trans (g g' : ghost) (m1 m2 m3 : mem) :
  (forall b, In b (owned g) -> In b (owned g')) ->
  writes_inside g m1 m2 -> writes_inside g' m2 m3 ->
  writes_inside g' m1 m3.
Proof.
  intros Hg H12 H23 x Hx. rewrite H23 by exact Hx. apply H12.
  intros b Hb. apply Hx. now apply Hg.
Qed.

Section WithAllocator.

Variable sys_new : history -> Z -> option Z.
Hypothesis sys_new_ok : allocator_ok sys_new.

Lemma allocObjectWithFooter_S (fuel : nat) (sif al : Z) (w : world) :
  allocObjectWithFooter sys_new (S fuel) sif al w =
  let mask := wrap32 (al - 1) in
  let a := arena w in
  let needsSkipFooter := negb (fCursor a =? fDtorCursor a) in
  let skipOverhead := skip_overhead a in
  let totalSize := wrap32 (sif + skipOverhead) in
  if fCursor a =? 0 then
    w' <- ensureSpace sys_new totalSize al w ;;
    allocObjectWithFooter sys_new fuel sif al w'
  else
    let objStart := Z.land (wrap64 (fCursor a + skipOverhead + mask)) (not64 mask) in
    if totalSize >? fEnd a - objStart then
      w' <- ensureSpace sys_new totalSize al w ;;
      allocObjectWithFooter sys_new fuel sif al w'
    else
      _ <- AssertRelease (totalSize <=? fEnd a - objStart) ;;
      let w :=
        if needsSkipFooter then
          installFooter fn_SkipPod 0
            (installRaw 4 (ToU32 (fCursor a - fDtorCursor a)) w)
        else w in
      Ok (objStart, w).
Proof. reflexivity. Qed.

Lemma mask_small (al : Z) : 1 <= al <= 256 -> wrap32 (al - 1) = al - 1.
Proof. intros H. apply wrap32_small. unfold uint32, maxSize. lia. Qed.

(** What [allocObjectWithFooter] returns: the arena is in the state the
    caller of SkArenaAlloc.h expects, with room for the object and its
    footer behind the aligned address. *)
Lemma allocObjectWithFooter_inv (fuel : nat) :
  forall (h0 : history) (w w' : world) (g : ghost) (sif al objStart : Z),
  inv h0 w g -> 1 <= al <= 256 -> 9 <= sif <= maxSize - 13 ->
  fCursor (arena w) - fDtorCursor (arena w) < 2147483648 ->
  allocObjectWithFooter sys_new fuel sif al w = Ok (objStart, w') ->
  exists g',
    inv h0 w' g' /\ writes_inside g' (wmem w) (wmem w') /\ grows g g' /\
    fCursor (arena w') <> 0 /\
    fDtorCursor (arena w') = fCursor (arena w') /\
    fCursor (arena w') <= objStart <= fCursor (arena w') + (al - 1) /\
    objStart + sif <= fEnd (arena w').
Proof.
  induction fuel as [|fuel IH]; intros h0 w w' g sif al objStart I Hal Hsif Hgap H;
    [discriminate|].
  rewrite allocObjectWithFooter_S in H. cbv zeta in H.
  rewrite (mask_small al Hal) in H.
  destruct (shape_dtor_range _ _ (inv_shape _ _ _ I) (inv_owned _ _ _ I))
    as (Hd1 & Hd2 & Hd3).
  set (c := fCursor (arena w)) in *. set (d := fDtorCursor (arena w)) in *.
  assert (Hso : skip_overhead (arena w) = 0 /\ c = d \/
                skip_overhead (arena w) = 13 /\ d < c).
  { unfold skip_overhead. fold c d. destruct (Z.eqb_spec c d); cbn [negb].
    - left. now split.
    - right. split; [reflexivity | lia]. }
  set (so := skip_overhead (arena w)) in *.
  assert (Hts : wrap32 (sif + so) = sif + so).
  { apply wrap32_small. unfold uint32, maxSize in *. lia. }
  rewrite Hts in H.
  (* the two branches that grow are handled alike *)
  assert (Hgrow : forall r,
            (w1 <- ensureSpace sys_new (sif + so) al w ;;
             allocObjectWithFooter sys_new fuel sif al w1) = Ok (objStart, r) ->
            exists g',
              inv h0 r g' /\ writes_inside g' (wmem w) (wmem r) /\ grows g g' /\
              fCursor (arena r) <> 0 /\
              fDtorCursor (arena r) = fCursor (arena r) /\
              fCursor (arena r) <= objStart <= fCursor (arena r) + (al - 1) /\
              objStart + sif <= fEnd (arena r)).
  { intros r Hr.
    destruct (ensureSpace sys_new (sif + so) al w) as [w1|e] eqn:E; [|discriminate].
    cbn [bind] in Hr.
    destruct (ensureSpace_inv sys_new sys_new_ok h0 w w1 g (sif + so) al I) as
        (p & n & I1 & W1 & A1 & Hp & Hlim & Hn); [unfold uint32, maxSize in *; lia | exact E |].
    destruct (IH h0 w1 r (add_blk (p, n) g) sif al objStart I1 Hal Hsif) as
        (g' & I' & W' & G' & R); [rewrite A1; proj; lia | exact Hr |].
    exists g'. split; [exact I'|]. split.
    - apply (writes_inside_trans (add_blk (p, n) g) g' _ (wmem w1));
        [intros b; now apply grows_owned | assumption | assumption].
    - split; [|exact R]. apply (grows_trans g (add_blk (p, n) g)); [apply grows_add_blk | exact G']. }
  destruct (Z.eqb_spec c 0) as [Hc0|Hc0]; [now apply Hgrow|].
  assert (Hmask : 0 <= al - 1) by lia.
  assert (Hali : c + so <= Z.land (wrap64 (c + so + (al - 1))) (not64 (al - 1))
                 <= c + so + (al - 1)).
  { apply align_up_bound; [lia | lia |]. unfold addr_limit in Hd2.
    change (2 ^ 64) with 18446744073709551616. lia. }
  set (o := Z.land (wrap64 (c + so + (al - 1))) (not64 (al - 1))) in *.
  destruct (Z.gtb_spec (sif + so) (fEnd (arena w) - o)) as [Hbig|Hfit]; [now apply Hgrow|].
  destruct (Z.leb_spec (sif + so) (fEnd (arena w) - o)) as [_|Habs]; [|lia].
  cbn [AssertRelease bind] in H.
  destruct Hso as [[Eso Ecd] | [Eso Hdc]].
  - (* no skip record *)
    destruct (Z.eqb_spec c d) as [_|N]; [|contradiction]. cbn [negb] in H.
    injection H as <- <-. exists g.
    split; [exact I|]. split; [apply writes_inside_refl|]. split; [apply grows_refl|].
    fold c d. repeat split; lia.
  - (* a skip record ends the run of trivially destructible data *)
    destruct (Z.eqb_spec c d) as [E|_]; [lia|]. cbn [negb] in H.
    injection H as <- <-.
    destruct (skip_footer_inv h0 w g I) as ((I' & W') & A' & _); fold c d; try lia.
    exists g. split; [exact I'|]. split; [exact W'|]. split; [apply grows_refl|].
    fold c d in A'. rewrite A'. proj. repeat split; lia.
Qed.

Lemma allocObject_S (fuel : nat) (size al : Z) (w : world) :
  allocObject sys_new (S fuel) size al w =
  let mask := wrap32 (al - 1) in
  let a := arena w in
  if fCursor a =? 0 then
    w' <- ensureSpace sys_new size al w ;;
    allocObject sys_new fuel size al w'
  else
    let objStart := Z.land (wrap64 (fCursor a + mask)) (not64 mask) in
    if size >? fEnd a - objStart then
      w' <- ensureSpace sys_new size al w ;;
      allocObject sys_new fuel size al w'
    else Ok (objStart, w).
Proof. reflexivity. Qed.

Lemma allocObject_inv (fuel : nat) :
  forall (h0 : history) (w w' : world) (g : ghost) (size al objStart : Z),
  inv h0 w g -> 1 <= al <= 256 -> 0 <= size <= maxSize ->
  allocObject sys_new fuel size al w = Ok (objStart, w') ->
  exists g',
    inv h0 w' g' /\ writes_inside g' (wmem w) (wmem w') /\ grows g g' /\
    fCursor (arena w') <> 0 /\
    fCursor (arena w') <= objStart <= fCursor (arena w') + (al - 1) /\
    objStart + size <= fEnd (arena w') /\
    fCursor (arena w') - fDtorCursor (arena w')
      <= fCursor (arena w) - fDtorCursor (arena w).
Proof.
  induction fuel as [|fuel IH]; intros h0 w w' g size al objStart I Hal Hsz H;
    [discriminate|].
  rewrite allocObject_S in H. cbv zeta in H.
  rewrite (mask_small al Hal) in H.
  destruct (shape_dtor_range _ _ (inv_shape _ _ _ I) (inv_owned _ _ _ I))
    as (Hd1 & Hd2 & Hd3).
  set (c := fCursor (arena w)) in *.
  assert (Hgrow : forall r,
            (w1 <- ensureSpace sys_new size al w ;;
             allocObject sys_new fuel size al w1) = Ok (objStart, r) ->
            exists g',
              inv h0 r g' /\ writes_inside g' (wmem w) (wmem r) /\ grows g g' /\
              fCursor (arena r) <> 0 /\
              fCursor (arena r) <= objStart <= fCursor (arena r) + (al - 1) /\
              objStart + size <= fEnd (arena r) /\
              fCursor (arena r) - fDtorCursor (arena r)
                <= c - fDtorCursor (arena w)).
  { intros r Hr.
    destruct (ensureSpace sys_new size al w) as [w1|e] eqn:E; [|discriminate].
    cbn [bind] in Hr.
    destruct (ensureSpace_inv sys_new sys_new_ok h0 w w1 g size al I) as
        (p & n & I1 & W1 & A1 & Hp & Hlim & Hn); [exact Hsz | exact E |].
    destruct (IH h0 w1 r (add_blk (p, n) g) size al objStart I1 Hal Hsz Hr) as
        (g' & I' & W' & G' & R1 & R2 & R3 & R4).
    exists g'. split; [exact I'|]. split.
    - apply (writes_inside_trans (add_blk (p, n) g) g' _ (wmem w1));
        [intros b; now apply grows_owned | assumption | assumption].
    - split; [apply (grows_trans g (add_blk (p, n) g)); [apply grows_add_blk | exact G']|].
      repeat split; try assumption; try lia.
      rewrite A1 in R4. proj. cbn [fCursor fDtorCursor] in R4. lia. }
  destruct (Z.eqb_spec c 0) as [Hc0|Hc0]; [now apply Hgrow|].
  assert (Hali : c <= Z.land (wrap64 (c + (al - 1))) (not64 (al - 1)) <= c + (al - 1)).
  { apply align_up_bound; [lia | lia |]. unfold addr_limit in Hd2.
    change (2 ^ 64) with 18446744073709551616. lia. }
  set (o := Z.land (wrap64 (c + (al - 1))) (not64 (al - 1))) in *.
  destruct (Z.gtb_spec size (fEnd (arena w) - o)) as [Hbig|Hfit]; [now apply Hgrow|].
  injection H as <- <-. exists g.
  split; [exact I|]. split; [apply writes_inside_refl|]. split; [apply grows_refl|].
  fold c. repeat split; lia.
Qed.

(** One allocation. *)
Lemma allocate_inv (fuel : nat) (h0 : history) (w w' : world) (g : ghost)
      (rq : request) (p : Z) :
  inv h0 w g -> wf_request rq ->
  (rdtor rq = true -> fCursor (arena w) - fDtorCursor (arena w) < 2147483648) ->
  allocate sys_new fuel rq w = Ok (p, w') ->
  exists g1,
    grows g g1 /\
    inv h0 w' (note rq p g1) /\
    writes_inside (note rq p g1) (wmem w) (wmem w') /\
    fCursor (arena w') <> 0 /\
    fCursor (arena w') - fDtorCursor (arena w')
      <= (if rdtor rq then 0
          else fCursor (arena w) - fDtorCursor (arena w) + rsize rq + ralign rq).
Proof.
  intros I [Hal Hsz] Hgap H. unfold allocate, note in *.
  destruct (rdtor rq).
  - assert (Hsif : wrap32 (rsize rq + sizeof_Footer) = rsize rq + 9).
    { apply wrap32_small. unfold uint32. consts. lia. }
    rewrite Hsif in H.
    destruct (allocObjectWithFooter sys_new fuel (rsize rq + 9) (ralign rq) w)
      as [[o w1]|e] eqn:E; [|discriminate].
    cbn [bind] in H. injection H as <- <-.
    destruct (allocObjectWithFooter_inv fuel h0 w w1 g (rsize rq + 9) (ralign rq) o I Hal) as
        (g1 & I1 & W1 & G1 & Hc & Hdc & Ho & Hfit);
      [unfold maxSize in *; lia | now apply Hgap | exact E |].
    destruct (object_footer_inv h0 w1 g1 o (rsize rq) (rinit rq) I1 Hc Hdc)
      as ((I2 & W2) & A2); [lia | unfold maxSize in *; lia | lia |].
    exists g1. split; [exact G1|]. split; [exact I2|]. split.
    + apply (writes_inside_trans g1 _ _ (wmem w1)); [|exact W1|exact W2].
      intros b Hb. exact Hb.
    + rewrite A2. proj.
      destruct (shape_dtor_range _ _ (inv_shape _ _ _ I1) (inv_owned _ _ _ I1))
        as (? & ? & ?).
      split; lia.
  - destruct (allocObject sys_new fuel (rsize rq) (ralign rq) w)
      as [[o w1]|e] eqn:E; [|discriminate].
    cbn [bind] in H. injection H as <- <-.
    destruct (allocObject_inv fuel h0 w w1 g (rsize rq) (ralign rq) o I Hal) as
        (g1 & I1 & W1 & G1 & Hc & Ho & Hfit & Hg); [unfold maxSize in *; lia | exact E |].
    destruct (pod_inv h0 w1 g1 o (rsize rq) (rinit rq) I1 Hc) as (I2 & W2);
      [lia | lia | lia |].
    exists g1. split; [exact G1|]. split; [exact I2|]. split.
    + apply (writes_inside_trans g1 _ _ (wmem w1)); [|exact W1|exact W2].
      intros b Hb. exact Hb.
    + unfold write_object, set_cursor. proj.
      destruct (shape_dtor_range _ _ (inv_shape _ _ _ I1) (inv_owned _ _ _ I1))
        as (? & ? & ?). split; lia.
Qed.

End WithAllocator.

End AllocInv.

(** ** Teardown after a sequence of allocations *)

Module Teardown.
Import Arena Chain Growth Inv BitFacts MemFacts FooterFacts GrowthFacts InvFacts ChainFacts.
Import GrowInv BlockInv AllocInv.



(** The teardown of an arena that satisfies the invariant. *)
Lemma destroy_expected (h0 : history) (w : world) (g : ghost) :
  inv h0 w g ->
  exists fuel0, forall fuel, (fuel0 <= fuel)%nat ->
    destroy fuel w = Some (expected g, apply_deletes (expected g) (wheap w)).
Proof.
  intros I. destruct (inv_chain _ _ _ I) as (fp & Hw & _).
  exists (S (length fp)). intros fuel Hfuel. unfold destroy.
  rewrite (walks_run _ _ _ _ Hw fuel) by lia. reflexivity.
Qed.

Section WithAllocator.

Variable sys_new : history -> Z -> option Z.
Hypothesis sys_new_ok : allocator_ok sys_new.

Lemma allocate_all_inv (fuel : nat) (rqs : list request) :
  forall (h0 : history) (w w' : world) (g : ghost) (acc : Z) (ps : list Z),
  inv h0 w g -> Forall wf_request rqs ->
  fCursor (arena w) - fDtorCursor (arena w) <= acc -> short_runs acc rqs ->
  allocate_all sys_new fuel rqs w = Ok (ps, w') ->
  exists g',
    inv h0 w' g' /\ writes_inside g' (wmem w) (wmem w') /\
    g_first g' = g_first g /\
    g_objs g' = rev (dtor_objs ps rqs) ++ g_objs g /\
    (exists l, g_blks g' = g_blks g ++ l) /\
    length ps = length rqs.
Proof.
  induction rqs as [|rq rqs IH]; intros h0 w w' g acc ps I Hwf Hacc Hruns H.
  - cbn [allocate_all] in H. injection H as <- <-. exists g.
    split; [exact I|]. split; [apply writes_inside_refl|].
    repeat split. exists []. now rewrite app_nil_r.
  - cbn [allocate_all] in H.
    destruct (allocate sys_new fuel rq w) as [[p w1]|e] eqn:E; [|discriminate].
    cbn [bind] in H.
    destruct (allocate_all sys_new fuel rqs w1) as [[ps' w2]|e] eqn:E2; [|discriminate].
    cbn [bind] in H. injection H as <- <-.
    inversion Hwf as [|? ? Hrq Hwf']; subst.
    cbn [short_runs] in Hruns.
    destruct (allocate_inv sys_new sys_new_ok fuel h0 w w1 g rq p I Hrq) as
        (g1 & (G1 & G2 & l1 & G3) & I1 & W1 & Hc & Hgap); [|exact E|].
    { intros Hd. rewrite Hd in Hruns. lia. }
    destruct (IH h0 w1 w2 (note rq p g1)
                 (if rdtor rq then 0 else acc + rsize rq + ralign rq) ps' I1 Hwf')
      as (g' & I' & W' & F' & O' & (l2 & B') & L'); [| |exact E2|].
    { destruct (rdtor rq); lia. }
    { destruct (rdtor rq); tauto. }
    exists g'. split; [exact I'|]. split.
    { apply (writes_inside_trans (note rq p g1) g' _ (wmem w1)); [|exact W1|exact W'].
      intros b. unfold owned. rewrite F', B', !in_app_iff. tauto. }
    assert (Hn1 : g_first (note rq p g1) = g_first g /\
                  g_blks (note rq p g1) = g_blks g ++ l1 /\
                  g_objs (note rq p g1)
                  = (if rdtor rq then [(p, rsize rq)] else []) ++ g_objs g).
    { unfold note. destruct (rdtor rq); cbn [add_obj g_first g_blks g_objs app];
        rewrite G1, G2, G3; repeat split. }
    destruct Hn1 as (N1 & N2 & N3).
    split; [congruence|]. split; [|split].
    + rewrite O', N3. cbn [dtor_objs]. rewrite rev_app_distr, <- app_assoc.
      f_equal. destruct (rdtor rq); reflexivity.
    + exists (l1 ++ l2). now rewrite B', N2, app_assoc.
    + cbn [length]. now rewrite L'.
Qed.

(** From construction to teardown. *)
Lemma arena_lifetime (fuel : nat) (m : mem) (h0 : history)
      (block size hint : Z) (rqs : list request) (ps : list Z) (w : world) :
  caller_block_ok h0 block size -> Forall wf_request rqs -> short_runs 0 rqs ->
  allocate_all sys_new fuel rqs (construct m h0 block size hint) = Ok (ps, w) ->
  exists blks,
    inv h0 w (mkGhost (g_first (ghost0 block size)) (rev (dtor_objs ps rqs)) blks) /\
    writes_inside (mkGhost (g_first (ghost0 block size)) (rev (dtor_objs ps rqs)) blks)
                  m (wmem w).
Proof.
  intros Hblk Hwf Hruns H.
  destruct (construct_inv m h0 block size hint Hblk) as [I0 W0].
  assert (Hgap0 : fCursor (arena (construct m h0 block size hint))
                  - fDtorCursor (arena (construct m h0 block size hint)) <= 0).
  { unfold construct. destruct (size <? sizeof_Footer); cbn [fCursor].
    - cbn. lia.
    - destruct (block =? 0); [cbn [arena fCursor fDtorCursor]; lia|].
      rewrite installFooter_arena. cbn [fCursor fDtorCursor]. lia. }
  destruct (allocate_all_inv fuel rqs h0 _ w _ 0 ps I0 Hwf Hgap0 Hruns H)
    as (g' & I' & W' & F' & O' & (l & B') & _).
  exists (g_blks g').
  assert (Eg : g' = mkGhost (g_first (ghost0 block size)) (rev (dtor_objs ps rqs)) (g_blks g')).
  { destruct g' as [f o b]. cbn [g_first g_objs g_blks] in *. rewrite F', O'.
    unfold ghost0. cbn [g_objs g_first]. now rewrite app_nil_r. }
  rewrite <- Eg. split; [exact I'|].
  apply (writes_inside_trans (ghost0 block size) g' _ (wmem (construct m h0 block size hint)));
    [|exact W0|exact W'].
  intros b. unfold owned. rewrite F', B', !in_app_iff. tauto.
Qed.

End WithAllocator.

End Teardown.

(** ** The bump allocator satisfies what the arena relies on *)

Module BumpFacts.
Import Arena.

Lemma remove_block_incl (p : Z) (l : list (Z * Z)) (b : Z * Z) :
  In b (remove_block p l) -> In b l.
Proof.
  induction l as [|[q n] l IH]; cbn [remove_block]; [tauto|].
  destruct (q =? p); cbn [In]; tauto.
Qed.

Lemma live_below_high_water (h : history) :
  Forall (fun b => fst b + snd b <= high_water h) (live h).
Proof.
  induction h as [|[p n|p] h IH]; cbn [live high_water].
  - constructor.
  - constructor; [cbn [fst snd]; lia|].
    eapply Forall_impl; [|exact IH]. cbn beta. intros b Hb. lia.
  - rewrite Forall_forall in *. intros b Hb. apply IH. now apply remove_block_incl in Hb.
Qed.

Lemma high_water_pos (h : history) : 4096 <= high_water h.
Proof. induction h as [|[p n|p] h IH]; cbn [high_water]; lia. Qed.

Lemma bump_new_ok : allocator_ok bump_new.
Proof.
  intros h n p Hn. unfold bump_new.
  pose proof (high_water_pos h) as Hhw.
  assert (Hp : high_water h <= (high_water h + 15) / 16 * 16)
    by (Z.to_euclidean_division_equations; lia).
  destruct (Z.leb_spec ((high_water h + 15) / 16 * 16 + n) addr_limit) as [Hle|];
    [|discriminate].
  intros E. injection E as <-.
  split; [lia|]. split; [exact Hle|].
  eapply Forall_impl; [|exact (live_below_high_water h)].
  cbn beta. intros b Hb. right. lia.
Qed.

End BumpFacts.

(** ** One growth is enough: the retry loop ends *)

Module Totality.
Import Arena Chain Growth Inv BitFacts MemFacts FooterFacts GrowthFacts InvFacts ChainFacts.
Import GrowInv BlockInv AllocInv.

Section WithAllocator.

Variable sys_new : history -> Z -> option Z.

Lemma ensureSpace_no_timeout (size al : Z) (w : world) :
  ensureSpace sys_new size al w <> Err OutOfFuel.
Proof.
  unfold ensureSpace, AssertRelease, new_block.
  destruct (_ <=? _); cbn [bind]; [|discriminate].
  destruct (_ <=? _); cbn [bind]; [|discriminate].
  destruct (_ <=? _); cbn [bind]; [|discriminate].
  destruct (sys_new _ _); cbn [bind]; discriminate.
Qed.

Lemma first_fit_bounds (p al : Z) :
  0 < p -> p + 17 <= addr_limit -> 1 <= al <= 256 ->
  p + 17 <= first_fit p al <= p + 17 + (al - 1).
Proof.
  intros Hp Hlim Hal. unfold first_fit. apply align_up_bound; [lia | lia |].
  unfold addr_limit in Hlim. change (2 ^ 64) with 18446744073709551616. lia.
Qed.

(** In a fresh block the request fits at once. *)
Lemma allocObjectWithFooter_fresh (fuel : nat) (sif al p n : Z) (w : world) :
  arena w = mkArena (p + 17) (p + 17) (p + n)
                    (fNextHeapAlloc (arena w)) (fYetNextHeapAlloc (arena w)) ->
  0 < p -> p + n <= addr_limit -> 1 <= al <= 256 -> 0 <= sif <= maxSize ->
  sif + overhead + (al - 1) <= n ->
  allocObjectWithFooter sys_new (S fuel) sif al w = Ok (first_fit p al, w).
Proof.
  intros Ha Hp Hlim Hal Hsif Hn.
  rewrite allocObjectWithFooter_S. cbv zeta. unfold skip_overhead.
  rewrite (mask_small al Hal), Ha. proj.
  rewrite Z.eqb_refl. cbn [negb].
  destruct (Z.eqb_spec (p + 17) 0) as [E|_]; [lia|].
  assert (Hw : wrap32 (sif + 0) = sif).
  { rewrite Z.add_0_r. apply wrap32_small. unfold uint32. lia. }
  rewrite Hw. replace (p + 17 + 0 + (al - 1)) with (p + 17 + (al - 1)) by lia.
  fold (first_fit p al).
  assert (Hb : p + 17 <= first_fit p al <= p + 17 + (al - 1)).
  { apply first_fit_bounds; try lia. consts. lia. }
  destruct (Z.gtb_spec sif (p + n - first_fit p al)) as [Hbig|_]; [consts; lia|].
  destruct (Z.leb_spec sif (p + n - first_fit p al)) as [_|Habs]; [|consts; lia].
  cbn [AssertRelease bind]. reflexivity.
Qed.

Lemma allocObject_fresh (fuel : nat) (size al p n : Z) (w : world) :
  arena w = mkArena (p + 17) (p + 17) (p + n)
                    (fNextHeapAlloc (arena w)) (fYetNextHeapAlloc (arena w)) ->
  0 < p -> p + n <= addr_limit -> 1 <= al <= 256 -> 0 <= size <= maxSize ->
  size + overhead + (al - 1) <= n ->
  allocObject sys_new (S fuel) size al w = Ok (first_fit p al, w).
Proof.
  intros Ha Hp Hlim Hal Hsz Hn.
  rewrite allocObject_S. cbv zeta.
  rewrite (mask_small al Hal), Ha. proj.
  destruct (Z.eqb_spec (p + 17) 0) as [E|_]; [lia|].
  fold (first_fit p al).
  assert (Hb : p + 17 <= first_fit p al <= p + 17 + (al - 1)).
  { apply first_fit_bounds; try lia. consts. lia. }
  destruct (Z.gtb_spec size (p + n - first_fit p al)) as [Hbig|_]; [consts; lia|].
  reflexivity.
Qed.

End WithAllocator.

End Totality.

(** ** More fuel does not change a teardown *)

Module FuelFacts.
Import Arena Chain.



End FuelFacts.

(** ** An allocation that does not grow depends on the arena fields only *)

Module SameArena.
Import Arena Chain Growth Inv BitFacts MemFacts FooterFacts GrowthFacts InvFacts ChainFacts.
Import GrowInv BlockInv AllocInv.

Section WithAllocator.

Variable sys_new : history -> Z -> option Z.

Lemma ensureSpace_heap (size al : Z) (w w' : world) :
  ensureSpace sys_new size al w = Ok w' ->
  length (wheap w') = S (length (wheap w)).
Proof.
  unfold ensureSpace, AssertRelease, new_block.
  destruct (_ <=? _); cbn [bind]; [|discriminate].
  destruct (_ <=? _); cbn [bind]; [|discriminate].
  destruct (_ <=? _); cbn [bind]; [|discriminate].
  proj. destruct (sys_new _ _); cbn [bind]; [|discriminate].
  intros H. injection H as <-. reflexivity.
Qed.

Lemma allocObjectWithFooter_heap (fuel : nat) :
  forall (sif al o : Z) (w w' : world),
  allocObjectWithFooter sys_new fuel sif al w = Ok (o, w') ->
  (length (wheap w) <= length (wheap w'))%nat.
Proof.
  induction fuel as [|fuel IH]; intros sif al o w w' H; [discriminate|].
  rewrite allocObjectWithFooter_S in H. cbv zeta in H.
  assert (Hgrow : forall t,
            (w1 <- ensureSpace sys_new t al w ;;
             allocObjectWithFooter sys_new fuel sif al w1) = Ok (o, w') ->
            (length (wheap w) <= length (wheap w'))%nat).
  { intros t Ht. destruct (ensureSpace sys_new t al w) as [w1|] eqn:E; [|discriminate].
    cbn [bind] in Ht. apply ensureSpace_heap in E. apply IH in Ht. lia. }
  destruct (fCursor (arena w) =? 0); [exact (Hgrow _ H)|].
  destruct (_ >? _); [exact (Hgrow _ H)|].
  destruct (_ <=? _); cbn [AssertRelease bind] in H; [|discriminate].
  injection H as _ <-. destruct (negb _); [rewrite installFooter_heap|]; reflexivity.
Qed.

Lemma allocObject_heap (fuel : nat) :
  forall (size al o : Z) (w w' : world),
  allocObject sys_new fuel size al w = Ok (o, w') ->
  (length (wheap w) <= length (wheap w'))%nat.
Proof.
  induction fuel as [|fuel IH]; intros size al o w w' H; [discriminate|].
  rewrite allocObject_S in H. cbv zeta in H.
  assert (Hgrow :
            (w1 <- ensureSpace sys_new size al w ;;
             allocObject sys_new fuel size al w1) = Ok (o, w') ->
            (length (wheap w) <= length (wheap w'))%nat).
  { intros Ht. destruct (ensureSpace sys_new size al w) as [w1|] eqn:E; [|discriminate].
    cbn [bind] in Ht. apply ensureSpace_heap in E. apply IH in Ht. lia. }
  destruct (fCursor (arena w) =? 0); [exact (Hgrow H)|].
  destruct (_ >? _); [exact (Hgrow H)|].
  injection H as _ <-. reflexivity.
Qed.

(** Without growth, the address returned is a function of the arena. *)
Lemma allocObjectWithFooter_same (fuel : nat) (sif al o : Z) (w w' v : world) :
  arena v = arena w ->
  allocObjectWithFooter sys_new fuel sif al w = Ok (o, w') ->
  wheap w' = wheap w ->
  exists v', allocObjectWithFooter sys_new fuel sif al v = Ok (o, v') /\
             arena v' = arena w' /\ wheap v' = wheap v.
Proof.
  intros Ha H Hh. destruct fuel as [|fuel]; [discriminate|].
  rewrite allocObjectWithFooter_S in *. cbv zeta in *. rewrite Ha.
  assert (Hgrow : forall t,
            (w1 <- ensureSpace sys_new t al w ;;
             allocObjectWithFooter sys_new fuel sif al w1) = Ok (o, w') -> False).
  { intros t Ht. destruct (ensureSpace sys_new t al w) as [w1|] eqn:E; [|discriminate].
    cbn [bind] in Ht. apply ensureSpace_heap in E.
    apply allocObjectWithFooter_heap in Ht. rewrite Hh in Ht. lia. }
  destruct (fCursor (arena w) =? 0); [destruct (Hgrow _ H)|].
  destruct (_ >? _); [destruct (Hgrow _ H)|].
  destruct (_ <=? _); cbn [AssertRelease bind] in *; [|discriminate].
  injection H as <- <-. eexists. split; [reflexivity|].
  destruct (negb _).
  - rewrite !installFooter_arena, installFooter_heap.
    unfold installRaw. proj. rewrite Ha. split; reflexivity.
  - split; [exact Ha | reflexivity].
Qed.

Lemma allocObject_same (fuel : nat) (size al o : Z) (w w' v : world) :
  arena v = arena w ->
  allocObject sys_new fuel size al w = Ok (o, w') ->
  wheap w' = wheap w ->
  exists v', allocObject sys_new fuel size al v = Ok (o, v') /\
             arena v' = arena w' /\ wheap v' = wheap v.
Proof.
  intros Ha H Hh. destruct fuel as [|fuel]; [discriminate|].
  rewrite allocObject_S in *. cbv zeta in *. rewrite Ha.
  assert (Hgrow :
            (w1 <- ensureSpace sys_new size al w ;;
             allocObject sys_new fuel size al w1) = Ok (o, w') -> False).
  { intros Ht. destruct (ensureSpace sys_new size al w) as [w1|] eqn:E; [|discriminate].
    cbn [bind] in Ht. apply ensureSpace_heap in E.
    apply allocObject_heap in Ht. rewrite Hh in Ht. lia. }
  destruct (fCursor (arena w) =? 0); [destruct (Hgrow H)|].
  destruct (_ >? _); [destruct (Hgrow H)|].
  injection H as <- <-. eexists. split; [reflexivity|]. split; [exact Ha | reflexivity].
Qed.

Lemma allocate_same (fuel : nat) (rq : request) (p : Z) (w w' v : world) :
  arena v = arena w ->
  allocate sys_new fuel rq w = Ok (p, w') ->
  wheap w' = wheap w ->
  exists v', allocate sys_new fuel rq v = Ok (p, v').
Proof.
  intros Ha H Hh. unfold allocate in *. destruct (rdtor rq).
  - destruct (allocObjectWithFooter sys_new fuel _ (ralign rq) w) as [[o w1]|] eqn:E;
      [|discriminate].
    cbn [bind] in H. injection H as <- <-.
    rewrite installFooter_heap in Hh. unfold write_object, set_cursor in Hh. proj.
    cbn [wheap] in Hh.
    destruct (allocObjectWithFooter_same fuel _ _ o w w1 v Ha E Hh) as (v1 & -> & _).
    cbn [bind]. eexists. reflexivity.
  - destruct (allocObject sys_new fuel (rsize rq) (ralign rq) w) as [[o w1]|] eqn:E;
      [|discriminate].
    cbn [bind] in H. injection H as <- <-.
    unfold write_object, set_cursor in Hh. cbn [wheap] in Hh.
    destruct (allocObject_same fuel _ _ o w w1 v Ha E Hh) as (v1 & -> & _).
    cbn [bind]. eexists. reflexivity.
Qed.

End WithAllocator.

(** The teardown of a freshly constructed arena meets the sentinel, if
    there is one, and nothing else. *)
Lemma destroy_fresh (m : mem) (h : history) (block size hint : Z) (k : nat) :
  uint32 size -> (sizeof_Footer <= size -> 0 < block) -> (2 <= k)%nat ->
  destroy k (construct m h block size hint) = Some (sentinel (ghost0 block size), h).
Proof.
  intros Hsz Hblk Hk. unfold construct, ghost0, sentinel. cbn [g_first].
  destruct (Z.ltb_spec size sizeof_Footer) as [Hlt|Hge].
  - cbn [fCursor Z.eqb]. unfold destroy. proj.
    rewrite RunDtorsOnBlock_null by lia. reflexivity.
  - specialize (Hblk Hge). cbn [fCursor].
    destruct (Z.eqb_spec block 0) as [E|_]; [lia|].
    set (w0 := mkWorld m h _).
    destruct (installFooter_spec fn_end_chain 0 w0 block eq_refl)
      as (Ha & Hh & Hact & Hpad & _); [unfold fn_end_chain; lia | lia |].
    unfold destroy. rewrite Ha, Hh. proj.
    rewrite (walks_run _ (block + 9) [(block + 9 - 9, block + 9)] [EvEndChain (block + 9)]).
    + reflexivity.
    + constructor; [lia| |].
      * replace (block + 9 - 9) with block by lia. exact Hact.
      * replace (block + 9 - 1) with (block + 8) by lia. exact Hpad.
    + cbn [length]. lia.
Qed.

End SameArena.

(** ** The sequence of block sizes *)

Module GrowthSeq.
Import Arena Growth GrowthFacts FooterFacts AllocInv.

Lemma advance_ext (a b : SkArenaAlloc) :
  fNextHeapAlloc a = fNextHeapAlloc b -> fYetNextHeapAlloc a = fYetNextHeapAlloc b ->
  fNextHeapAlloc (advance a) = fNextHeapAlloc (advance b) /\
  fYetNextHeapAlloc (advance a) = fYetNextHeapAlloc (advance b).
Proof.
  intros Hn Hy. unfold advance. rewrite Hn, Hy.
  destruct (_ <=? _); cbn [fNextHeapAlloc fYetNextHeapAlloc]; split; reflexivity.
Qed.

Lemma advance_counters_ok (a : SkArenaAlloc) :
  counters_ok a ->
  counters_ok (advance a) /\ fNextHeapAlloc a <= fNextHeapAlloc (advance a).
Proof.
  intros (Hn & Hy & Hm).
  destruct (advance_counters a) as [A B]; [unfold uint32; lia | unfold uint32; lia |].
  destruct (Z.le_gt_cases (fYetNextHeapAlloc a) (maxSize - fNextHeapAlloc a)) as [H|H].
  - destruct (A H) as [E1 E2]. unfold counters_ok. rewrite E1, E2. lia.
  - destruct (B ltac:(lia)) as [E1 E2]. unfold counters_ok. rewrite E1, E2. lia.
Qed.

Lemma iter_advance_ok (k : nat) (a : SkArenaAlloc) :
  counters_ok a -> counters_ok (Nat.iter k advance a).
Proof.
  intros H. induction k as [|k IH]; cbn [Nat.iter]; [exact H|].
  now apply advance_counters_ok.
Qed.

Lemma min_sizes_snoc (k : nat) :
  forall a, min_sizes (S k) a
            = min_sizes k a ++ [fNextHeapAlloc (Nat.iter k advance a)].
Proof.
  induction k as [|k IH]; intros a; [reflexivity|].
  change (min_sizes (S (S k)) a) with (fNextHeapAlloc a :: min_sizes (S k) (advance a)).
  rewrite IH, <- Nat.iter_succ_r. reflexivity.
Qed.

Lemma min_sizes_nondecreasing (k : nat) :
  forall a, counters_ok a -> nondecreasing (min_sizes k a).
Proof.
  induction k as [|k IH]; intros a Ha; [exact I|].
  destruct (advance_counters_ok a Ha) as [Ha' Hle].
  specialize (IH (advance a) Ha').
  cbn [min_sizes]. destruct k as [|k]; [exact I|].
  cbn [min_sizes nondecreasing] in *. split; [exact Hle | exact IH].
Qed.

Lemma construct_counters_ok (m : mem) (h : history) (block size hint : Z) :
  counters_ok (arena (construct m h block size hint)).
Proof.
  assert (H : 1 <= first_allocated_block (ToU32 size) (ToU32 hint) <= maxSize).
  { unfold first_allocated_block, ToU32.
    pose proof (wrap32_range size) as H1. pose proof (wrap32_range hint) as H2.
    unfold uint32 in *.
    destruct (Z.gtb_spec (wrap32 hint) 0); [lia|].
    destruct (Z.gtb_spec (wrap32 size) 0); [lia|]. unfold maxSize. lia. }
  unfold construct. destruct (size <? sizeof_Footer); cbn [fCursor].
  - cbn [Z.eqb]. unfold counters_ok. proj. lia.
  - destruct (block =? 0); [unfold counters_ok; proj; lia|].
    rewrite installFooter_arena. unfold counters_ok. proj. lia.
Qed.

Section WithAllocator.

Variable sys_new : history -> Z -> option Z.

Section Preserved.

(** A property of the heap and the two counters that [ensureSpace] keeps
    is kept by every allocation. *)
Variable Q : history -> Z -> Z -> Prop.

Hypothesis ensureSpace_keeps :
  forall size al w w', holds_on Q w -> ensureSpace sys_new size al w = Ok w' -> holds_on Q w'.

Lemma allocObjectWithFooter_keeps (fuel : nat) :
  forall sif al o w w',
  holds_on Q w -> allocObjectWithFooter sys_new fuel sif al w = Ok (o, w') -> holds_on Q w'.
Proof.
  induction fuel as [|fuel IH]; intros sif al o w w' Hq H; [discriminate|].
  rewrite allocObjectWithFooter_S in H. cbv zeta in H.
  assert (Hgrow : forall t,
            (w1 <- ensureSpace sys_new t al w ;;
             allocObjectWithFooter sys_new fuel sif al w1) = Ok (o, w') -> holds_on Q w').
  { intros t Ht. destruct (ensureSpace sys_new t al w) as [w1|] eqn:E; [|discriminate].
    cbn [bind] in Ht. refine (IH _ _ _ w1 _ _ Ht).
    now apply (ensureSpace_keeps t al w). }
  destruct (fCursor (arena w) =? 0); [exact (Hgrow _ H)|].
  destruct (_ >? _); [exact (Hgrow _ H)|].
  destruct (_ <=? _); cbn [AssertRelease bind] in H; [|discriminate].
  injection H as _ <-. destruct (negb _); [|exact Hq].
  unfold holds_on. rewrite installFooter_arena, installFooter_heap. exact Hq.
Qed.

Lemma allocObject_keeps (fuel : nat) :
  forall size al o w w',
  holds_on Q w -> allocObject sys_new fuel size al w = Ok (o, w') -> holds_on Q w'.
Proof.
  induction fuel as [|fuel IH]; intros size al o w w' Hq H; [discriminate|].
  rewrite allocObject_S in H. cbv zeta in H.
  assert (Hgrow :
            (w1 <- ensureSpace sys_new size al w ;;
             allocObject sys_new fuel size al w1) = Ok (o, w') -> holds_on Q w').
  { intros Ht. destruct (ensureSpace sys_new size al w) as [w1|] eqn:E; [|discriminate].
    cbn [bind] in Ht. refine (IH _ _ _ w1 _ _ Ht).
    now apply (ensureSpace_keeps size al w). }
  destruct (fCursor (arena w) =? 0); [exact (Hgrow H)|].
  destruct (_ >? _); [exact (Hgrow H)|].
  injection H as _ <-. exact Hq.
Qed.

Lemma allocate_keeps (fuel : nat) (rq : request) (p : Z) (w w' : world) :
  holds_on Q w -> allocate sys_new fuel rq w = Ok (p, w') -> holds_on Q w'.
Proof.
  intros Hq H. unfold allocate in H. destruct (rdtor rq).
  - destruct (allocObjectWithFooter sys_new fuel _ (ralign rq) w) as [[o w1]|] eqn:E;
      [|discriminate].
    cbn [bind] in H. injection H as _ <-.
    apply allocObjectWithFooter_keeps in E; [|exact Hq].
    unfold holds_on. rewrite installFooter_arena, installFooter_heap. exact E.
  - destruct (allocObject sys_new fuel (rsize rq) (ralign rq) w) as [[o w1]|] eqn:E;
      [|discriminate].
    cbn [bind] in H. injection H as _ <-.
    apply allocObject_keeps in E; [|exact Hq]. exact E.
Qed.

Lemma allocate_all_keeps (fuel : nat) (rqs : list request) :
  forall ps w w', holds_on Q w -> allocate_all sys_new fuel rqs w = Ok (ps, w') -> holds_on Q w'.
Proof.
  induction rqs as [|rq rqs IH]; intros ps w w' Hq H; cbn [allocate_all] in H.
  - injection H as _ <-. exact Hq.
  - destruct (allocate sys_new fuel rq w) as [[p w1]|] eqn:E; [|discriminate].
    cbn [bind] in H.
    destruct (allocate_all sys_new fuel rqs w1) as [[ps' w2]|] eqn:E2; [|discriminate].
    cbn [bind] in H. injection H as _ <-.
    apply (IH ps' w1); [|exact E2]. now apply (allocate_keeps fuel rq p w).
Qed.

End Preserved.

(** Whatever the request, a block that [ensureSpace] creates is at least
    the current [fNextHeapAlloc] and fits the 32-bit size type. *)
Lemma ensureSpace_grows (size al : Z) (w w' : world) :
  uint32 (fNextHeapAlloc (arena w)) ->
  ensureSpace sys_new size al w = Ok w' ->
  exists p n,
    wheap w' = HNew p n :: wheap w /\
    fNextHeapAlloc (arena w) <= n <= maxSize /\
    fNextHeapAlloc (arena w') = fNextHeapAlloc (advance (arena w)) /\
    fYetNextHeapAlloc (arena w') = fYetNextHeapAlloc (advance (arena w)).
Proof.
  intros Hn. unfold ensureSpace, AssertRelease.
  destruct (_ <=? _); cbn [bind]; [|discriminate].
  destruct (_ <=? _); cbn [bind]; [|discriminate].
  set (s := Z.max _ (fNextHeapAlloc (arena w))).
  assert (Hs : fNextHeapAlloc (arena w) <= s) by (unfold s; lia).
  destruct (Z.leb_spec s (maxSize - round_mask s)) as [H3|]; cbn [bind]; [|discriminate].
  rewrite rounded_size by (unfold uint32 in Hn; lia).
  unfold new_block. proj.
  destruct (sys_new _ _) as [p|]; cbn [bind]; [|discriminate].
  intros H. injection H as <-.
  exists p, (round_up s (if s >? 32768 then 4096 else 16)).
  rewrite installFooter_heap, installFooter_arena. unfold installRaw. proj.
  split; [reflexivity|]. split; [|split; reflexivity].
  pose proof (round_up_ge s). split; [lia|].
  apply round_up_fits; [unfold uint32 in Hn; lia | lia].
Qed.

(** Growth respects the sequence of minimum sizes. *)
Lemma ensureSpace_growth_inv (a0 : SkArenaAlloc) (h0 : history)
      (size al : Z) (w w' : world) :
  counters_ok a0 ->
  growth_inv a0 h0 w -> ensureSpace sys_new size al w = Ok w' -> growth_inv a0 h0 w'.
Proof.
  intros Ha0 (blks & Hh & Hf & Hn & Hy) H.
  pose proof (iter_advance_ok (length blks) a0 Ha0) as (Hk1 & Hk2 & _).
  destruct (ensureSpace_grows size al w w') as (p & n & Hh' & Hn' & En & Ey);
    [rewrite Hn; unfold uint32; lia | exact H |].
  destruct (advance_ext (arena w) (Nat.iter (length blks) advance a0) Hn Hy) as [X1 X2].
  exists (blks ++ [(p, n)]). rewrite length_app. cbn [length].
  replace (length blks + 1)%nat with (S (length blks)) by lia.
  split; [|split; [|split]].
  - rewrite Hh', Hh, map_app, rev_app_distr. reflexivity.
  - rewrite min_sizes_snoc. apply Forall2_app; [exact Hf|].
    constructor; [|constructor]. cbn [snd]. rewrite <- Hn. exact Hn'.
  - cbn [Nat.iter]. now rewrite En, X1.
  - cbn [Nat.iter]. now rewrite Ey, X2.
Qed.

(** From construction on, block sizes follow the growth sequence. *)
Lemma allocate_all_growth_inv (fuel : nat) (m : mem) (h0 : history)
      (block size hint : Z) (rqs : list request) (ps : list Z) (w : world) :
  allocate_all sys_new fuel rqs (construct m h0 block size hint) = Ok (ps, w) ->
  growth_inv (arena (construct m h0 block size hint)) h0 w.
Proof.
  intros H.
  pose proof (construct_counters_ok m h0 block size hint) as Hc.
  set (w0 := construct m h0 block size hint) in *.
  apply (allocate_all_keeps
           (fun h n y => exists v, wheap v = h /\ fNextHeapAlloc (arena v) = n /\
                                   fYetNextHeapAlloc (arena v) = y /\
                                   growth_inv (arena w0) h0 v)) in H.
  - destruct H as (v & Eh & En & Ey & blks & G1 & G2 & G3 & G4).
    exists blks. rewrite <- Eh, <- En, <- Ey. tauto.
  - intros sz al u u' (v & Eh & En & Ey & G) E.
    exists u'. repeat split.
    apply (ensureSpace_growth_inv (arena w0) h0 sz al u u' Hc); [|exact E].
    destruct G as (blks & G1 & G2 & G3 & G4). exists blks.
    rewrite <- Eh, <- En, <- Ey. tauto.
  - exists w0. repeat split. exists []. cbn [length Nat.iter min_sizes map rev app].
    repeat split; try reflexivity; try constructor.
    unfold w0, construct. destruct (size <? sizeof_Footer); cbn [fCursor].
    + destruct (0 =? 0); reflexivity.
    + destruct (block =? 0); reflexivity.
Qed.

End WithAllocator.

End GrowthSeq.

(** ** Two rounds of the retry loop always suffice *)

Module Termination.
Import Arena Chain Growth Inv BitFacts MemFacts FooterFacts GrowthFacts InvFacts ChainFacts.
Import GrowInv BlockInv AllocInv Totality.

Section WithAllocator.

Variable sys_new : history -> Z -> option Z.
Hypothesis sys_new_ok : allocator_ok sys_new.

Lemma allocObjectWithFooter_no_timeout (fuel : nat) (h0 : history) (w : world)
      (g : ghost) (sif al : Z) :
  inv h0 w g -> 1 <= al <= 256 -> 9 <= sif <= maxSize - 13 ->
  allocObjectWithFooter sys_new (S (S fuel)) sif al w <> Err OutOfFuel.
Proof.
  intros I Hal Hsif. rewrite allocObjectWithFooter_S. cbv zeta.
  assert (Hso : 0 <= skip_overhead (arena w) <= 13).
  { unfold skip_overhead. destruct (negb _); consts; lia. }
  set (so := skip_overhead (arena w)) in *.
  assert (Hts : wrap32 (sif + so) = sif + so).
  { apply wrap32_small. unfold uint32, maxSize in *. lia. }
  rewrite Hts.
  assert (Hgrow : (w1 <- ensureSpace sys_new (sif + so) al w ;;
                   allocObjectWithFooter sys_new (S fuel) sif al w1) <> Err OutOfFuel).
  { destruct (ensureSpace sys_new (sif + so) al w) as [w1|e] eqn:E; cbn [bind].
    - destruct (ensureSpace_inv sys_new sys_new_ok h0 w w1 g (sif + so) al I) as
          (p & n & _ & _ & A1 & Hp & Hlim & Hn);
        [unfold uint32, maxSize in *; lia | exact E |].
      rewrite (mask_small al Hal) in Hn.
      rewrite (allocObjectWithFooter_fresh sys_new fuel sif al p n w1 A1 Hp Hlim Hal);
        [discriminate | unfold maxSize in *; lia | lia].
    - intros X. injection X as ->. now apply ensureSpace_no_timeout in E. }
  destruct (fCursor (arena w) =? 0); [exact Hgrow|].
  destruct (_ >? _); [exact Hgrow|].
  destruct (_ <=? _); cbn [AssertRelease bind]; discriminate.
Qed.

Lemma allocObject_no_timeout (fuel : nat) (h0 : history) (w : world)
      (g : ghost) (size al : Z) :
  inv h0 w g -> 1 <= al <= 256 -> 0 <= size <= maxSize ->
  allocObject sys_new (S (S fuel)) size al w <> Err OutOfFuel.
Proof.
  intros I Hal Hsz. rewrite allocObject_S. cbv zeta.
  assert (Hgrow : (w1 <- ensureSpace sys_new size al w ;;
                   allocObject sys_new (S fuel) size al w1) <> Err OutOfFuel).
  { destruct (ensureSpace sys_new size al w) as [w1|e] eqn:E; cbn [bind].
    - destruct (ensureSpace_inv sys_new sys_new_ok h0 w w1 g size al I) as
          (p & n & _ & _ & A1 & Hp & Hlim & Hn); [exact Hsz | exact E |].
      rewrite (mask_small al Hal) in Hn.
      rewrite (allocObject_fresh sys_new fuel size al p n w1 A1 Hp Hlim Hal);
        [discriminate | exact Hsz | lia].
    - intros X. injection X as ->. now apply ensureSpace_no_timeout in E. }
  destruct (fCursor (arena w) =? 0); [exact Hgrow|].
  destruct (_ >? _); [exact Hgrow | discriminate].
Qed.

(** An allocation returns or aborts; it does not loop. *)
Lemma allocate_no_timeout (fuel : nat) (h0 : history) (w : world) (g : ghost)
      (rq : request) :
  inv h0 w g -> wf_request rq ->
  allocate sys_new (S (S fuel)) rq w <> Err OutOfFuel.
Proof.
  intros I [Hal Hsz]. unfold allocate. destruct (rdtor rq).
  - assert (Hsif : wrap32 (rsize rq + sizeof_Footer) = rsize rq + 9).
    { apply wrap32_small. unfold uint32. consts. lia. }
    rewrite Hsif.
    pose proof (allocObjectWithFooter_no_timeout fuel h0 w g (rsize rq + 9) (ralign rq) I Hal)
      as H.
    destruct (allocObjectWithFooter sys_new (S (S fuel)) _ _ w) as [[o w1]|e]; cbn [bind].
    + discriminate.
    + intros X. injection X as ->. apply H; [unfold maxSize in *; lia | reflexivity].
  - pose proof (allocObject_no_timeout fuel h0 w g (rsize rq) (ralign rq) I Hal) as H.
    destruct (allocObject sys_new (S (S fuel)) _ _ w) as [[o w1]|e]; cbn [bind].
    + discriminate.
    + intros X. injection X as ->. apply H; [unfold maxSize in *; lia | reflexivity].
Qed.

Lemma allocate_all_no_timeout (fuel : nat) (rqs : list request) :
  forall (h0 : history) (w : world) (g : ghost) (acc : Z),
  inv h0 w g -> Forall wf_request rqs ->
  fCursor (arena w) - fDtorCursor (arena w) <= acc -> short_runs acc rqs ->
  allocate_all sys_new (S (S fuel)) rqs w <> Err OutOfFuel.
Proof.
  induction rqs as [|rq rqs IH]; intros h0 w g acc I Hwf Hacc Hruns;
    cbn [allocate_all]; [discriminate|].
  inversion Hwf as [|? ? Hrq Hwf']; subst. cbn [short_runs] in Hruns.
  pose proof (allocate_no_timeout fuel h0 w g rq I Hrq) as H1.
  destruct (allocate sys_new (S (S fuel)) rq w) as [[p w1]|e] eqn:E; cbn [bind].
  - destruct (allocate_inv sys_new sys_new_ok (S (S fuel)) h0 w w1 g rq p I Hrq) as
        (g1 & _ & I1 & _ & _ & Hgap); [|exact E|].
    { intros Hd. rewrite Hd in Hruns. lia. }
    assert (H2 : allocate_all sys_new (S (S fuel)) rqs w1 <> Err OutOfFuel).
    { apply (IH h0 w1 (note rq p g1)
                (if rdtor rq then 0 else acc + rsize rq + ralign rq) I1 Hwf').
      - destruct (rdtor rq); lia.
      - destruct (rdtor rq); tauto. }
    destruct (allocate_all sys_new (S (S fuel)) rqs w1) as [[ps w2]|e]; cbn [bind].
    + discriminate.
    + intros X. injection X as ->. now apply H2.
  - intros X. injection X as ->. now apply H1.
Qed.

End WithAllocator.

End Termination.

(** ** Destruction order and block ownership *)

Module Claims.
Import Arena Chain Growth Inv BitFacts MemFacts FooterFacts GrowthFacts InvFacts ChainFacts.
Import GrowInv BlockInv AllocInv Teardown Totality FuelFacts SameArena GrowthSeq BumpFacts Examples.

Lemma filter_dtor_events (f : event -> bool) (objs : list (Z * Z)) :
  (forall a s, f (EvDtor a s) = false) -> filter f (dtor_events objs) = [].
Proof.
  intros H. induction objs as [|o objs IH]; cbn [dtor_events map filter]; [reflexivity|].
  rewrite H. exact IH.
Qed.

Lemma filter_delete_events_all (blks : list (Z * Z)) :
  filter is_delete (delete_events blks) = delete_events blks.
Proof.
  induction blks as [|b blks IH]; cbn [delete_events map filter is_delete]; [reflexivity|].
  f_equal. exact IH.
Qed.




Lemma run4_ok :
  allocate_all bump_new 2 rqs4 (construct m0 h64 4096 64 0) = Ok (ps4, w4).
Proof.
  assert (H : is_ok (allocate_all bump_new 2 rqs4 (construct m0 h64 4096 64 0)) = true)
    by (vm_compute; reflexivity).
  unfold ps4, w4.
  destruct (allocate_all bump_new 2 rqs4 (construct m0 h64 4096 64 0)) as [[ps w]|e];
    [reflexivity | discriminate].
Qed.

Lemma run_mixed_ok :
  allocate_all bump_new 2 rqs_mixed (construct m0 h64 4096 64 0) = Ok (ps_mixed, w_mixed).
Proof.
  assert (H : is_ok (allocate_all bump_new 2 rqs_mixed (construct m0 h64 4096 64 0)) = true)
    by (vm_compute; reflexivity).
  unfold ps_mixed, w_mixed.
  destruct (allocate_all bump_new 2 rqs_mixed (construct m0 h64 4096 64 0)) as [[ps w]|e];
    [reflexivity | discriminate].
Qed.

Lemma h64_ok : caller_block_ok h64 4096 64.
Proof.
  split; [unfold uint32, maxSize; lia|]. intros _.
  split; [lia|]. split; [unfold addr_limit; lia|]. now left.
Qed.


Lemma rqs_mixed_wf : Forall wf_request rqs_mixed.
Proof. repeat constructor; cbn [rsize ralign obj pod]; unfold maxSize; lia. Qed.

Lemma construct_no_run (m : mem) (h : history) (block size hint : Z) :
  fCursor (arena (construct m h block size hint))
  - fDtorCursor (arena (construct m h block size hint)) <= 0.
Proof.
  unfold construct. destruct (size <? sizeof_Footer); cbn [fCursor].
  - cbn. lia.
  - destruct (block =? 0); [cbn [arena fCursor fDtorCursor]; lia|].
    rewrite installFooter_arena. cbn [fCursor fDtorCursor]. lia.
Qed.

Section WithAllocator.

Variable sys_new : history -> Z -> option Z.

(** From construction on, a sequence of allocations returns or aborts;
    no allocation takes the restart more than once. *)
Lemma lifetime_no_timeout (f : nat) (m : mem) (h0 : history) (block size hint : Z)
      (rqs : list request) :
  allocator_ok sys_new -> caller_block_ok h0 block size ->
  Forall wf_request rqs -> short_runs 0 rqs ->
  allocate_all sys_new (S (S f)) rqs (construct m h0 block size hint) <> Err OutOfFuel.
Proof.
  intros Hok Hblk Hwf Hruns.
  destruct (construct_inv m h0 block size hint Hblk) as [I0 _].
  apply (Termination.allocate_all_no_timeout sys_new Hok f rqs h0 _ (ghost0 block size) 0 I0);
    [exact Hwf | apply construct_no_run | exact Hruns].
Qed.


End WithAllocator.





(** Block ownership, where every run of trivially destructible data that
    an object follows is shorter than 2 GiB: the teardown frees the heap
    blocks that growth created, each exactly once and no other block; the
    caller's first block is not among them, and no block is freed while the
    arena allocates. *)
Theorem heap_blocks_freed_once (sys_new : history -> Z -> option Z) (fuel : nat)
        (m : mem) (h0 : history) (block size hint : Z)
        (rqs : list request) (ps : list Z) (w : world) :
  allocator_ok sys_new ->
  caller_block_ok h0 block size ->
  Forall wf_request rqs -> short_runs 0 rqs ->
  allocate_all sys_new fuel rqs (construct m h0 block size hint) = Ok (ps, w) ->
  exists blks,
    wheap w = news blks ++ h0 /\
    NoDup (map fst blks) /\
    (0 < size -> In (block, size) (live h0) -> ~ In block (map fst blks)) /\
    exists fuel0, forall k, (fuel0 <= k)%nat ->
      exists tr,
        destroy k w = Some (tr, apply_deletes tr (wheap w)) /\
        filter is_delete tr = delete_events blks.
Proof.
  intros Hok Hblk Hwf Hruns H.
  destruct (arena_lifetime sys_new Hok fuel m h0 block size hint rqs ps w Hblk Hwf Hruns H)
    as (blks & I & _).
  exists blks. split; [exact (inv_heap _ _ _ I)|]. split; [exact (inv_nodup _ _ _ I)|].
  split.
  - intros Hsz Hin Hb. apply in_map_iff in Hb. destruct Hb as (b & Eb & Hb).
    pose proof (inv_fresh _ _ _ I) as F. cbn [g_blks] in F.
    unfold fresh_blocks in F. rewrite Forall_forall in F.
    pose proof (F b Hb) as Fb. rewrite Forall_forall in Fb.
    pose proof (Fb _ Hin) as D. cbn [fst snd] in D.
    pose proof (inv_owned _ _ _ I) as G. rewrite Forall_forall in G.
    assert (Hbo : In b (owned (mkGhost (g_first (ghost0 block size))
                                       (rev (dtor_objs ps rqs)) blks))).
    { unfold owned. cbn [g_blks]. apply in_or_app. now right. }
    destruct (G b Hbo) as (? & ? & ?). unfold disjoint in D. lia.
  - destruct (destroy_expected h0 w _ I) as (fuel0 & Hrun).
    exists fuel0. intros k Hk. rewrite (Hrun k Hk). eexists. split; [reflexivity|].
    unfold expected. cbn [g_objs g_blks].
    rewrite !filter_app, filter_delete_events_all.
    rewrite filter_dtor_events by reflexivity.
    unfold sentinel. destruct (g_first _); reflexivity.
Qed.

Lemma heap_blocks_freed_once_witness :
  exists blks,
    wheap w_mixed = news blks ++ h64 /\
    NoDup (map fst blks) /\
    (0 < 64 -> In (4096, 64) (live h64) -> ~ In 4096 (map fst blks)) /\
    exists fuel0, forall k, (fuel0 <= k)%nat ->
      exists tr,
        destroy k w_mixed = Some (tr, apply_deletes tr (wheap w_mixed)) /\
        filter is_delete tr = delete_events blks.
Proof.
  apply (heap_blocks_freed_once bump_new 2 m0 h64 4096 64 0 rqs_mixed ps_mixed w_mixed).
  - exact bump_new_ok.
  - exact h64_ok.
  - exact rqs_mixed_wf.
  - cbn [short_runs rqs_mixed obj pod rdtor rsize ralign]. repeat split; lia.
  - exact run_mixed_ok.
Defined.




(** *** The first allocation of an arena whose cursors are null *)

Lemma first_fit_in_block (q al : Z) :
  0 < q -> q + 17 <= addr_limit -> 1 <= al <= maxSize ->
  q + 17 <= first_fit q al <= q + 17 + (al - 1).
Proof.
  intros Hq Hlim Hal. unfold first_fit. apply align_up_bound; [lia | lia |].
  unfold addr_limit, maxSize in *. change (2 ^ 64) with 18446744073709551616. lia.
Qed.

Section FirstAllocation.

Variable sys_new : history -> Z -> option Z.

Lemma footer_fits_new_block (fuel : nat) (sif al q n : Z) (w : world) :
  arena w = mkArena (q + 17) (q + 17) (q + n)
                    (fNextHeapAlloc (arena w)) (fYetNextHeapAlloc (arena w)) ->
  0 < q -> q + n <= addr_limit -> 1 <= al <= maxSize -> 0 <= sif <= maxSize ->
  sif + overhead + (al - 1) <= n ->
  allocObjectWithFooter sys_new (S fuel) sif al w = Ok (first_fit q al, w).
Proof.
  intros Ha Hq Hlim Hal Hsif Hn.
  rewrite allocObjectWithFooter_S. cbv zeta. unfold skip_overhead.
  rewrite (wrap32_small (al - 1)) by (unfold uint32; lia). rewrite Ha. proj.
  rewrite Z.eqb_refl. cbn [negb].
  destruct (Z.eqb_spec (q + 17) 0) as [E|_]; [lia|].
  assert (Hw : wrap32 (sif + 0) = sif).
  { rewrite Z.add_0_r. apply wrap32_small. unfold uint32. lia. }
  rewrite Hw. replace (q + 17 + 0 + (al - 1)) with (q + 17 + (al - 1)) by lia.
  fold (first_fit q al).
  assert (Hb : q + 17 <= first_fit q al <= q + 17 + (al - 1)).
  { apply first_fit_in_block; try lia. consts. lia. }
  destruct (Z.gtb_spec sif (q + n - first_fit q al)) as [Hbig|_]; [consts; lia|].
  destruct (Z.leb_spec sif (q + n - first_fit q al)) as [_|Habs]; [|consts; lia].
  reflexivity.
Qed.

Lemma pod_fits_new_block (fuel : nat) (size al q n : Z) (w : world) :
  arena w = mkArena (q + 17) (q + 17) (q + n)
                    (fNextHeapAlloc (arena w)) (fYetNextHeapAlloc (arena w)) ->
  0 < q -> q + n <= addr_limit -> 1 <= al <= maxSize -> 0 <= size <= maxSize ->
  size + overhead + (al - 1) <= n ->
  allocObject sys_new (S fuel) size al w = Ok (first_fit q al, w).
Proof.
  intros Ha Hq Hlim Hal Hsz Hn.
  rewrite allocObject_S. cbv zeta.
  rewrite (wrap32_small (al - 1)) by (unfold uint32; lia). rewrite Ha. proj.
  destruct (Z.eqb_spec (q + 17) 0) as [E|_]; [lia|].
  fold (first_fit q al).
  assert (Hb : q + 17 <= first_fit q al <= q + 17 + (al - 1)).
  { apply first_fit_in_block; try lia. consts. lia. }
  destruct (Z.gtb_spec size (q + n - first_fit q al)) as [Hbig|_]; [consts; lia|].
  reflexivity.
Qed.

(** With null cursors both allocation paths call [ensureSpace] and start
    again. *)
Lemma null_cursor_footer (fuel : nat) (sif al : Z) (w : world) :
  fCursor (arena w) = 0 -> fDtorCursor (arena w) = 0 -> 0 <= sif <= maxSize ->
  allocObjectWithFooter sys_new (S fuel) sif al w =
  (w1 <- ensureSpace sys_new sif al w ;; allocObjectWithFooter sys_new fuel sif al w1).
Proof.
  intros Hc Hd Hsif. rewrite allocObjectWithFooter_S. cbv zeta.
  unfold skip_overhead. rewrite Hc, Hd. cbn [Z.eqb negb].
  rewrite Z.add_0_r, (wrap32_small sif) by (unfold uint32; lia). reflexivity.
Qed.

Lemma null_cursor_pod (fuel : nat) (size al : Z) (w : world) :
  fCursor (arena w) = 0 ->
  allocObject sys_new (S fuel) size al w =
  (w1 <- ensureSpace sys_new size al w ;; allocObject sys_new fuel size al w1).
Proof.
  intros Hc. rewrite allocObject_S. cbv zeta. rewrite Hc. reflexivity.
Qed.

(** The first allocation of an arena with null cursors: it aborts when a
    size leaves the 32-bit range, fails when the system allocator does, and
    otherwise returns the first aligned address behind the header of the
    block the system allocator gave, writing inside that block only. *)
Lemma first_allocation (fuel : nat) (w : world) (rq : request) :
  allocator_ok sys_new ->
  fCursor (arena w) = 0 -> fDtorCursor (arena w) = 0 ->
  uint32 (fNextHeapAlloc (arena w)) ->
  uint32 (ralign rq) -> 0 <= rsize rq ->
  uint32 (if rdtor rq then rsize rq + sizeof_Footer else rsize rq) ->
  let sz := if rdtor rq then rsize rq + sizeof_Footer else rsize rq in
  let n := block_size sz (ralign rq) (arena w) in
  (sizes_fit sz (ralign rq) (arena w) = false ->
   allocate sys_new (S (S fuel)) rq w = Err AssertFail) /\
  (sizes_fit sz (ralign rq) (arena w) = true -> sys_new (wheap w) n = None ->
   allocate sys_new (S (S fuel)) rq w = Err BadAlloc) /\
  (forall q, sizes_fit sz (ralign rq) (arena w) = true -> sys_new (wheap w) n = Some q ->
     exists w',
       allocate sys_new (S (S fuel)) rq w = Ok (first_fit q (ralign rq), w') /\
       wheap w' = HNew q n :: wheap w /\
       q + 17 <= first_fit q (ralign rq) /\
       first_fit q (ralign rq) + rsize rq <= q + n /\
       (forall x, ~ (q <= x < q + n) -> wmem w' x = wmem w x) /\
       Forall (fun b => disjoint q n (fst b) (snd b)) (live (wheap w))).
Proof.
  intros Hok Hc Hd Hnext Hal0 Hsize Hu. cbv zeta.
  set (al := ralign rq) in *.
  set (sz := if rdtor rq then rsize rq + sizeof_Footer else rsize rq) in *.
  assert (Hsz : rsize rq <= sz <= rsize rq + 9).
  { unfold sz. destruct (rdtor rq); consts; lia. }
  set (n := block_size sz al (arena w)).
  assert (Hall : allocate sys_new (S (S fuel)) rq w =
                 r <- (w1 <- ensureSpace sys_new sz al w ;;
                       if rdtor rq then allocObjectWithFooter sys_new (S fuel) sz al w1
                       else allocObject sys_new (S fuel) sz al w1) ;;
                 let '(objStart, w1) := r in
                 if rdtor rq then
                   Ok (objStart,
                       installFooter (fn_releaser (rsize rq))
                         (ToU32 (objStart - fCursor (arena w1)))
                         (write_object objStart (rsize rq) (rinit rq)
                            (set_cursor (objStart + rsize rq) w1)))
                 else
                   Ok (objStart, write_object objStart (rsize rq) (rinit rq)
                                   (set_cursor (objStart + rsize rq) w1))).
  { unfold allocate. revert Hu. subst sz. destruct (rdtor rq); intros Hu.
    - rewrite (wrap32_small _ Hu).
      rewrite null_cursor_footer by (try assumption; exact Hu).
      reflexivity.
    - rewrite null_cursor_pod by assumption. reflexivity. }
  rewrite Hall, (ensureSpace_eq sys_new sz al w Hu Hnext). fold n.
  destruct (sizes_fit sz al (arena w)) eqn:Hfit.
  2:{ split; [reflexivity|]. split; intros; discriminate. }
  split; [discriminate|].
  destruct (sys_new (wheap w) n) as [q0|] eqn:Hq.
  2:{ split; [reflexivity|]. intros; discriminate. }
  split; [discriminate|]. intros q _ E. injection E as <-. cbn [bind].
  apply sizes_fit_true in Hfit; [|exact Hu|exact Hnext].
  destruct Hfit as (_ & Hobj & Hmax). fold n in Hmax.
  pose proof (round_up_ge (allocationSize sz al (arena w))) as Hlow.
  fold (block_size sz al (arena w)) in Hlow. fold n in Hlow.
  assert (Hal : 1 <= al <= maxSize).
  { destruct (Z.eq_dec al 0) as [E0|N0]; [|unfold uint32 in Hal0; lia].
    exfalso. unfold objSizeAndOverhead in Hobj. rewrite E0 in Hobj.
    change (wrap32 (0 - 1)) with maxSize in Hobj. consts. lia. }
  assert (Hm : wrap32 (al - 1) = al - 1) by (apply wrap32_small; unfold uint32; lia).
  assert (Hn : sz + overhead + (al - 1) <= n).
  { unfold allocationSize, objSizeAndOverhead in Hlow. rewrite Hm in Hlow. lia. }
  assert (Hpos : 0 < n) by (consts; lia).
  destruct (Hok _ _ _ Hpos Hq) as (Hq0 & Hlim & Hdis).
  assert (Hb : q0 + 17 <= first_fit q0 al <= q0 + 17 + (al - 1)).
  { apply first_fit_in_block; try lia. consts. lia. }
  destruct (grown_spec q0 n w) as (Ha & Hh & _ & _ & _ & Hfr);
    [rewrite Hd; split; [lia | reflexivity]|].
  assert (Ha' : arena (grown q0 n w)
                = mkArena (q0 + 17) (q0 + 17) (q0 + n)
                          (fNextHeapAlloc (arena (grown q0 n w)))
                          (fYetNextHeapAlloc (arena (grown q0 n w))))
    by (rewrite Ha; reflexivity).
  destruct (rdtor rq).
  - rewrite (footer_fits_new_block fuel sz al q0 n _ Ha' Hq0 Hlim Hal) by (consts; lia).
    cbn [bind]. eexists. split; [reflexivity|].
    split; [rewrite installFooter_heap; exact Hh|].
    split; [lia|]. split; [consts; lia|]. split; [|exact Hdis].
    consts. intros x Hx. rewrite installFooter_other.
    + unfold write_object, set_cursor. proj.
      destruct (Z.leb_spec (first_fit q0 al) x) as [L1|L1];
        destruct (Z.ltb_spec x (first_fit q0 al + rsize rq)) as [L2|L2]; cbn [andb];
        [exfalso; lia | apply Hfr; lia | apply Hfr; lia | apply Hfr; lia].
    + unfold write_object, set_cursor. proj. lia.
  - rewrite (pod_fits_new_block fuel sz al q0 n _ Ha' Hq0 Hlim Hal) by (consts; lia).
    cbn [bind]. eexists. split; [reflexivity|].
    split; [exact Hh|].
    split; [lia|]. split; [consts; lia|]. split; [|exact Hdis].
    consts. intros x Hx. unfold write_object, set_cursor. proj.
    destruct (Z.leb_spec (first_fit q0 al) x) as [L1|L1];
      destruct (Z.ltb_spec x (first_fit q0 al + rsize rq)) as [L2|L2]; cbn [andb];
      [exfalso; lia | apply Hfr; lia | apply Hfr; lia | apply Hfr; lia].
Qed.

End FirstAllocation.

(** C10: a caller's block smaller than one footer is not used.  The
    constructor nulls the three cursors, whatever the memory holds, and
    writes nothing; destroying the arena at once does nothing.  The first
    allocation, whose alignment and size passed to the arena are in the
    range of their 32-bit types, finds the null cursor and goes to
    [ensureSpace]: it aborts when a size leaves the 32-bit range, fails
    when the system allocator does, and otherwise returns the first
    aligned address behind the header of the heap block that the system
    allocator gave, with the object inside that block; no byte outside the
    new block changes, and no byte of the caller's buffer when that is a
    live block.  The system allocator is taken to return blocks that are
    not null, lie in the address space and overlap no live block. *)
Theorem small_first_block_unused (sys_new : history -> Z -> option Z) (fuel : nat)
        (m : mem) (h0 : history) (block size hint : Z) (rq : request) :
  allocator_ok sys_new ->
  0 <= size < sizeof_Footer ->
  uint32 (ralign rq) -> 0 <= rsize rq ->
  uint32 (if rdtor rq then rsize rq + sizeof_Footer else rsize rq) ->
  let w := construct m h0 block size hint in
  let sz := if rdtor rq then rsize rq + sizeof_Footer else rsize rq in
  let n := block_size sz (ralign rq) (arena w) in
  (fCursor (arena w) = 0 /\ fDtorCursor (arena w) = 0 /\ fEnd (arena w) = 0) /\
  wmem w = m /\ wheap w = h0 /\
  (forall m', arena (construct m' h0 block size hint) = arena w) /\
  (forall k, (0 < k)%nat -> destroy k w = Some ([], h0)) /\
  (sizes_fit sz (ralign rq) (arena w) = false ->
   allocate sys_new (S (S fuel)) rq w = Err AssertFail) /\
  (sizes_fit sz (ralign rq) (arena w) = true -> sys_new h0 n = None ->
   allocate sys_new (S (S fuel)) rq w = Err BadAlloc) /\
  (forall q, sizes_fit sz (ralign rq) (arena w) = true -> sys_new h0 n = Some q ->
     exists w',
       allocate sys_new (S (S fuel)) rq w = Ok (first_fit q (ralign rq), w') /\
       wheap w' = HNew q n :: h0 /\
       q + 17 <= first_fit q (ralign rq) /\
       first_fit q (ralign rq) + rsize rq <= q + n /\
       (forall x, ~ (q <= x < q + n) -> wmem w' x = m x) /\
       (In (block, size) (live h0) ->
        forall x, block <= x < block + size -> wmem w' x = m x)).
Proof.
  intros Hok Hsz Hal Hsize Hu. cbv zeta.
  assert (Hw : forall m', construct m' h0 block size hint
               = mkWorld m' h0 (mkArena 0 0 0
                   (first_allocated_block (ToU32 size) (ToU32 hint))
                   (first_allocated_block (ToU32 size) (ToU32 hint)))).
  { intros m'. unfold construct.
    destruct (Z.ltb_spec size sizeof_Footer); [reflexivity | lia]. }
  rewrite !Hw. proj.
  split; [repeat split|]. split; [reflexivity|]. split; [reflexivity|].
  split; [intros m'; rewrite Hw; reflexivity|].
  split.
  { intros k Hk. unfold destroy. proj.
    rewrite RunDtorsOnBlock_null by exact Hk. reflexivity. }
  set (w := mkWorld m h0 _).
  destruct (first_allocation sys_new fuel w rq Hok eq_refl eq_refl
              (first_allocated_block_uint32 size hint) Hal Hsize Hu) as (A1 & A2 & A3).
  split; [exact A1|]. split; [exact A2|].
  intros q Hfit Hq. destruct (A3 q Hfit Hq) as (w' & E & Hh & B1 & B2 & Hfr & Hdis).
  exists w'. split; [exact E|]. split; [exact Hh|]. split; [exact B1|].
  split; [exact B2|]. split; [exact Hfr|].
  intros Hin x Hx. apply Hfr.
  rewrite Forall_forall in Hdis. specialize (Hdis _ Hin). cbn [fst snd] in Hdis.
  unfold disjoint in Hdis. lia.
Qed.

Lemma small_first_block_unused_witness :
  let w := construct m0 [] 0 0 0 in
  (fCursor (arena w) = 0 /\ fDtorCursor (arena w) = 0 /\ fEnd (arena w) = 0) /\
  wmem w = m0 /\ wheap w = [] /\
  (forall k, (0 < k)%nat -> destroy k w = Some ([], [])) /\
  exists w',
    allocate bump_new 2 (obj 24 8) w = Ok (4120, w') /\
    wheap w' = [HNew 4096 1024] /\
    (forall x, ~ (4096 <= x < 4096 + 1024) -> wmem w' x = m0 x).
Proof.
  destruct (small_first_block_unused bump_new 0 m0 [] 0 0 0 (obj 24 8) bump_new_ok)
    as (C & M & H & _ & D & _ & _ & A).
  - unfold sizeof_Footer, sizeof_ptr. lia.
  - cbn [ralign obj]. unfold uint32, maxSize. lia.
  - cbn [rsize obj]. lia.
  - cbn [rdtor rsize obj]. unfold uint32, maxSize, sizeof_Footer, sizeof_ptr. lia.
  - split; [exact C|]. split; [exact M|]. split; [exact H|]. split; [exact D|].
    destruct (A 4096) as (w' & E & Hh & _ & _ & Hfr & _);
      [vm_compute; reflexivity | vm_compute; reflexivity |].
    exists w'. split; [exact E|]. split; [exact Hh | exact Hfr].
Defined.

Lemma construct_arena (m m' : mem) (h h' : history) (block size hint : Z) :
  arena (construct m h block size hint) = arena (construct m' h' block size hint).
Proof.
  unfold construct. destruct (size <? sizeof_Footer); cbn [fCursor].
  - reflexivity.
  - destruct (block =? 0); [reflexivity|]. now rewrite !installFooter_arena.
Qed.

Lemma construct_wrapped (m : mem) (h : history) (block size hint : Z) :
  uint32 size ->
  construct m h block (to_uint32_t size) (to_uint32_t hint) = construct m h block size hint.
Proof.
  intros Hsz. unfold to_uint32_t. rewrite (wrap32_small size Hsz).
  unfold construct, ToU32.
  replace (wrap32 (wrap32 hint)) with (wrap32 hint); [reflexivity|].
  unfold wrap32. now rewrite Z.mod_mod.
Qed.

(** C6, amended: the address is repeated only for an allocation that
    the caller's block serves.  Let the system allocator return blocks that
    are not null, lie in the address space and overlap no live block; let
    the caller's block have a size that fits 32 bits and, when it has room
    for a footer, be a live block in the address space; let every
    allocation have an alignment between 1 and 256 and a size of at most
    2^32 - 23, and let the sizes plus alignments of the trivially
    destructible allocations between two allocations with a destructor
    (and before the first) sum to less than 2^31.  Then a reset after the
    allocations returns; it has run the teardown, in which every object
    with a destructor is destructed exactly once, and a teardown that
    follows destructs nothing; it leaves the arena fields as the
    constructor first set them; and an allocation that was served after
    construction without a new heap block is served at the same address
    after the reset. *)
Theorem reset_restores_arena (sys_new : history -> Z -> option Z) (fuel : nat)
        (m : mem) (h0 : history) (block size hint : Z)
        (rqs : list request) (ps : list Z) (w : world) :
  allocator_ok sys_new ->
  caller_block_ok h0 block size ->
  Forall wf_request rqs -> short_runs 0 rqs ->
  let r0 := construct_with_reset m h0 block size hint in
  allocate_all sys_new fuel rqs (base r0) = Ok (ps, w) ->
  (forall f, allocate_all sys_new (S (S f)) rqs (base r0) <> Err OutOfFuel) /\
  exists fuel0 blks, forall k, (fuel0 <= k)%nat ->
    exists r1,
      reset k (mkReset w (fFirstBlock r0) (fFirstSize r0) (fFirstHeapAllocationSize r0))
      = Some (dtor_events (rev (dtor_objs ps rqs))
              ++ sentinel (ghost0 block size) ++ delete_events blks, r1) /\
      arena (base r1) = arena (base r0) /\
      (forall k', (2 <= k')%nat ->
         exists h', destroy k' (base r1) = Some (sentinel (ghost0 block size), h')) /\
      (forall rq p w1,
         allocate sys_new fuel rq (base r0) = Ok (p, w1) ->
         wheap w1 = wheap (base r0) ->
         exists w2, allocate sys_new fuel rq (base r1) = Ok (p, w2)).
Proof.
  intros Hok Hblk Hwf Hruns r0 H. unfold r0, construct_with_reset in *.
  cbn [base fFirstBlock fFirstSize fFirstHeapAllocationSize] in *.
  split; [intros f; now apply lifetime_no_timeout|].
  destruct (arena_lifetime sys_new Hok fuel m h0 block size hint rqs ps w Hblk Hwf Hruns H)
    as (blks & I & _).
  destruct (destroy_expected h0 w _ I) as (fuel0 & Hrun).
  exists fuel0, blks. intros k Hk. unfold reset. cbn [base].
  rewrite (Hrun k Hk). cbn [fFirstBlock fFirstSize fFirstHeapAllocationSize].
  eexists. split; [reflexivity|]. unfold construct_with_reset. cbn [base].
  destruct Hblk as [Hsz Hb].
  rewrite (construct_wrapped _ _ block size hint Hsz).
  split; [apply construct_arena|]. split.
  - intros k' Hk'. eexists. apply destroy_fresh; [exact Hsz | | exact Hk'].
    intros Hge. now destruct (Hb Hge).
  - intros rq p w1 Ha Hh.
    apply (allocate_same sys_new fuel rq p (construct m h0 block size hint) w1);
      [apply construct_arena | exact Ha | exact Hh].
Qed.

Lemma reset_restores_arena_witness :
  let r0 := construct_with_reset m0 h64 4096 64 0 in
  (forall f, allocate_all bump_new (S (S f)) rqs_mixed (base r0) <> Err OutOfFuel) /\
  exists fuel0 blks, forall k, (fuel0 <= k)%nat ->
    exists r1,
      reset k (mkReset w_mixed (fFirstBlock r0) (fFirstSize r0)
                       (fFirstHeapAllocationSize r0))
      = Some (dtor_events (rev (dtor_objs ps_mixed rqs_mixed))
              ++ sentinel (ghost0 4096 64) ++ delete_events blks, r1) /\
      arena (base r1) = arena (base r0) /\
      (forall k', (2 <= k')%nat ->
         exists h', destroy k' (base r1) = Some (sentinel (ghost0 4096 64), h')) /\
      (forall rq p w1,
         allocate bump_new 2 rq (base r0) = Ok (p, w1) ->
         wheap w1 = wheap (base r0) ->
         exists w2, allocate bump_new 2 rq (base r1) = Ok (p, w2)).
Proof.
  apply (reset_restores_arena bump_new 2 m0 h64 4096 64 0 rqs_mixed ps_mixed w_mixed).
  - exact bump_new_ok.
  - exact h64_ok.
  - exact rqs_mixed_wf.
  - cbn [short_runs rqs_mixed obj pod rdtor rsize ralign]. repeat split; lia.
  - exact run_mixed_ok.
Defined.

(** C6 as stated fails: when the first allocation is served by the heap,
    the address after a reset is the one the system allocator returns
    then.  With the bump allocator, which satisfies all the arena relies
    on, the two addresses differ. *)
Lemma reset_address_counterexample :
  allocator_ok bump_new /\
  first_address = Some 4120 /\
  address_after_reset = Some 5144 /\
  first_address <> address_after_reset.
Proof.
  assert (H1 : first_address = Some 4120) by (vm_compute; reflexivity).
  assert (H2 : address_after_reset = Some 5144) by (vm_compute; reflexivity).
  split; [exact bump_new_ok|]. split; [exact H1|]. split; [exact H2|].
  rewrite H1, H2. discriminate.
Qed.

Lemma destroy_big_none (k : nat) : destroy k w_big = None.
Proof.
  destruct k as [|[|[|k]]]; vm_compute; reflexivity.
Qed.

(** C2 fails on the code.  After 2 GiB of trivially destructible data,
    the allocation of an object in the same block writes one skip record
    that holds [cursor - dtorCursor], as the claim says; but [SkipPod]
    reads the record as a signed 32-bit number, so decoding it does not
    return the start of the run, and the teardown leaves the chain. *)
Theorem skip_record_read_as_signed :
  Forall wf_request rqs_big /\
  ps_big = [4113; 2147487774] /\
  wheap w_big = [HNew 4096 2147487744] /\
  load_le 8 (wmem w_big) (2147487761 + 4) = fn_SkipPod /\
  load_le 4 (wmem w_big) 2147487761 = 2147487761 - 4113 /\
  SkipPod (wmem w_big) (2147487761 + 13) = 4294971409 /\
  SkipPod (wmem w_big) (2147487761 + 13) <> 4113 /\
  forall k, destroy k w_big = None.
Proof.
  assert (Hs : SkipPod (wmem w_big) (2147487761 + 13) = 4294971409)
    by (vm_compute; reflexivity).
  split; [repeat constructor; cbn [rsize ralign obj pod]; unfold maxSize; lia|].
  split; [vm_compute; reflexivity|]. split; [vm_compute; reflexivity|].
  split; [vm_compute; reflexivity|]. split; [vm_compute; reflexivity|].
  split; [exact Hs|]. split; [rewrite Hs; discriminate|].
  exact destroy_big_none.
Qed.

(** C7 fails on the code, by the defect of C2: after 2 GiB of trivially
    destructible data and one object in the first heap block, no teardown
    reaches the NextBlock record of that block, so the block is never
    freed. *)
Theorem heap_block_leaked_after_long_run :
  Forall wf_request rqs_big /\
  wheap w_big = [HNew 4096 2147487744] /\
  forall k, ~ exists tr h', destroy k w_big = Some (tr, h') /\ In (EvDelete 4096) tr.
Proof.
  split; [repeat constructor; cbn [rsize ralign obj pod]; unfold maxSize; lia|].
  split; [vm_compute; reflexivity|].
  intros k (tr & h' & H & _). rewrite destroy_big_none in H. discriminate.
Qed.

(** The unchecked addition in [allocObjectWithFooter]: with three bytes
    of trivially destructible data pending in the caller's block, a request
    of 2^32 - 1 bytes has its size and skip-record overhead added modulo
    2^32, which gives 12, and is served from the active block. *)
Lemma skip_overhead_wraps :
  exists w', allocObjectWithFooter bump_new 2 4294967295 1 (set_cursor 4108 w_first)
             = Ok (4121, w') /\
             wheap w' = wheap w_first /\ fEnd (arena w') = 4160.
Proof.
  assert (H : is_ok (allocObjectWithFooter bump_new 2 4294967295 1 (set_cursor 4108 w_first))
              = true) by (vm_compute; reflexivity).
  destruct (allocObjectWithFooter bump_new 2 4294967295 1 (set_cursor 4108 w_first))
    as [[o w']|e] eqn:E; [|discriminate].
  assert (Ho : match allocObjectWithFooter bump_new 2 4294967295 1 (set_cursor 4108 w_first)
               with Ok (o, w') => (o, wheap w', fEnd (arena w')) | Err _ => (0, [], 0) end
               = (4121, wheap w_first, 4160)) by (vm_compute; reflexivity).
  rewrite E in Ho. injection Ho as -> Hh He. exists w'. now repeat split.
Qed.

(** C9, amended: the sizes of the blocks need not grow, but their minimum
    sizes do.  For every sequence of allocations that returns, each heap
    block the arena has created is at least the minimum size of its turn,
    which is the value [fNextHeapAlloc] had, and at most the maximum of
    the 32-bit size type, and these minimum sizes never decrease.  A call
    of [ensureSpace] whose size with the footer overhead and the alignment
    padding leaves the 32-bit range aborts; and so does a call of
    [allocObjectWithFooter] with a size of at most 2^32 - 14 (so that
    adding the skip-record overhead cannot wrap) unless the active block
    serves it: such a call creates no block. *)
Theorem block_sizes_follow_growth (sys_new : history -> Z -> option Z) (fuel : nat)
        (m : mem) (h0 : history) (block size hint : Z)
        (rqs : list request) (ps : list Z) (w : world) :
  allocate_all sys_new fuel rqs (construct m h0 block size hint) = Ok (ps, w) ->
  let a0 := arena (construct m h0 block size hint) in
  (exists blks,
     wheap w = news blks ++ h0 /\
     Forall2 (fun b mn => mn <= snd b <= maxSize) blks (min_sizes (length blks) a0) /\
     nondecreasing (min_sizes (length blks) a0)) /\
  (forall sz al u,
     uint32 sz -> uint32 (fNextHeapAlloc (arena u)) ->
     maxSize < objSizeAndOverhead sz al ->
     ensureSpace sys_new sz al u = Err AssertFail) /\
  (forall f sif al u,
     uint32 (fNextHeapAlloc (arena u)) -> 0 <= sif <= maxSize - 13 ->
     maxSize < objSizeAndOverhead (sif + skip_overhead (arena u)) al ->
     allocObjectWithFooter sys_new (S f) sif al u = Err AssertFail \/
     exists o u', allocObjectWithFooter sys_new (S f) sif al u = Ok (o, u') /\
                  wheap u' = wheap u).
Proof.
  intros H a0.
  assert (Habort : forall sz al u,
            uint32 sz -> uint32 (fNextHeapAlloc (arena u)) ->
            maxSize < objSizeAndOverhead sz al ->
            ensureSpace sys_new sz al u = Err AssertFail).
  { intros sz al u Hsz Hn Hbig. rewrite ensureSpace_eq by assumption.
    unfold sizes_fit.
    destruct (Z.leb_spec (objSizeAndOverhead sz al) maxSize) as [Hle|_]; [lia|].
    now rewrite andb_false_r. }
  split; [|split; [exact Habort|]].
  - destruct (allocate_all_growth_inv sys_new fuel m h0 block size hint rqs ps w H)
      as (blks & G1 & G2 & _).
    exists blks. split; [exact G1|]. split; [exact G2|].
    apply min_sizes_nondecreasing. apply construct_counters_ok.
  - intros f sif al u Hn Hsif Hbig.
    assert (Hso : 0 <= skip_overhead (arena u) <= 13).
    { unfold skip_overhead. destruct (negb _); consts; lia. }
    assert (Hu : uint32 (sif + skip_overhead (arena u)))
      by (unfold uint32, maxSize in *; lia).
    rewrite allocObjectWithFooter_S. cbv zeta.
    rewrite (wrap32_small _ Hu), (Habort _ al u Hu Hn Hbig). cbn [bind].
    destruct (fCursor (arena u) =? 0); [now left|].
    destruct (_ >? _); [now left|].
    destruct (_ <=? _); cbn [AssertRelease bind]; [|now left].
    right. eexists. eexists. split; [reflexivity|].
    destruct (negb _); [rewrite installFooter_heap|]; reflexivity.
Qed.

Lemma block_sizes_follow_growth_witness :
  let a0 := arena (construct m0 h64 4096 64 0) in
  (exists blks,
     wheap w4 = news blks ++ h64 /\
     Forall2 (fun b mn => mn <= snd b <= maxSize) blks (min_sizes (length blks) a0) /\
     nondecreasing (min_sizes (length blks) a0)) /\
  (forall sz al u,
     uint32 sz -> uint32 (fNextHeapAlloc (arena u)) ->
     maxSize < objSizeAndOverhead sz al ->
     ensureSpace bump_new sz al u = Err AssertFail) /\
  (forall f sif al u,
     uint32 (fNextHeapAlloc (arena u)) -> 0 <= sif <= maxSize - 13 ->
     maxSize < objSizeAndOverhead (sif + skip_overhead (arena u)) al ->
     allocObjectWithFooter bump_new (S f) sif al u = Err AssertFail \/
     exists o u', allocObjectWithFooter bump_new (S f) sif al u = Ok (o, u') /\
                  wheap u' = wheap u).
Proof.
  apply (block_sizes_follow_growth bump_new 2 m0 h64 4096 64 0 rqs4 ps4 w4).
  exact run4_ok.
Defined.

(** C9 as stated fails: two requests that each exceed what is left of the
    active block, a large one and then a smaller one, give a block of
    102400 bytes followed by a block of 5040 bytes. *)
Lemma block_sizes_decrease_counterexample :
  Forall wf_request rqs_shrink /\
  heap_shrink = [HNew 106496 5040; HNew 4096 102400] /\
  5040 < 102400.
Proof.
  split; [repeat constructor; cbn [rsize ralign obj pod]; unfold maxSize; lia|].
  split; [vm_compute; reflexivity | lia].
Qed.

Lemma w_grown_ok : ensureSpace bump_new 100 8 w_null = Ok w_grown.
Proof.
  assert (H : is_ok (ensureSpace bump_new 100 8 w_null) = true)
    by (vm_compute; reflexivity).
  unfold w_grown.
  destruct (ensureSpace bump_new 100 8 w_null) as [w|e]; [reflexivity | discriminate].
Qed.

Lemma ensureSpace_overflow_is_fatal_witness :
  ((maxSize < 100 + overhead \/
    maxSize < objSizeAndOverhead 100 8 \/
    maxSize < block_size 100 8 (arena w_null))
   <-> ensureSpace bump_new 100 8 w_null = Err AssertFail) /\
  (forall w', ensureSpace bump_new 100 8 w_null = Ok w' ->
     block_size 100 8 (arena w_null) <= maxSize /\
     exists p, wheap w' = HNew p (block_size 100 8 (arena w_null)) :: wheap w_null).
Proof.
  apply (ensureSpace_overflow_is_fatal bump_new 100 8 w_null).
  - unfold uint32, maxSize. lia.
  - vm_compute. split; discriminate.
Defined.

Lemma ensureSpace_fibonacci_witness :
  (exists p n, wheap w_grown = HNew p n :: wheap w_null /\
     n = round_up (Z.max (objSizeAndOverhead 100 8) (fNextHeapAlloc (arena w_null)))
                  (if Z.max (objSizeAndOverhead 100 8) (fNextHeapAlloc (arena w_null))
                      >? 32768 then 4096 else 16) /\
     fNextHeapAlloc (arena w_null) <= n) /\
  (fNextHeapAlloc (arena w_null) + fYetNextHeapAlloc (arena w_null) <= maxSize ->
     fNextHeapAlloc (arena w_grown) = fYetNextHeapAlloc (arena w_null) /\
     fYetNextHeapAlloc (arena w_grown)
     = fNextHeapAlloc (arena w_null) + fYetNextHeapAlloc (arena w_null)) /\
  (maxSize < fNextHeapAlloc (arena w_null) + fYetNextHeapAlloc (arena w_null) ->
     fNextHeapAlloc (arena w_grown) = maxSize /\
     fYetNextHeapAlloc (arena w_grown) = fYetNextHeapAlloc (arena w_null)).
Proof.
  apply (ensureSpace_fibonacci bump_new 100 8 w_null w_grown).
  - unfold uint32, maxSize. lia.
  - vm_compute. split; discriminate.
  - vm_compute. split; discriminate.
  - exact w_grown_ok.
Defined.

Lemma ensureSpace_block_size_witness :
  exists newBlock,
    wheap w_grown
    = HNew newBlock
           (round_up (Z.max (100 + overhead + (8 - 1)) (fNextHeapAlloc (arena w_null)))
                     (if Z.max (100 + overhead + (8 - 1)) (fNextHeapAlloc (arena w_null))
                         >? 32768 then 4096 else 16)) :: wheap w_null /\
    fEnd (arena w_grown) - newBlock
    = round_up (Z.max (100 + overhead + (8 - 1)) (fNextHeapAlloc (arena w_null)))
               (if Z.max (100 + overhead + (8 - 1)) (fNextHeapAlloc (arena w_null))
                   >? 32768 then 4096 else 16).
Proof.
  apply (ensureSpace_block_size bump_new 100 8 w_null w_grown).
  - unfold uint32, maxSize. lia.
  - unfold uint32, maxSize. lia.
  - vm_compute. split; discriminate.
  - exact w_grown_ok.
Defined.

End Claims.

(** * Further properties of the source functions *)

(** ** Footer records: what is written is what the teardown reads *)

Module FooterCodec.
Import Arena Chain BitFacts MemFacts FooterFacts GrowthFacts BlockInv Examples.

Lemma RunDtorsOnBlock_S (fuel : nat) (m : mem) (footerEnd : Z) :
  RunDtorsOnBlock (S fuel) m footerEnd =
  if footerEnd =? 0 then Some []
  else
    match call (RunDtorsOnBlock fuel m) m (load_le 8 m (footerEnd - sizeof_Footer)) footerEnd with
    | None => None
    | Some (ret, tr) =>
      match RunDtorsOnBlock fuel m (ret - load_le 1 m (footerEnd - 1)) with
      | Some tr' => Some (tr ++ tr')
      | None => None
      end
    end.
Proof. reflexivity. Qed.

(** X1: [installFooter] and the two [memcpy] of [RunDtorsOnBlock] are
    inverse to each other.  The footer takes the [sizeof(Footer)] bytes at
    the cursor; both cursors end just behind it; the action read at
    [footerEnd - sizeof(Footer)] is the action installed, and the padding
    read at [footerEnd - 1] is the installed padding cut to one byte (so a
    padding of 256 or more does not come back).  No other byte changes. *)
Theorem installFooter_round_trip (action padding : Z) (w : world) :
  0 <= action < 2 ^ 64 ->
  let w' := installFooter action padding w in
  let footerEnd := fDtorCursor (arena w') in
  footerEnd = fCursor (arena w) + sizeof_Footer /\
  fCursor (arena w') = footerEnd /\
  load_le 8 (wmem w') (footerEnd - sizeof_Footer) = action /\
  load_le 1 (wmem w') (footerEnd - 1) = padding mod 256 /\
  (forall x, x < fCursor (arena w) \/ footerEnd <= x -> wmem w' x = wmem w x).
Proof.
  intros Ha. cbv zeta. rewrite installFooter_arena. proj.
  change sizeof_Footer with 9.
  split; [reflexivity|]. split; [reflexivity|].
  replace (fCursor (arena w) + 9 - 9) with (fCursor (arena w)) by lia.
  replace (fCursor (arena w) + 9 - 1) with (fCursor (arena w) + 8) by lia.
  split; [now apply installFooter_action|]. split.
  - rewrite installFooter_mem, load_store_le. reflexivity.
  - intros x Hx. now apply installFooter_other.
Qed.

Lemma installFooter_round_trip_witness :
  let w' := installFooter fn_NextBlock 300 w_first in
  let footerEnd := fDtorCursor (arena w') in
  footerEnd = fCursor (arena w_first) + sizeof_Footer /\
  fCursor (arena w') = footerEnd /\
  load_le 8 (wmem w') (footerEnd - sizeof_Footer) = fn_NextBlock /\
  load_le 1 (wmem w') (footerEnd - 1) = 300 mod 256 /\
  (forall x, x < fCursor (arena w_first) \/ footerEnd <= x -> wmem w' x = wmem w_first x).
Proof.
  apply (installFooter_round_trip fn_NextBlock 300 w_first).
  split; [discriminate | reflexivity].
Defined.

(** The bytes of a skip record, as [allocObjectWithFooter] writes them. *)
Lemma skip_record_bytes (w : world) :
  let c := fCursor (arena w) in
  let d := fDtorCursor (arena w) in
  0 <= c - d <= maxSize ->
  let w' := installFooter fn_SkipPod 0 (installRaw 4 (ToU32 (c - d)) w) in
  load_le 4 (wmem w') c = c - d /\
  fDtorCursor (arena w') = c + 13 /\
  load_le 8 (wmem w') (c + 4) = fn_SkipPod /\
  load_le 1 (wmem w') (c + 12) = 0.
Proof.
  intros c d Hrun. cbv zeta.
  set (w1 := installRaw 4 (ToU32 (c - d)) w).
  assert (Hc1 : fCursor (arena w1) = c + 4) by reflexivity.
  assert (Hv : ToU32 (c - d) = c - d) by (apply wrap32_small; exact Hrun).
  split; [|split; [|split]].
  - rewrite (load_le_agree 4 _ (wmem w1)).
    + unfold w1. rewrite installRaw_mem. fold c. rewrite Hv.
      apply load_store_le_small. change (256 ^ Z.of_nat 4) with 4294967296.
      unfold maxSize in Hrun. lia.
    + intros x Hx. apply installFooter_other. rewrite Hc1.
      change (Z.of_nat 4) with 4 in Hx. lia.
  - rewrite installFooter_arena. proj. rewrite Hc1. lia.
  - rewrite <- Hc1. apply installFooter_action. split; [discriminate | reflexivity].
  - replace (c + 12) with (fCursor (arena w1) + 8) by (rewrite Hc1; lia).
    apply installFooter_padding. lia.
Qed.

(** X2: the skip record that [allocObjectWithFooter] writes in front of an
    object holds the length of the run of trivially destructible data,
    [fCursor - fDtorCursor], as an unsigned 32-bit number; [SkipPod], which
    reads it as a signed one, returns the start of the run exactly when the
    run is shorter than 2^31 bytes. *)
Theorem SkipPod_decodes_short_runs (w : world) :
  let c := fCursor (arena w) in
  let d := fDtorCursor (arena w) in
  0 <= c - d <= maxSize ->
  let w' := installFooter fn_SkipPod 0 (installRaw 4 (ToU32 (c - d)) w) in
  load_le 4 (wmem w') c = c - d /\
  fDtorCursor (arena w') = c + (sizeof_Footer + sizeof_u32) /\
  (SkipPod (wmem w') (fDtorCursor (arena w')) = d <-> c - d < 2147483648).
Proof.
  intros c d Hrun. cbv zeta.
  destruct (skip_record_bytes w Hrun) as (Hload & Hd & _). fold c d in Hload, Hd.
  split; [exact Hload|]. split; [exact Hd|].
  rewrite Hd. unfold SkipPod. change (sizeof_Footer + sizeof_u32) with 13.
  replace (c + 13 - 13) with c by lia. rewrite Hload.
  unfold to_int32. destruct (Z.ltb_spec (c - d) 2147483648); split; intros; lia.
Qed.

Lemma SkipPod_decodes_short_runs_witness :
  let c := fCursor (arena (set_cursor 4200 w_grown)) in
  let d := fDtorCursor (arena (set_cursor 4200 w_grown)) in
  let w' := installFooter fn_SkipPod 0
              (installRaw 4 (ToU32 (c - d)) (set_cursor 4200 w_grown)) in
  load_le 4 (wmem w') c = c - d /\
  fDtorCursor (arena w') = c + (sizeof_Footer + sizeof_u32) /\
  (SkipPod (wmem w') (fDtorCursor (arena w')) = d <-> c - d < 2147483648).
Proof.
  apply (SkipPod_decodes_short_runs (set_cursor 4200 w_grown)).
  vm_compute. split; discriminate.
Defined.

(** X3: during a teardown a skip record of a run shorter than 2^31
    bytes calls no destructor and frees nothing: [RunDtorsOnBlock] goes on
    at the footer that ends just in front of the run. *)
Theorem skip_record_is_skipped (fuel : nat) (w : world) :
  let c := fCursor (arena w) in
  let d := fDtorCursor (arena w) in
  0 <= d <= c -> c - d < 2147483648 ->
  let w' := installFooter fn_SkipPod 0 (installRaw 4 (ToU32 (c - d)) w) in
  RunDtorsOnBlock (S fuel) (wmem w') (fDtorCursor (arena w'))
  = RunDtorsOnBlock fuel (wmem w') d.
Proof.
  intros c d Hd Hrun. cbv zeta.
  destruct (skip_record_bytes w) as (Hload & Hfe & Hact & Hpad);
    [fold c d; unfold maxSize; lia|].
  fold c d in Hload, Hfe, Hact, Hpad.
  set (w' := installFooter fn_SkipPod 0 (installRaw 4 (ToU32 (c - d)) w)) in *.
  rewrite RunDtorsOnBlock_S, Hfe. change sizeof_Footer with 9.
  destruct (Z.eqb_spec (c + 13) 0) as [E|_]; [lia|].
  replace (c + 13 - 9) with (c + 4) by lia.
  replace (c + 13 - 1) with (c + 12) by lia.
  rewrite Hact, Hpad. unfold call.
  change (fn_SkipPod =? fn_end_chain) with false.
  change (fn_SkipPod =? fn_SkipPod) with true. cbv iota.
  unfold SkipPod. change (sizeof_Footer + sizeof_u32) with 13.
  replace (c + 13 - 13) with c by lia.
  rewrite Hload, to_int32_small by lia.
  replace (c - (c - d) - 0) with d by lia.
  destruct (RunDtorsOnBlock fuel (wmem w') d); reflexivity.
Qed.

Lemma skip_record_is_skipped_witness :
  let c := fCursor (arena (set_cursor 4200 w_grown)) in
  let d := fDtorCursor (arena (set_cursor 4200 w_grown)) in
  let w' := installFooter fn_SkipPod 0
              (installRaw 4 (ToU32 (c - d)) (set_cursor 4200 w_grown)) in
  RunDtorsOnBlock 3 (wmem w') (fDtorCursor (arena w'))
  = RunDtorsOnBlock 2 (wmem w') d.
Proof.
  apply (skip_record_is_skipped 2 (set_cursor 4200 w_grown)).
  - vm_compute. split; discriminate.
  - vm_compute. reflexivity.
Defined.

End FooterCodec.

(** ** Construction and the caller's block *)

Module Construction.
Import Arena Growth BitFacts MemFacts FooterFacts GrowthFacts AllocInv Examples.

(** X4: the constructor asks the system heap for nothing and frees
    nothing; the only bytes it may write are the [sizeof(Footer)] bytes at
    the start of the caller's block, and it writes none at all when the
    block is smaller than a footer or null; both growth counters start at
    the same value, which is never zero. *)
Theorem construct_footprint (m : mem) (h : history) (block size hint : Z) :
  let w := construct m h block size hint in
  wheap w = h /\
  (forall x, x < block \/ block + sizeof_Footer <= x -> wmem w x = m x) /\
  (size < sizeof_Footer \/ block = 0 -> forall x, wmem w x = m x) /\
  fYetNextHeapAlloc (arena w) = fNextHeapAlloc (arena w) /\
  1 <= fNextHeapAlloc (arena w) <= maxSize.
Proof.
  cbv zeta.
  assert (H : 1 <= first_allocated_block (ToU32 size) (ToU32 hint) <= maxSize).
  { unfold first_allocated_block, ToU32.
    pose proof (wrap32_range size) as H1. pose proof (wrap32_range hint) as H2.
    unfold uint32 in *.
    destruct (Z.gtb_spec (wrap32 hint) 0); [lia|].
    destruct (Z.gtb_spec (wrap32 size) 0); [lia|]. unfold maxSize. lia. }
  unfold construct. destruct (Z.ltb_spec size sizeof_Footer) as [L|L]; cbn [fCursor].
  - cbn [Z.eqb]. proj. repeat split; auto; lia.
  - destruct (Z.eqb_spec block 0) as [E|N].
    + proj. repeat split; auto; lia.
    + rewrite installFooter_heap, installFooter_arena. proj.
      split; [reflexivity|]. split; [|split; [lia|split; [reflexivity|lia]]].
      intros x Hx. rewrite installFooter_other; [reflexivity|].
      proj. change sizeof_Footer with 9 in Hx. lia.
Qed.

(** X5: for a caller's block that lies in the address space and whose
    size fits the 32-bit size type, the constructor leaves the cursors in
    order: all three null, or the two cursors just behind the end-of-chain
    footer and the end at the end of the block. *)
Theorem construct_cursors_ok (m : mem) (h : history) (block size hint : Z) :
  0 <= block -> block + size <= addr_limit -> size <= maxSize ->
  let a := arena (construct m h block size hint) in
  cursors_ok a /\
  (fCursor a = 0 /\ fDtorCursor a = 0 \/
   fCursor a = block + sizeof_Footer /\ fDtorCursor a = block + sizeof_Footer /\
   fEnd a = block + size).
Proof.
  intros Hb Hlim Hmax. cbv zeta. unfold construct, cursors_ok.
  destruct (Z.ltb_spec size sizeof_Footer) as [L|L]; cbn [fCursor].
  - cbn [Z.eqb]. proj. unfold addr_limit. split; [lia | left; lia].
  - change sizeof_Footer with 9 in *.
    assert (Hw : ToU32 size = size) by (apply wrap32_small; unfold uint32; lia).
    rewrite Hw. destruct (Z.eqb_spec block 0) as [E|N].
    + proj. split; [lia | left; lia].
    + rewrite installFooter_arena. proj. split; [lia | right; lia].
Qed.

Lemma construct_cursors_ok_witness :
  let a := arena (construct m0 h64 4096 64 0) in
  cursors_ok a /\
  (fCursor a = 0 /\ fDtorCursor a = 0 \/
   fCursor a = 4096 + sizeof_Footer /\ fDtorCursor a = 4096 + sizeof_Footer /\
   fEnd a = 4096 + 64).
Proof.
  apply (construct_cursors_ok m0 h64 4096 64 0); unfold addr_limit, maxSize; lia.
Defined.

Section WithAllocator.

Variable sys_new : history -> Z -> option Z.

(** X6: a request that fits the caller's block behind the end-of-chain
    footer, with the worst padding its alignment can need, is served from
    that block: [allocObjectWithFooter] returns an address in the block
    with room for the object and its footer, and leaves the arena, the
    memory and the system heap as the constructor left them, whatever the
    system allocator is. *)
Theorem first_block_serves (fuel : nat) (m : mem) (h : history)
        (block size hint sif al : Z) :
  0 < block -> block + size <= addr_limit -> size <= maxSize ->
  1 <= al <= maxSize -> 0 <= sif ->
  sizeof_Footer + (al - 1) + sif <= size ->
  exists objStart,
    allocObjectWithFooter sys_new (S fuel) sif al (construct m h block size hint)
    = Ok (objStart, construct m h block size hint) /\
    block + sizeof_Footer <= objStart <= block + sizeof_Footer + (al - 1) /\
    objStart + sif <= block + size.
Proof.
  intros Hb Hlim Hmax Hal Hsif Hfit. change sizeof_Footer with 9 in *.
  set (w := construct m h block size hint).
  assert (Ha : arena w = mkArena (block + 9) (block + 9) (block + size)
                                 (fNextHeapAlloc (arena w)) (fYetNextHeapAlloc (arena w))).
  { unfold w, construct.
    destruct (Z.ltb_spec size sizeof_Footer) as [L|_]; [change sizeof_Footer with 9 in L; lia|].
    cbn [fCursor]. destruct (Z.eqb_spec block 0) as [E|_]; [lia|].
    rewrite installFooter_arena. proj. unfold ToU32.
    rewrite (wrap32_small size) by (unfold uint32; lia). reflexivity. }
  rewrite allocObjectWithFooter_S. cbv zeta. unfold Inv.skip_overhead.
  rewrite Ha. proj. rewrite Z.eqb_refl. cbn [negb].
  destruct (Z.eqb_spec (block + 9) 0) as [E|_]; [lia|].
  assert (Hm : wrap32 (al - 1) = al - 1) by (apply wrap32_small; unfold uint32; lia).
  assert (Hs : wrap32 (sif + 0) = sif).
  { rewrite Z.add_0_r. apply wrap32_small. unfold uint32. lia. }
  rewrite Hm, Hs.
  assert (Hali : block + 9 + 0 <= Z.land (wrap64 (block + 9 + 0 + (al - 1))) (not64 (al - 1))
                 <= block + 9 + 0 + (al - 1)).
  { apply align_up_bound; [lia | lia |]. unfold addr_limit, maxSize in *.
    change (2 ^ 64) with 18446744073709551616. lia. }
  set (o := Z.land (wrap64 (block + 9 + 0 + (al - 1))) (not64 (al - 1))) in *.
  exists o.
  destruct (Z.gtb_spec sif (block + size - o)) as [Hbig|_]; [lia|].
  destruct (Z.leb_spec sif (block + size - o)) as [_|Habs]; [|lia].
  cbn [AssertRelease bind]. split; [reflexivity | lia].
Qed.

End WithAllocator.

Lemma first_block_serves_witness :
  exists objStart,
    allocObjectWithFooter bump_new 1 33 8 (construct m0 h64 4096 64 0)
    = Ok (objStart, construct m0 h64 4096 64 0) /\
    4096 + sizeof_Footer <= objStart <= 4096 + sizeof_Footer + (8 - 1) /\
    objStart + 33 <= 4096 + 64.
Proof.
  apply (first_block_serves bump_new 0 m0 h64 4096 64 0 33 8);
    unfold addr_limit, maxSize, sizeof_Footer, sizeof_ptr; lia.
Defined.

End Construction.

(** ** Growth: what a new block holds and what it leaves alone *)

Module NewBlock.
Import Arena Chain Growth BitFacts MemFacts FooterFacts GrowthFacts GrowInv BumpFacts Examples.
Import FooterCodec.

Lemma grown_frame (p n : Z) (w : world) (x : Z) :
  x < p \/ p + 17 <= x -> wmem (grown p n w) x = wmem w x.
Proof.
  intros Hx. unfold grown. rewrite installFooter_other.
  - rewrite installRaw_mem. proj. apply store_le_other.
    change (Z.of_nat 8) with 8. lia.
  - unfold installRaw. proj. change (Z.of_nat 8) with 8. lia.
Qed.

Section WithAllocator.

Variable sys_new : history -> Z -> option Z.
Hypothesis sys_new_ok : allocator_ok sys_new.

(** What a call of [ensureSpace] that returns has done, with the facts
    the system allocator guarantees for the new block. *)
Lemma ensureSpace_grown (size al : Z) (w w' : world) :
  uint32 size -> uint32 (fNextHeapAlloc (arena w)) ->
  ensureSpace sys_new size al w = Ok w' ->
  exists p n,
    w' = grown p n w /\ sys_new (wheap w) n = Some p /\
    size + overhead + wrap32 (al - 1) <= n <= maxSize /\ 0 < p /\ p + n <= addr_limit /\
    Forall (fun b => disjoint p n (fst b) (snd b)) (live (wheap w)).
Proof.
  intros Hs Hn H.
  destruct (ensureSpace_Ok sys_new _ _ _ _ Hs Hn H) as (Hfit & p & Hp & ->).
  apply sizes_fit_true in Hfit; [|assumption|assumption].
  destruct Hfit as (_ & _ & Hmax).
  pose proof (round_up_ge (allocationSize size al (arena w))) as Hlow.
  fold (block_size size al (arena w)) in Hlow.
  set (n := block_size size al (arena w)) in *.
  pose proof (wrap32_range (al - 1)) as Hw. unfold uint32 in Hw.
  assert (Hn26 : size + overhead + wrap32 (al - 1) <= n).
  { unfold allocationSize, objSizeAndOverhead in Hlow. lia. }
  assert (Hpos : 0 < n) by (unfold uint32 in Hs; consts; lia).
  destruct (sys_new_ok _ _ _ Hpos Hp) as (Hp0 & Hlim & Hdis).
  exists p, n. repeat split; try assumption; lia.
Qed.

(** X7: the header that [ensureSpace] writes into a new block is what
    [NextBlock] reads.  A teardown that starts at the footer of the new
    block first runs the teardown of the chain that was current before the
    growth, from the destructor cursor of that moment, then frees exactly
    the new block, and then stops. *)
Theorem ensureSpace_links_new_block (fuel : nat) (size al : Z) (w w' : world) :
  uint32 size -> uint32 (fNextHeapAlloc (arena w)) ->
  0 <= fDtorCursor (arena w) < 2 ^ 64 ->
  ensureSpace sys_new size al w = Ok w' ->
  exists newBlock n,
    wheap w' = HNew newBlock n :: wheap w /\
    fDtorCursor (arena w') = newBlock + (sizeof_ptr + sizeof_Footer) /\
    fCursor (arena w') = fDtorCursor (arena w') /\
    fEnd (arena w') = newBlock + n /\
    RunDtorsOnBlock (S (S fuel)) (wmem w') (fDtorCursor (arena w')) =
    match RunDtorsOnBlock (S fuel) (wmem w') (fDtorCursor (arena w)) with
    | Some tr => Some (tr ++ [EvDelete newBlock])
    | None => None
    end.
Proof.
  intros Hs Hn Hd H.
  destruct (ensureSpace_grown _ _ _ _ Hs Hn H) as (p & n & -> & _ & _ & Hp & _ & _).
  destruct (grown_spec p n w Hd) as (Ha & Hh & Hprev & Hact & Hpad & _).
  exists p, n. rewrite Ha, Hh. proj. change (sizeof_ptr + sizeof_Footer) with 17.
  split; [reflexivity|]. split; [reflexivity|]. split; [reflexivity|]. split; [reflexivity|].
  rewrite (RunDtorsOnBlock_S (S fuel)).
  destruct (Z.eqb_spec (p + 17) 0) as [E|_]; [lia|].
  change sizeof_Footer with 9.
  replace (p + 17 - 9) with (p + 8) by lia.
  replace (p + 17 - 1) with (p + 16) by lia.
  rewrite Hact, Hpad. unfold call, NextBlock.
  change (fn_NextBlock =? fn_end_chain) with false.
  change (fn_NextBlock =? fn_SkipPod) with false.
  change (fn_NextBlock =? fn_NextBlock) with true. cbv iota.
  change (sizeof_ptr + sizeof_Footer) with 17.
  replace (p + 17 - 17) with p by lia. rewrite Hprev.
  destruct (RunDtorsOnBlock (S fuel) (wmem (grown p n w)) (fDtorCursor (arena w)))
    as [tr|]; [|reflexivity].
  change (0 - 0) with 0. rewrite RunDtorsOnBlock_S. change (0 =? 0) with true. cbv iota.
  now rewrite app_nil_r.
Qed.

(** X8: [ensureSpace] never writes into a block that is live on the
    system heap when it is called, which includes every block the arena
    already uses; it frees nothing, and the blocks that are live after the
    call are the new block and those that were live before. *)
Theorem ensureSpace_preserves_live_blocks (size al : Z) (w w' : world) :
  uint32 size -> uint32 (fNextHeapAlloc (arena w)) ->
  ensureSpace sys_new size al w = Ok w' ->
  (exists newBlock n, live (wheap w') = (newBlock, n) :: live (wheap w)) /\
  (forall b x, In b (live (wheap w)) -> fst b <= x < fst b + snd b ->
     wmem w' x = wmem w x).
Proof.
  intros Hs Hn H.
  destruct (ensureSpace_grown _ _ _ _ Hs Hn H) as (p & n & -> & _ & Hsz & Hp & _ & Hdis).
  split; [exists p, n; reflexivity|].
  intros b x Hb Hx. apply grown_frame.
  rewrite Forall_forall in Hdis. specialize (Hdis b Hb).
  pose proof (wrap32_range (al - 1)) as Hw.
  unfold disjoint in Hdis. unfold uint32 in Hs, Hw. consts. lia.
Qed.

(** X9: [ensureSpace] ensures space.  The block it creates has room,
    behind the header, for the requested size and one more footer at every
    address that aligning the new cursor can give; the two cursors are
    equal, so the new block starts without a run of trivially destructible
    data. *)
Theorem ensureSpace_ensures_space (size al : Z) (w w' : world) :
  uint32 size -> uint32 (fNextHeapAlloc (arena w)) -> 1 <= al <= maxSize ->
  ensureSpace sys_new size al w = Ok w' ->
  cursors_ok (arena w') /\ fCursor (arena w') <> 0 /\
  fDtorCursor (arena w') = fCursor (arena w') /\
  forall objStart,
    fCursor (arena w') <= objStart <= fCursor (arena w') + (al - 1) ->
    objStart + size + sizeof_Footer <= fEnd (arena w').
Proof.
  intros Hs Hn Hal H.
  destruct (ensureSpace_grown _ _ _ _ Hs Hn H) as (p & n & -> & _ & Hsz & Hp & Hlim & _).
  rewrite (wrap32_small (al - 1)) in Hsz by (unfold uint32; lia).
  rewrite grown_arena. unfold cursors_ok. proj. unfold uint32 in Hs.
  consts. unfold addr_limit in *.
  split; [lia|]. split; [lia|]. split; [reflexivity|]. intros o Ho. lia.
Qed.

End WithAllocator.

Lemma w_first_grown_ok : ensureSpace bump_new 100 8 w_first = Ok w_first_grown.
Proof.
  assert (H : is_ok (ensureSpace bump_new 100 8 w_first) = true)
    by (vm_compute; reflexivity).
  unfold w_first_grown.
  destruct (ensureSpace bump_new 100 8 w_first) as [w|e]; [reflexivity | discriminate].
Qed.

Lemma ensureSpace_links_new_block_witness :
  exists newBlock n,
    wheap w_first_grown = HNew newBlock n :: wheap w_first /\
    fDtorCursor (arena w_first_grown) = newBlock + (sizeof_ptr + sizeof_Footer) /\
    fCursor (arena w_first_grown) = fDtorCursor (arena w_first_grown) /\
    fEnd (arena w_first_grown) = newBlock + n /\
    RunDtorsOnBlock 3 (wmem w_first_grown) (fDtorCursor (arena w_first_grown)) =
    match RunDtorsOnBlock 2 (wmem w_first_grown) (fDtorCursor (arena w_first)) with
    | Some tr => Some (tr ++ [EvDelete newBlock])
    | None => None
    end.
Proof.
  apply (ensureSpace_links_new_block bump_new bump_new_ok 1 100 8 w_first w_first_grown).
  - unfold uint32, maxSize. lia.
  - vm_compute. split; discriminate.
  - split; [discriminate | reflexivity].
  - exact w_first_grown_ok.
Defined.

Lemma ensureSpace_preserves_live_blocks_witness :
  (exists newBlock n, live (wheap w_first_grown) = (newBlock, n) :: live (wheap w_first)) /\
  (forall b x, In b (live (wheap w_first)) -> fst b <= x < fst b + snd b ->
     wmem w_first_grown x = wmem w_first x).
Proof.
  apply (ensureSpace_preserves_live_blocks bump_new bump_new_ok 100 8 w_first w_first_grown).
  - unfold uint32, maxSize. lia.
  - vm_compute. split; discriminate.
  - exact w_first_grown_ok.
Defined.

Lemma ensureSpace_ensures_space_witness :
  cursors_ok (arena w_first_grown) /\ fCursor (arena w_first_grown) <> 0 /\
  fDtorCursor (arena w_first_grown) = fCursor (arena w_first_grown) /\
  forall objStart,
    fCursor (arena w_first_grown) <= objStart <= fCursor (arena w_first_grown) + (8 - 1) ->
    objStart + 100 + sizeof_Footer <= fEnd (arena w_first_grown).
Proof.
  apply (ensureSpace_ensures_space bump_new bump_new_ok 100 8 w_first w_first_grown).
  - unfold uint32, maxSize. lia.
  - vm_compute. split; discriminate.
  - unfold maxSize. lia.
  - exact w_first_grown_ok.
Defined.

End NewBlock.

(** ** Growth: how far the counters go *)

Module GrowthCount.
Import Arena Growth BitFacts MemFacts FooterFacts GrowthFacts GrowInv BumpFacts Examples.

Lemma fib_SS (n : nat) : fib (S (S n)) = fib n + fib (S n).
Proof.
  unfold fib. cbn [fib_pair]. destruct (fib_pair n) as [a b]. reflexivity.
Qed.

Lemma fib_bounds (n : nat) : 0 <= fib n <= fib (S n).
Proof.
  induction n as [|n IH].
  - unfold fib. cbn. lia.
  - rewrite fib_SS. lia.
Qed.

Lemma fib_mono (n k : nat) : (n <= k)%nat -> fib n <= fib k.
Proof.
  induction 1 as [|k _ IH]; [lia|]. pose proof (fib_bounds k). lia.
Qed.

Lemma fib_48 : fib 48 = 4807526976.
Proof. reflexivity. Qed.

Lemma fib_fits (n : nat) : fib n <= maxSize -> (n <= 47)%nat.
Proof.
  intros H. destruct (Nat.le_gt_cases n 47) as [L|G]; [exact L|].
  pose proof (fib_mono 48 n G) as M. rewrite fib_48 in M. unfold maxSize in H. lia.
Qed.

Section WithAllocator.

Variable sys_new : history -> Z -> option Z.

Lemma ensureSpace_counters (size al : Z) (w w' : world) :
  ensureSpace sys_new size al w = Ok w' ->
  fNextHeapAlloc (arena w') = fNextHeapAlloc (advance (arena w)) /\
  fYetNextHeapAlloc (arena w') = fYetNextHeapAlloc (advance (arena w)).
Proof.
  unfold ensureSpace, AssertRelease, new_block.
  destruct (_ <=? _); cbn [bind]; [|discriminate].
  destruct (_ <=? _); cbn [bind]; [|discriminate].
  destruct (_ <=? _); cbn [bind]; [|discriminate].
  proj. destruct (sys_new _ _); cbn [bind]; [|discriminate].
  intros H. injection H as <-. rewrite installFooter_arena. proj.
  unfold installRaw. proj. split; reflexivity.
Qed.

(** With a least block size of the greatest 32-bit size, the last
    assertion of [ensureSpace] fails. *)
Lemma saturated_size_overflows (obj : Z) :
  0 <= obj <= maxSize ->
  (Z.max obj maxSize <=? maxSize - round_mask (Z.max obj maxSize)) = false.
Proof.
  intros H. rewrite Z.max_r by lia. change (round_mask maxSize) with 4095.
  apply Z.leb_gt. lia.
Qed.

Lemma ensureSpace_Ok_unsaturated (size al : Z) (w w' : world) :
  ensureSpace sys_new size al w = Ok w' -> fNextHeapAlloc (arena w) <> maxSize.
Proof.
  intros H Hsat. unfold ensureSpace, AssertRelease in H.
  destruct (_ <=? _); cbn [bind] in H; [|discriminate].
  destruct (_ <=? _); cbn [bind] in H; [|discriminate].
  rewrite Hsat, saturated_size_overflows in H by apply wrap32_range.
  discriminate.
Qed.

(** X10: once [fNextHeapAlloc] has reached the greatest 32-bit size, the
    arena cannot grow any more: every call of [ensureSpace] aborts,
    whatever is requested, since the least block size, rounded up to a
    multiple of 4096, no longer fits. *)
Theorem ensureSpace_saturated_aborts (size al : Z) (w : world) :
  fNextHeapAlloc (arena w) = maxSize ->
  ensureSpace sys_new size al w = Err AssertFail.
Proof.
  intros Hsat. unfold ensureSpace, AssertRelease.
  destruct (_ <=? _); cbn [bind]; [|reflexivity].
  destruct (_ <=? _); cbn [bind]; [|reflexivity].
  rewrite Hsat, saturated_size_overflows by apply wrap32_range.
  reflexivity.
Qed.

Lemma grows_to_counters_above (k : nat) (w0 w : world) :
  grows_to sys_new k w0 w ->
  counters_above O (arena w0) ->
  counters_above k (arena w) /\ (k <= 46)%nat.
Proof.
  induction 1 as [w|k w w1 w2 w3 size al _ IH Hn Hy E]; intros H0.
  - split; [exact H0 | lia].
  - destruct (IH H0) as [(U1 & U2 & Hc) _].
    rewrite <- Hn in U1. rewrite <- Hy in U2. rewrite <- Hn, <- Hy in Hc.
    destruct Hc as [Hsat | [F1 F2]].
    { exfalso. exact (ensureSpace_Ok_unsaturated _ _ _ _ E Hsat). }
    destruct (ensureSpace_counters _ _ _ _ E) as [En Ey].
    destruct (advance_uint32 (arena w2) U1 U2) as [V1 V2].
    destruct (advance_counters (arena w2) U1 U2) as [A B].
    assert (Hk : (S (S k) <= 47)%nat).
    { apply fib_fits. unfold uint32 in U2. lia. }
    split; [|lia]. unfold counters_above. rewrite En, Ey.
    split; [exact V1|]. split; [exact V2|].
    destruct (Z.le_gt_cases (fYetNextHeapAlloc (arena w2))
                            (maxSize - fNextHeapAlloc (arena w2))) as [L|G].
    + right. destruct (A L) as [-> ->]. rewrite (fib_SS (S k)). lia.
    + left. exact (proj1 (B G)).
Qed.

(** X11: the growth counters follow the Fibonacci numbers.  Both start at
    the same value [h]; after [k] calls of [ensureSpace] that returned,
    [fNextHeapAlloc] is [h * fib (k+1)] and [fYetNextHeapAlloc] is
    [h * fib (k+2)], as long as the latter fits the 32-bit size type. *)
Theorem growth_counters_fibonacci (k : nat) (w0 w : world) (h : Z) :
  fNextHeapAlloc (arena w0) = h -> fYetNextHeapAlloc (arena w0) = h -> 0 <= h ->
  h * fib (S (S k)) <= maxSize ->
  grows_to sys_new k w0 w ->
  fNextHeapAlloc (arena w) = h * fib (S k) /\
  fYetNextHeapAlloc (arena w) = h * fib (S (S k)).
Proof.
  intros Hn0 Hy0 Hh Hfit G. revert Hfit.
  induction G as [w|k w w1 w2 w3 size al _ IH Hn Hy E]; intros Hfit.
  - change (fib 1) with 1. change (fib 2) with 1. lia.
  - pose proof (fib_bounds (S k)) as B1. pose proof (fib_bounds (S (S k))) as B2.
    pose proof (fib_SS (S k)) as F.
    destruct (IH Hn0 Hy0) as [I1 I2]; [nia|].
    rewrite <- Hn in I1. rewrite <- Hy in I2.
    destruct (ensureSpace_counters _ _ _ _ E) as [En Ey].
    assert (U1 : uint32 (fNextHeapAlloc (arena w2))) by (unfold uint32; nia).
    assert (U2 : uint32 (fYetNextHeapAlloc (arena w2))) by (unfold uint32; nia).
    destruct (advance_counters (arena w2) U1 U2) as [A _].
    rewrite En, Ey. destruct A as [-> ->]; [nia|]. split; [exact I2 | nia].
Qed.

(** X12: between its construction and its teardown an arena creates at
    most 46 heap blocks: whatever is requested, the least block size grows
    at least like the Fibonacci numbers, and the call of [ensureSpace] that
    follows the overflow of the counters aborts. *)
Theorem at_most_46_heap_blocks (k : nat) (m : mem) (h : history)
        (block size hint : Z) (w : world) :
  grows_to sys_new k (construct m h block size hint) w -> (k <= 46)%nat.
Proof.
  intros G. apply (grows_to_counters_above k _ w G).
  destruct (GrowthSeq.construct_counters_ok m h block size hint) as (Hn & Hy & _).
  unfold counters_above, uint32.
  split; [lia|]. split; [lia|]. right. change (fib 1) with 1. change (fib 2) with 1. lia.
Qed.

End WithAllocator.

Lemma ensureSpace_saturated_aborts_witness :
  ensureSpace bump_new 24 8 w_sat = Err AssertFail.
Proof.
  apply (ensureSpace_saturated_aborts bump_new 24 8 w_sat). reflexivity.
Defined.

Lemma w_null_grows : grows_to bump_new 1 w_null w_grown.
Proof.
  apply (grows_to_S bump_new 0 w_null w_null w_null w_grown 100 8);
    [constructor | reflexivity | reflexivity | exact Claims.w_grown_ok].
Qed.

Lemma growth_counters_fibonacci_witness :
  fNextHeapAlloc (arena w_grown) = 1024 * fib 2 /\
  fYetNextHeapAlloc (arena w_grown) = 1024 * fib 3.
Proof.
  apply (growth_counters_fibonacci bump_new 1 w_null w_grown 1024).
  - reflexivity.
  - reflexivity.
  - lia.
  - vm_compute. discriminate.
  - exact w_null_grows.
Defined.

Lemma grow_times_grows (k : nat) (w w' : world) :
  grow_times k w = Ok w' -> grows_to bump_new k w w'.
Proof.
  revert w'. induction k as [|k IH]; intros w' H; cbn [grow_times] in H.
  - injection H as <-. constructor.
  - destruct (grow_times k w) as [w1|e]; [|discriminate]. cbn [bind] in H.
    now apply (grows_to_S bump_new k w w1 w1 w' 0 1); [apply IH | | |].
Qed.

(** The bound is reached: with a first heap block of one byte and empty
    requests, 46 calls of [ensureSpace] in a row return. *)
Lemma forty_six_growths : exists w, grows_to bump_new 46 w_tiny w.
Proof.
  assert (H : is_ok (grow_times 46 w_tiny) = true) by (vm_compute; reflexivity).
  destruct (grow_times 46 w_tiny) as [w|e] eqn:E; [|discriminate].
  exists w. now apply grow_times_grows.
Defined.

Lemma at_most_46_heap_blocks_witness : (46 <= 46)%nat.
Proof.
  destruct forty_six_growths as [w G].
  exact (at_most_46_heap_blocks bump_new 46 m0 [] 0 0 1 w G).
Defined.

End GrowthCount.

(** ** Allocation: one restart, aligned addresses, fresh bytes *)

Module Allocation.
Import Arena Chain Growth Inv BitFacts MemFacts FooterFacts GrowthFacts GrowInv AllocInv.
Import BumpFacts NewBlock Examples.

Lemma skip_overhead_cases (a : SkArenaAlloc) :
  skip_overhead a = 0 /\ fCursor a = fDtorCursor a \/
  skip_overhead a = 13 /\ fCursor a <> fDtorCursor a.
Proof.
  unfold skip_overhead. destruct (Z.eqb_spec (fCursor a) (fDtorCursor a)); cbn [negb].
  - left. now split.
  - right. now split.
Qed.

(** Clearing the bits of [2^k - 1] in a 64-bit value. *)
Lemma align_pow2 (c k : Z) :
  0 <= k -> 0 <= c -> c + (2 ^ k - 1) < 2 ^ 64 ->
  Z.land (wrap64 (c + (2 ^ k - 1))) (not64 (2 ^ k - 1))
  = (c + (2 ^ k - 1)) / 2 ^ k * 2 ^ k.
Proof.
  intros Hk Hc Hlt. pose proof (Z.pow_pos_nonneg 2 k ltac:(lia) Hk) as Hp.
  unfold wrap64, not64. change 18446744073709551616 with (2 ^ 64).
  rewrite Z.mod_small by lia.
  rewrite land_not_ones by lia.
  replace (2 ^ k - 1) with (Z.ones k) by (rewrite Z.ones_equiv; lia).
  rewrite Z.ldiff_ones_r, Z.shiftl_mul_pow2, Z.shiftr_div_pow2 by assumption.
  reflexivity.
Qed.

Section WithAllocator.

Variable sys_new : history -> Z -> option Z.

(** The request fits a block that [ensureSpace] has just created. *)
Lemma fresh_block_fits (fuel : nat) (sif al p n : Z) (w : world) :
  arena w = mkArena (p + 17) (p + 17) (p + n)
                    (fNextHeapAlloc (arena w)) (fYetNextHeapAlloc (arena w)) ->
  0 < p -> p + n <= addr_limit -> 1 <= al <= maxSize -> 0 <= sif <= maxSize ->
  sif + overhead + (al - 1) <= n ->
  allocObjectWithFooter sys_new (S fuel) sif al w = Ok (first_fit p al, w) /\
  p + 17 <= first_fit p al <= p + 17 + (al - 1) /\
  first_fit p al + sif <= p + n.
Proof.
  intros Ha Hp Hlim Hal Hsif Hn.
  assert (Hb : p + 17 <= first_fit p al <= p + 17 + (al - 1)).
  { unfold first_fit. apply align_up_bound; [lia | lia |].
    unfold addr_limit, maxSize in *. change (2 ^ 64) with 18446744073709551616.
    consts. lia. }
  split; [|split; [exact Hb | consts; lia]].
  rewrite allocObjectWithFooter_S. cbv zeta. unfold skip_overhead.
  rewrite (wrap32_small (al - 1)) by (unfold uint32; lia). rewrite Ha. proj.
  rewrite Z.eqb_refl. cbn [negb].
  destruct (Z.eqb_spec (p + 17) 0) as [E|_]; [lia|].
  assert (Hw : wrap32 (sif + 0) = sif).
  { rewrite Z.add_0_r. apply wrap32_small. unfold uint32. lia. }
  rewrite Hw. replace (p + 17 + 0 + (al - 1)) with (p + 17 + (al - 1)) by lia.
  fold (first_fit p al).
  destruct (Z.gtb_spec sif (p + n - first_fit p al)) as [Hbig|_]; [consts; lia|].
  destruct (Z.leb_spec sif (p + n - first_fit p al)) as [_|Habs]; [|consts; lia].
  reflexivity.
Qed.

End WithAllocator.

Section WithGoodAllocator.

Variable sys_new : history -> Z -> option Z.
Hypothesis sys_new_ok : allocator_ok sys_new.

(** The outcomes of [allocObjectWithFooter]: it fails in [ensureSpace], or
    it returns the aligned address behind the cursor, in the active block
    or in a block that [ensureSpace] has just created. *)
Lemma allocObjectWithFooter_outcome (sif al : Z) (w : world) :
  uint32 (fNextHeapAlloc (arena w)) -> cursors_ok (arena w) ->
  1 <= al <= maxSize -> 0 <= sif <= maxSize - 13 ->
  (exists e, e <> OutOfFuel /\
     forall fuel, allocObjectWithFooter sys_new (S fuel) sif al w = Err e) \/
  (exists o w' base n,
     (forall fuel, allocObjectWithFooter sys_new (S (S fuel)) sif al w = Ok (o, w')) /\
     (allocObjectWithFooter sys_new 1 sif al w = Ok (o, w') \/
      allocObjectWithFooter sys_new 1 sif al w = Err OutOfFuel) /\
     (wheap w' = wheap w /\ base = fCursor (arena w) /\ fEnd (arena w') = fEnd (arena w) \/
      wheap w' = HNew base n :: wheap w /\ 0 < base /\ fEnd (arena w') = base + n /\
      fCursor (arena w') = base + 17 /\
      Forall (fun b => disjoint base n (fst b) (snd b)) (live (wheap w))) /\
     fDtorCursor (arena w') = fCursor (arena w') /\ fCursor (arena w') <> 0 /\
     cursors_ok (arena w') /\
     o = Z.land (wrap64 (fCursor (arena w') + (al - 1))) (not64 (al - 1)) /\
     fCursor (arena w') <= o <= fCursor (arena w') + (al - 1) /\
     o + sif <= fEnd (arena w') /\
     (forall x, x < base \/ fCursor (arena w') <= x -> wmem w' x = wmem w x)).
Proof.
  intros Hnext (Hd & Hc) Hal Hsif.
  assert (Hso : 0 <= skip_overhead (arena w) <= 13).
  { destruct (skip_overhead_cases (arena w)) as [[-> _]|[-> _]]; lia. }
  assert (Hm : wrap32 (al - 1) = al - 1) by (apply wrap32_small; unfold uint32; lia).
  assert (Hts : wrap32 (sif + skip_overhead (arena w)) = sif + skip_overhead (arena w)).
  { apply wrap32_small. unfold uint32, maxSize in *. lia. }
  assert (Hali : fCursor (arena w) + skip_overhead (arena w)
                 <= Z.land (wrap64 (fCursor (arena w) + skip_overhead (arena w) + (al - 1)))
                           (not64 (al - 1))
                 <= fCursor (arena w) + skip_overhead (arena w) + (al - 1)).
  { apply align_up_bound; [lia | lia |]. unfold addr_limit, maxSize in *.
    change (2 ^ 64) with 18446744073709551616. lia. }
  set (o := Z.land (wrap64 (fCursor (arena w) + skip_overhead (arena w) + (al - 1)))
                   (not64 (al - 1))) in *.
  set (grow := (fCursor (arena w) =? 0)
               || (sif + skip_overhead (arena w) >? fEnd (arena w) - o)).
  assert (Hstep : forall fuel,
            allocObjectWithFooter sys_new (S fuel) sif al w =
            if grow
            then w1 <- ensureSpace sys_new (sif + skip_overhead (arena w)) al w ;;
                 allocObjectWithFooter sys_new fuel sif al w1
            else Ok (o, if negb (fCursor (arena w) =? fDtorCursor (arena w))
                        then installFooter fn_SkipPod 0
                               (installRaw 4
                                  (ToU32 (fCursor (arena w) - fDtorCursor (arena w))) w)
                        else w)).
  { intros fuel. rewrite allocObjectWithFooter_S. cbv zeta. rewrite Hm, Hts.
    fold o. unfold grow.
    destruct (fCursor (arena w) =? 0); cbn [orb]; [reflexivity|].
    destruct (Z.gtb_spec (sif + skip_overhead (arena w)) (fEnd (arena w) - o));
      [reflexivity|].
    destruct (Z.leb_spec (sif + skip_overhead (arena w)) (fEnd (arena w) - o));
      [reflexivity | lia]. }
  destruct grow eqn:Hb.
  - (* the arena grows *)
    destruct (ensureSpace sys_new (sif + skip_overhead (arena w)) al w) as [w1|e] eqn:E.
    + right.
      assert (Hu : uint32 (sif + skip_overhead (arena w)))
        by (unfold uint32, maxSize in *; lia).
      destruct (ensureSpace_grown sys_new sys_new_ok _ _ _ _ Hu Hnext E)
        as (p & n & -> & _ & Hn & Hp & Hlim & Hdis).
      rewrite Hm in Hn.
      assert (Hfresh : forall fuel,
                allocObjectWithFooter sys_new (S fuel) sif al (grown p n w)
                = Ok (first_fit p al, grown p n w) /\
                p + 17 <= first_fit p al <= p + 17 + (al - 1) /\
                first_fit p al + sif <= p + n).
      { intros fuel. apply fresh_block_fits; try (consts; lia).
        rewrite grown_arena. reflexivity. }
      destruct (Hfresh O) as (_ & B1 & B2).
      exists (first_fit p al), (grown p n w), p, n.
      rewrite grown_arena, grown_heap. proj.
      split; [intros fuel; rewrite Hstep; cbn [bind]; exact (proj1 (Hfresh fuel))|].
      split; [right; rewrite Hstep; reflexivity|].
      split; [right; repeat split; try assumption; reflexivity|].
      split; [reflexivity|]. split; [lia|].
      split; [unfold cursors_ok; proj; consts; lia|].
      split; [reflexivity|]. split; [exact B1|]. split; [exact B2|].
      intros x Hx. apply grown_frame. lia.
    + left. exists e. split.
      * intros ->. exact (Totality.ensureSpace_no_timeout sys_new _ _ _ E).
      * intros fuel. rewrite Hstep. reflexivity.
  - (* the active block serves the request *)
    right. unfold grow in Hb. apply orb_false_iff in Hb. destruct Hb as [Hc0 Hfit].
    apply Z.eqb_neq in Hc0. rewrite Z.gtb_ltb in Hfit. apply Z.ltb_ge in Hfit.
    destruct (skip_overhead_cases (arena w)) as [[Eso Ecd]|[Eso Ncd]].
    + (* no skip record *)
      exists o, w, (fCursor (arena w)), 0.
      assert (Hw : (if negb (fCursor (arena w) =? fDtorCursor (arena w))
                    then installFooter fn_SkipPod 0
                           (installRaw 4
                              (ToU32 (fCursor (arena w) - fDtorCursor (arena w))) w)
                    else w) = w).
      { rewrite Ecd, Z.eqb_refl. reflexivity. }
      rewrite Hw in Hstep.
      split; [intros fuel; now rewrite Hstep|]. split; [left; now rewrite Hstep|].
      split; [left; auto|]. split; [lia|]. split; [exact Hc0|].
      split; [unfold cursors_ok; lia|].
      split; [unfold o; rewrite Eso; f_equal; f_equal; lia|].
      split; [lia|]. split; [lia|]. reflexivity.
    + (* a skip record in front of the object *)
      set (w' := installFooter fn_SkipPod 0
                   (installRaw 4 (ToU32 (fCursor (arena w) - fDtorCursor (arena w))) w)).
      assert (Hw : (if negb (fCursor (arena w) =? fDtorCursor (arena w))
                    then w' else w) = w').
      { destruct (Z.eqb_spec (fCursor (arena w)) (fDtorCursor (arena w))); [contradiction|].
        reflexivity. }
      fold w' in Hstep. rewrite Hw in Hstep.
      assert (Ha : arena w' = mkArena (fCursor (arena w) + 13) (fCursor (arena w) + 13)
                                      (fEnd (arena w)) (fNextHeapAlloc (arena w))
                                      (fYetNextHeapAlloc (arena w))).
      { unfold w'. rewrite installFooter_arena. unfold installRaw. proj.
        change (Z.of_nat 4) with 4. f_equal; lia. }
      exists o, w', (fCursor (arena w)), 0. rewrite Ha. proj.
      split; [intros fuel; now rewrite Hstep|]. split; [left; now rewrite Hstep|].
      split; [left; auto|]. split; [reflexivity|]. split; [lia|].
      split; [unfold cursors_ok; proj; lia|].
      split; [unfold o; rewrite Eso; reflexivity|]. split; [lia|]. split; [lia|].
      intros x Hx. unfold w'. rewrite installFooter_other.
      * rewrite installRaw_mem. apply store_le_other. change (Z.of_nat 4) with 4. lia.
      * unfold installRaw. proj. change (Z.of_nat 4) with 4. lia.
Qed.

(** The same, read from a call that has returned. *)
Lemma allocObjectWithFooter_returned (fuel : nat) (sif al o : Z) (w w' : world) :
  uint32 (fNextHeapAlloc (arena w)) -> cursors_ok (arena w) ->
  1 <= al <= maxSize -> 0 <= sif <= maxSize - 13 ->
  allocObjectWithFooter sys_new fuel sif al w = Ok (o, w') ->
  exists base n,
    (wheap w' = wheap w /\ base = fCursor (arena w) /\ fEnd (arena w') = fEnd (arena w) \/
     wheap w' = HNew base n :: wheap w /\ 0 < base /\ fEnd (arena w') = base + n /\
     fCursor (arena w') = base + 17 /\
     Forall (fun b => disjoint base n (fst b) (snd b)) (live (wheap w))) /\
    fDtorCursor (arena w') = fCursor (arena w') /\ fCursor (arena w') <> 0 /\
    cursors_ok (arena w') /\
    o = Z.land (wrap64 (fCursor (arena w') + (al - 1))) (not64 (al - 1)) /\
    fCursor (arena w') <= o <= fCursor (arena w') + (al - 1) /\
    o + sif <= fEnd (arena w') /\
    (forall x, x < base \/ fCursor (arena w') <= x -> wmem w' x = wmem w x).
Proof.
  intros Hn Hc Hal Hsif H.
  destruct (allocObjectWithFooter_outcome sif al w Hn Hc Hal Hsif)
    as [(e & _ & Herr) | (o1 & w1 & base & n & Hok & H1 & R)].
  - destruct fuel as [|fuel]; [discriminate|]. rewrite Herr in H. discriminate.
  - assert (E : Ok (o, w') = Ok (o1, w1)).
    { destruct fuel as [|[|fuel]]; [discriminate| |].
      - destruct H1 as [H1|H1]; rewrite H1 in H; [now rewrite H | discriminate].
      - rewrite Hok in H. now rewrite H. }
    injection E as -> ->. exists base, n. exact R.
Qed.

(** X13: [allocObjectWithFooter] takes the [goto restart] at most once.
    For a size that leaves room for a skip record in the 32-bit size type,
    the block that [ensureSpace] creates always holds the request, so two
    rounds decide the call: it aborts or fails in [ensureSpace], or it
    returns, having created at most one heap block and freed none. *)
Theorem allocObjectWithFooter_restarts_once (fuel : nat) (sif al : Z) (w : world) :
  uint32 (fNextHeapAlloc (arena w)) -> cursors_ok (arena w) ->
  1 <= al <= maxSize -> 0 <= sif <= maxSize - 13 ->
  allocObjectWithFooter sys_new (S (S fuel)) sif al w
  = allocObjectWithFooter sys_new 2 sif al w /\
  match allocObjectWithFooter sys_new 2 sif al w with
  | Ok (_, w') =>
    wheap w' = wheap w \/ exists newBlock n, wheap w' = HNew newBlock n :: wheap w
  | Err e => e = AssertFail \/ e = BadAlloc
  end.
Proof.
  intros Hn Hc Hal Hsif.
  destruct (allocObjectWithFooter_outcome sif al w Hn Hc Hal Hsif)
    as [(e & He & Herr) | (o1 & w1 & base & n & Hok & _ & Hheap & _)].
  - rewrite !Herr. split; [reflexivity|]. destruct e; [now left | now right | contradiction].
  - rewrite !Hok. split; [reflexivity|].
    destruct Hheap as [(Hh & _) | (Hh & _)]; [now left | right; now exists base, n].
Qed.

(** X14: for an alignment that is a power of two, the address that
    [allocObjectWithFooter] returns is a multiple of the alignment; it is
    the first such address at or behind the cursor, which the call leaves
    equal to the destructor cursor, and the object with its footer ends
    inside the active block. *)
Theorem allocObjectWithFooter_aligned (fuel : nat) (sif k objStart : Z) (w w' : world) :
  uint32 (fNextHeapAlloc (arena w)) -> cursors_ok (arena w) ->
  0 <= k <= 31 -> 0 <= sif <= maxSize - 13 ->
  allocObjectWithFooter sys_new fuel sif (2 ^ k) w = Ok (objStart, w') ->
  objStart mod 2 ^ k = 0 /\
  fCursor (arena w') <= objStart < fCursor (arena w') + 2 ^ k /\
  objStart + sif <= fEnd (arena w') /\
  fDtorCursor (arena w') = fCursor (arena w') /\
  cursors_ok (arena w').
Proof.
  intros Hn Hc Hk Hsif H.
  assert (Hp : 1 <= 2 ^ k <= 2 ^ 31).
  { split; [pose proof (Z.pow_pos_nonneg 2 k); lia|].
    apply Z.pow_le_mono_r; lia. }
  change (2 ^ 31) with 2147483648 in Hp.
  destruct (allocObjectWithFooter_returned fuel sif (2 ^ k) objStart w w' Hn Hc)
    as (base & n & _ & Hd & _ & Hc' & Ho & Hb & He & _);
    [unfold maxSize; lia | exact Hsif | exact H |].
  split; [|split; [lia|split; [exact He|split; [exact Hd|exact Hc']]]].
  rewrite Ho, align_pow2; [apply Z.mod_mul; lia | lia | |].
  - destruct Hc' as [? ?]. lia.
  - destruct Hc' as [? ?]. unfold addr_limit in *.
    change (2 ^ 64) with 18446744073709551616. lia.
Qed.

(** X15: [allocObjectWithFooter] writes fresh bytes only.  It leaves
    every byte at or behind the address it returns as it was, so the
    caller gets the space untouched; when the active block serves the
    request it leaves every byte below the old cursor, and when the arena
    grows it leaves every byte outside the header of the new block, which
    overlaps no block that was live before. *)
Theorem allocObjectWithFooter_writes_fresh_bytes (fuel : nat) (sif al objStart : Z)
        (w w' : world) :
  uint32 (fNextHeapAlloc (arena w)) -> cursors_ok (arena w) ->
  1 <= al <= maxSize -> 0 <= sif <= maxSize - 13 ->
  allocObjectWithFooter sys_new fuel sif al w = Ok (objStart, w') ->
  (forall x, objStart <= x -> wmem w' x = wmem w x) /\
  (wheap w' = wheap w /\
   (forall x, x < fCursor (arena w) -> wmem w' x = wmem w x) \/
   exists newBlock n,
     wheap w' = HNew newBlock n :: wheap w /\
     newBlock + 17 <= objStart /\ objStart + sif <= newBlock + n /\
     (forall x, x < newBlock \/ newBlock + 17 <= x -> wmem w' x = wmem w x) /\
     Forall (fun b => disjoint newBlock n (fst b) (snd b)) (live (wheap w))).
Proof.
  intros Hn Hc Hal Hsif H.
  destruct (allocObjectWithFooter_returned fuel sif al objStart w w' Hn Hc Hal Hsif H)
    as (base & n & Hheap & _ & _ & _ & _ & Hb & He & Hfr).
  split; [intros x Hx; apply Hfr; lia|].
  destruct Hheap as [(Hh & -> & _) | (Hh & Hp & Hend & Hcur & Hdis)].
  - left. split; [exact Hh|]. intros x Hx. apply Hfr. lia.
  - right. exists base, n. split; [exact Hh|]. split; [lia|]. split; [lia|].
    split; [|exact Hdis]. intros x Hx. apply Hfr. lia.
Qed.

End WithGoodAllocator.

Lemma served_ok : allocObjectWithFooter bump_new 2 109 8 w_first = Ok (o_served, w_served).
Proof.
  assert (H : is_ok (allocObjectWithFooter bump_new 2 109 8 w_first) = true)
    by (vm_compute; reflexivity).
  unfold o_served, w_served.
  destruct (allocObjectWithFooter bump_new 2 109 8 w_first) as [[o w]|e];
    [reflexivity | discriminate].
Qed.

Lemma w_first_cursors : cursors_ok (arena w_first).
Proof. vm_compute. repeat split; discriminate. Qed.

Lemma w_first_next : uint32 (fNextHeapAlloc (arena w_first)).
Proof. vm_compute. split; discriminate. Qed.

Lemma allocObjectWithFooter_restarts_once_witness :
  allocObjectWithFooter bump_new 5 109 8 w_first
  = allocObjectWithFooter bump_new 2 109 8 w_first /\
  match allocObjectWithFooter bump_new 2 109 8 w_first with
  | Ok (_, w') =>
    wheap w' = wheap w_first \/
    exists newBlock n, wheap w' = HNew newBlock n :: wheap w_first
  | Err e => e = AssertFail \/ e = BadAlloc
  end.
Proof.
  apply (allocObjectWithFooter_restarts_once bump_new bump_new_ok 3 109 8 w_first).
  - exact w_first_next.
  - exact w_first_cursors.
  - unfold maxSize. lia.
  - unfold maxSize. lia.
Defined.

Lemma allocObjectWithFooter_aligned_witness :
  o_served mod 2 ^ 3 = 0 /\
  fCursor (arena w_served) <= o_served < fCursor (arena w_served) + 2 ^ 3 /\
  o_served + 109 <= fEnd (arena w_served) /\
  fDtorCursor (arena w_served) = fCursor (arena w_served) /\
  cursors_ok (arena w_served).
Proof.
  apply (allocObjectWithFooter_aligned bump_new bump_new_ok 2 109 3 o_served w_first w_served).
  - exact w_first_next.
  - exact w_first_cursors.
  - lia.
  - unfold maxSize. lia.
  - exact served_ok.
Defined.

Lemma allocObjectWithFooter_writes_fresh_bytes_witness :
  (forall x, o_served <= x -> wmem w_served x = wmem w_first x) /\
  (wheap w_served = wheap w_first /\
   (forall x, x < fCursor (arena w_first) -> wmem w_served x = wmem w_first x) \/
   exists newBlock n,
     wheap w_served = HNew newBlock n :: wheap w_first /\
     newBlock + 17 <= o_served /\ o_served + 109 <= newBlock + n /\
     (forall x, x < newBlock \/ newBlock + 17 <= x -> wmem w_served x = wmem w_first x) /\
     Forall (fun b => disjoint newBlock n (fst b) (snd b)) (live (wheap w_first))).
Proof.
  apply (allocObjectWithFooter_writes_fresh_bytes bump_new bump_new_ok 2 109 8 o_served
           w_first w_served).
  - exact w_first_next.
  - exact w_first_cursors.
  - unfold maxSize. lia.
  - unfold maxSize. lia.
  - exact served_ok.
Defined.

End Allocation.

(** ** From construction to teardown, for an arena that only grows *)

Module GrowthLifetime.
Import Arena Chain Growth Inv BitFacts MemFacts FooterFacts GrowthFacts InvFacts GrowInv.
Import Teardown BumpFacts Examples.

Lemma remove_block_middle (p n : Z) (l r : list (Z * Z)) :
  ~ In p (map fst l) -> remove_block p (l ++ (p, n) :: r) = l ++ r.
Proof.
  induction l as [|[q k] l IH]; intros Hp; cbn [app remove_block].
  - now rewrite Z.eqb_refl.
  - cbn [map fst In] in Hp. destruct (Z.eqb_spec q p) as [E|_]; [tauto|].
    rewrite IH by tauto. reflexivity.
Qed.

(** Freeing the blocks oldest first leaves the blocks that were live
    before them. *)
Lemma live_apply_deletes (blks : list (Z * Z)) :
  forall (h : history) (rest : list (Z * Z)),
  NoDup (map fst blks) -> live h = rev blks ++ rest ->
  live (apply_deletes (delete_events blks) h) = rest.
Proof.
  induction blks as [|[p n] blks IH]; intros h rest Hnd Hl.
  - exact Hl.
  - cbn [map fst] in Hnd. inversion Hnd as [|? ? Hp Hnd']; subst.
    change (apply_deletes (delete_events ((p, n) :: blks)) h)
      with (apply_deletes (delete_events blks) (HDelete p :: h)).
    apply IH; [exact Hnd'|]. cbn [live]. rewrite Hl. cbn [rev].
    rewrite <- app_assoc. cbn [app]. apply remove_block_middle.
    rewrite map_rev, <- in_rev. exact Hp.
Qed.

Lemma apply_deletes_app (tr tr' : list event) (h : history) :
  apply_deletes (tr ++ tr') h = apply_deletes tr' (apply_deletes tr h).
Proof. unfold apply_deletes. apply fold_left_app. Qed.

Section WithAllocator.

Variable sys_new : history -> Z -> option Z.
Hypothesis sys_new_ok : allocator_ok sys_new.

Lemma ensureSpace_all_inv (rqs : list (Z * Z)) :
  forall (h0 : history) (w w' : world) (g : ghost),
  inv h0 w g -> Forall (fun rq => uint32 (fst rq)) rqs ->
  ensureSpace_all sys_new rqs w = Ok w' ->
  exists l, length l = length rqs /\
            inv h0 w' (mkGhost (g_first g) (g_objs g) (g_blks g ++ l)).
Proof.
  induction rqs as [|[size al] rqs IH]; intros h0 w w' g I Hu H; cbn [ensureSpace_all] in H.
  - injection H as <-. exists []. split; [reflexivity|]. rewrite app_nil_r. now destruct g.
  - destruct (ensureSpace sys_new size al w) as [w1|e] eqn:E; [|discriminate].
    cbn [bind] in H. inversion Hu as [|? ? Hs Hu']; subst. cbn [fst] in Hs.
    destruct (ensureSpace_inv sys_new sys_new_ok h0 w w1 g size al I Hs E)
      as (p & n & I1 & _).
    destruct (IH h0 w1 w' _ I1 Hu' H) as (l & Hl & I').
    exists ((p, n) :: l). split; [cbn [length]; now rewrite Hl|].
    unfold add_blk in I'. cbn [g_first g_objs g_blks] in I'.
    now rewrite <- app_assoc in I'.
Qed.

(** X16: an arena that only grows gives back what it took.  After any
    number of calls of [ensureSpace] on a constructed arena, the teardown
    calls no destructor, meets the end-of-chain footer when the caller's
    block is in use, and then frees the blocks that growth created, oldest
    first and each once; the blocks that are live on the system heap
    afterwards are those that were live at construction, the caller's block
    among them. *)
Theorem teardown_undoes_growth (m : mem) (h0 : history) (block size hint : Z)
        (rqs : list (Z * Z)) (w : world) :
  caller_block_ok h0 block size ->
  Forall (fun rq => uint32 (fst rq)) rqs ->
  ensureSpace_all sys_new rqs (construct m h0 block size hint) = Ok w ->
  exists blks fuel0,
    length blks = length rqs /\
    wheap w = news blks ++ h0 /\
    forall k, (fuel0 <= k)%nat ->
      exists h',
        destroy k w = Some (sentinel (ghost0 block size) ++ delete_events blks, h') /\
        live h' = live h0.
Proof.
  intros Hblk Hu H.
  destruct (construct_inv m h0 block size hint Hblk) as [I0 _].
  destruct (ensureSpace_all_inv rqs h0 _ w _ I0 Hu H) as (blks & Hlen & I).
  unfold ghost0 in I at 2 3. cbn [g_objs g_blks app] in I.
  destruct (destroy_expected h0 w _ I) as (fuel0 & Hrun).
  exists blks, fuel0. split; [exact Hlen|].
  pose proof (inv_heap _ _ _ I) as Hh. cbn [g_blks] in Hh. split; [exact Hh|].
  intros k Hk. rewrite (Hrun k Hk).
  unfold expected. cbn [g_objs g_blks dtor_events map app].
  assert (Es : sentinel (mkGhost (g_first (ghost0 block size)) [] blks)
               = sentinel (ghost0 block size)) by reflexivity.
  rewrite Es. eexists. split; [reflexivity|].
  rewrite apply_deletes_app.
  assert (En : apply_deletes (sentinel (ghost0 block size)) (wheap w) = wheap w).
  { unfold sentinel. destruct (g_first _); reflexivity. }
  rewrite En. apply live_apply_deletes.
  - exact (inv_nodup _ _ _ I).
  - rewrite Hh. apply live_news.
Qed.

End WithAllocator.

Lemma w_first_twice_ok :
  ensureSpace_all bump_new [(100, 8); (5000, 16)] w_first = Ok w_first_twice.
Proof.
  assert (H : is_ok (ensureSpace_all bump_new [(100, 8); (5000, 16)] w_first) = true)
    by (vm_compute; reflexivity).
  unfold w_first_twice.
  destruct (ensureSpace_all bump_new [(100, 8); (5000, 16)] w_first) as [w|e];
    [reflexivity | discriminate].
Qed.

Lemma teardown_undoes_growth_witness :
  exists blks fuel0,
    length blks = length [(100, 8); (5000, 16)] /\
    wheap w_first_twice = news blks ++ h64 /\
    forall k, (fuel0 <= k)%nat ->
      exists h',
        destroy k w_first_twice
        = Some (sentinel (ghost0 4096 64) ++ delete_events blks, h') /\
        live h' = live h64.
Proof.
  apply (teardown_undoes_growth bump_new bump_new_ok m0 h64 4096 64 0
           [(100, 8); (5000, 16)] w_first_twice).
  - exact Claims.h64_ok.
  - repeat constructor; cbn [fst]; unfold maxSize; lia.
  - exact w_first_twice_ok.
Defined.

End GrowthLifetime.
